(** * ChatTutor: plan-driven routing and context memory

    A shallow embedding of the core of the ChatTutor orchestrator
    ([app/core/agent_builder.py], [app/core/context.py],
    [app/core/memory.py], [app/core/models.py], [app/core/tools.py])
    and the properties of its router, planner, tool sub-protocol,
    retriever, compressor, aggregator and session store.

    Conventions of the embedding:
    - Python exceptions are the [Raise] outcome of [result]; effectful
      functions live in the monad [M], a state monad over [world] whose
      effects survive an exception, as in Python.
    - Python list objects live in the heap [lists] of the world and are
      named by their location, so that in-place [append] and aliasing are
      visible; a [list message] is the value read from such an object.
    - Language-model, structured-decode and HTTP calls are oracles
      ([capabilities]); every call is logged in [trace], and an oracle
      sees the log, so that two calls on equal inputs may answer
      differently.
    - The prompt templates of [app/core/prompts.py] are parameters
      ([prompt_table]). *)

From Stdlib Require Import ZArith QArith Qcanon Ascii String List Sorted Lia.
From stdpp Require Import base option list strings pretty gmap.

Local Open Scope string_scope.
Local Open Scope Z_scope.
Local Open Scope list_scope.

(** ** Outcomes and exceptions *)

Inductive exn :=
| ValidationError (field : string)   (* pydantic / tool-schema validation *)
| AttributeError (attr : string)     (* attribute access on None *)
| KeyError (key : string)            (* d[k] on a missing key *)
| ValueError (what : string)
| CapabilityError (what : string)    (* network, timeout, provider, decode *)
| FileNotFoundError (path : string)
| MarkupError (what : string).       (* console markup that does not parse *)

Inductive result (A : Type) :=
| Ok (a : A)
| Raise (e : exn).
Arguments Ok {A} a.
Arguments Raise {A} e.

#[global] Instance result_ret : MRet result := λ A a, Ok a.
#[global] Instance result_bind : MBind result := λ A B f r,
  match r with Ok a => f a | Raise e => Raise e end.

(** ** Messages ([langchain_core.messages]) *)

Record tool_call := mk_tool_call {
  tc_name : string;
  tc_args : list (string * string);   (* the [args] dict *)
  tc_id : string
}.

(** What a chat model returns: an [AIMessage] with text and zero or more
    tool-call requests. *)
Record ai_message := mk_ai {
  ai_content : string;
  ai_tool_calls : list tool_call
}.

Inductive message :=
| HumanMessage (text : string)
| AIMessage (m : ai_message)
| SystemMessage (text : string)
| ToolMessage (text : string) (tool_call_id : string) (name : option string).

Definition content (m : message) : string :=
  match m with
  | HumanMessage c | SystemMessage c | ToolMessage c _ _ => c
  | AIMessage a => ai_content a
  end.

(** [isinstance(msg, HumanMessage)] *)
Definition is_human (m : message) : bool :=
  match m with HumanMessage _ => true | _ => false end.

(** An [AIMessage] carrying text only. *)
Definition ai_text (c : string) : message := AIMessage (mk_ai c []).

(** ** Python helpers *)

(** Truthiness of an [Optional[str]]: [None] and the empty string are falsy. *)
Definition truthy (o : option string) : bool :=
  match o with
  | Some s => negb (String.eqb s EmptyString)
  | None => false
  end.

(** [o or d] for an [Optional[str]] *)
Definition or_default (o : option string) (d : string) : string :=
  match o with
  | Some s => if String.eqb s EmptyString then d else s
  | None => d
  end.

(** Python slices.  A negative index counts from the end, and both ends
    are clamped to the list: [slice a b l] is [l[a:b]], [slice_from a l] is
    [l[a:]], [slice_to b l] is [l[:b]]. *)
Definition clamp_index (len i : Z) : nat :=
  Z.to_nat (Z.min len (Z.max 0 (if i <? 0 then len + i else i))).
Definition slice {A} (a b : Z) (l : list A) : list A :=
  let len := Z.of_nat (length l) in
  let lo := clamp_index len a in
  let hi := clamp_index len b in
  take (hi - lo)%nat (drop lo l).
Definition slice_from {A} (a : Z) (l : list A) : list A :=
  drop (clamp_index (Z.of_nat (length l)) a) l.
Definition slice_to {A} (b : Z) (l : list A) : list A :=
  take (clamp_index (Z.of_nat (length l)) b) l.

(** The newline character of a Python string literal. *)
Definition nl : string := String "010"%char EmptyString.

(** Lookup in a [dict] literal kept as an association list. *)
Fixpoint dict_get {V} (k : string) (d : list (string * V)) : option V :=
  match d with
  | [] => None
  | (k', v) :: d' => if String.eqb k k' then Some v else dict_get k d'
  end.

(** ** The Plan ([models.ExecutionPlan]) *)

Record ExecutionPlan := mk_plan {
  needs_tutor_answer : bool;
  needs_judge : bool;
  needs_inquiry : bool;
  request_summary : bool;
  is_concluding : bool;
  thought_process : string
}.

(** A pydantic model is built from keyword arguments; every field of
    [ExecutionPlan] is declared [Field(description=...)] with no default,
    so each one is required. *)
Inductive pyval :=
| PyBool (b : bool)
| PyStr (s : string).

Definition required_bool (kw : list (string * pyval)) (k : string) : result bool :=
  match dict_get k kw with
  | Some (PyBool b) => Ok b
  | _ => Raise (ValidationError k)
  end.

Definition required_str (kw : list (string * pyval)) (k : string) : result string :=
  match dict_get k kw with
  | Some (PyStr s) => Ok s
  | _ => Raise (ValidationError k)
  end.

(** The constructor call of [ExecutionPlan] with keyword arguments [kw]. *)
Definition ExecutionPlan_init (kw : list (string * pyval)) : result ExecutionPlan :=
  a ← required_bool kw "needs_tutor_answer";
  b ← required_bool kw "needs_judge";
  c ← required_bool kw "needs_inquiry";
  d ← required_bool kw "request_summary";
  e ← required_bool kw "is_concluding";
  t ← required_str kw "thought_process";
  mret (mk_plan a b c d e t).

(** ** Session state ([models.AgentState]) *)

(** Location of a Python list object. *)
Definition loc := nat.

(** The state is a [TypedDict], that is a plain dict whose keys may be
    missing.  [messages] is read with [state["messages"]] everywhere and
    is always present; the other keys are read with [state.get].  For a
    key whose readers do not distinguish a missing key from a [None]
    value, [None] stands for both; [conversation_summary] is read with two
    different defaults, so it keeps the distinction: [None] is a missing
    key, [Some None] the value [None]. *)
Record AgentState := mk_state {
  messages : loc;
  current_topic : option string;
  session_id : option string;
  conversation_summary : option (option string);
  summarized_msg_count : option Z;
  plan : option ExecutionPlan;
  should_exit : bool;
  tutor_output : option string;
  judge_output : option string;
  inquiry_output : option string;
  summary_output : option string;
  last_intent : option string
}.

(** [state.get("conversation_summary")] *)
Definition get_summary (st : AgentState) : option string :=
  match conversation_summary st with
  | Some v => v
  | None => None
  end.

(** [state.get] of [conversation_summary] with the empty string as default *)
Definition get_summary_or_empty (st : AgentState) : option string :=
  match conversation_summary st with
  | Some v => v
  | None => Some EmptyString
  end.

(** [state.get("summarized_msg_count", 0)] *)
Definition get_cursor (st : AgentState) : Z :=
  default 0 (summarized_msg_count st).

(** A node returns a dict of updates, merged into the state by the graph
    runtime: [messages] through the [add_messages] reducer (append), every
    other key by overwriting. *)
Inductive update :=
| AddMessages (ms : list message)
| SetPlan (p : ExecutionPlan)
| SetTutorOutput (o : option string)
| SetJudgeOutput (o : option string)
| SetInquiryOutput (o : option string)
| SetSummaryOutput (o : option string)
| SetShouldExit (b : bool)
| SetConversationSummary (o : option string)
| SetSummarizedMsgCount (n : Z).

Definition delta := list update.

(** ** The session store on disk ([memory.py], [utils/file_io.py]) *)

(** One entry of [messages_to_dict]: the message class tag and its data. *)
Record message_dict := mk_message_dict {
  md_type : string;
  md_content : string;
  md_tool_calls : list tool_call;
  md_tool_call_id : option string;
  md_name : option string
}.

(** The JSON object written by [save_session].  JSON encoding and decoding
    are the identity on such an object, so a file holds the object. *)
Record session_data := mk_session_data {
  sd_session_id : string;
  sd_last_updated : string;
  sd_topic : string;
  sd_conversation_summary : option string;
  sd_messages : list message_dict
}.

(** ** The world: list objects, files, and the log of capability calls *)

Inductive event :=
| CallPlanner (inputs : list message)          (* structured decode *)
| CallModelWithTools (inputs : list message)   (* [model_with_tools.invoke] *)
| CallModel (inputs : list message)            (* [model.invoke] *)
| CallCompressor (inputs : list message)       (* the compressor's own model *)
| CallSearch (query : string).                 (* [requests.post] of the search tool *)

Record world := mk_world {
  lists : list (list message);
  trace : list event;
  sessions : gmap string session_data;   (* memory/sessions/<id>.json *)
  notes : gmap string string             (* memory/notes/<name>.md *)
}.

Definition set_lists (w : world) (ls : list (list message)) : world :=
  mk_world ls (trace w) (sessions w) (notes w).
Definition log (w : world) (e : event) : world :=
  mk_world (lists w) (trace w ++ [e]) (sessions w) (notes w).
Definition set_session (w : world) (path : string) (d : session_data) : world :=
  mk_world (lists w) (trace w) (<[path := d]> (sessions w)) (notes w).
Definition set_note (w : world) (path : string) (text : string) : world :=
  mk_world (lists w) (trace w) (sessions w) (<[path := text]> (notes w)).

(** Computations: an outcome and the world after it.  An exception keeps
    the effects made before it. *)
Definition M (A : Type) : Type := world → result A * world.

#[global] Instance M_ret : MRet M := λ A a w, (Ok a, w).
#[global] Instance M_bind : MBind M := λ A B f m w,
  match m w with
  | (Ok a, w') => f a w'
  | (Raise e, w') => (Raise e, w')
  end.

Definition raise {A} (e : exn) : M A := λ w, (Raise e, w).
Definition lift {A} (r : result A) : M A := λ w, (r, w).

(** [try: body except Exception: handler] *)
Definition try_except {A} (body : M A) (handler : exn → M A) : M A := λ w,
  match body w with
  | (Ok a, w') => (Ok a, w')
  | (Raise e, w') => handler e w'
  end.

(** A new list object holding [l]. *)
Definition new_list (l : list message) : M loc := λ w,
  (Ok (length (lists w)), set_lists w (lists w ++ [l])).

(** The value of the list object at [r]. *)
Definition read_list (r : loc) : M (list message) := λ w,
  match lists w !! r with
  | Some l => (Ok l, w)
  | None => (Raise (ValueError "no such list object"), w)
  end.

(** [r.append(x)] *)
Definition list_append (r : loc) (x : message) : M unit := λ w,
  match lists w !! r with
  | Some l => (Ok tt, set_lists w (<[r := l ++ [x]]> (lists w)))
  | None => (Raise (ValueError "no such list object"), w)
  end.

(** [for x in xs: body x] *)
Fixpoint for_each {A} (xs : list A) (body : A → M unit) : M unit :=
  match xs with
  | [] => mret tt
  | x :: xs' => _ ← body x; for_each xs' body
  end.

(** ** External capabilities and prompt templates *)

(** The JSON answer of the search service: the [references] key may be
    missing, and each reference is an object whose keys may be missing. *)
Record reference := mk_reference {
  ref_title : option string;
  ref_url : option string;
  ref_content : option string;
  ref_date : option string
}.
Record search_response := mk_search_response {
  references : option (list reference)
}.

Record capabilities := mk_capabilities {
  (* [analyzer_model_raw.with_structured_output(ExecutionPlan).invoke] *)
  planner_invoke : list event → list message → result ExecutionPlan;
  (* [model.bind_tools([search_tool]).invoke] *)
  model_with_tools_invoke : list event → list message → result ai_message;
  (* [model.invoke] *)
  model_invoke : list event → list message → result ai_message;
  (* the [ChatDeepSeek] instance created by [manage_memory] *)
  llm_invoke : list event → list message → result ai_message;
  (* [requests.post], [raise_for_status] and [response.json()] together *)
  requests_post : list event → string → result search_response;
  (* [datetime.datetime.now().isoformat()] and [strftime] with year, month, day *)
  now_isoformat : list event → string;
  now_date : list event → string
}.

(** [app/core/prompts.py]: constants, and templates applied with [format]. *)
Record prompt_table := mk_prompt_table {
  ANALYZER_SYSTEM_PROMPT : string;
  TUTOR_WORKER_PROMPT : string → string;              (* topic *)
  JUDGE_WORKER_PROMPT : string → string;              (* topic *)
  INQUIRY_WORKER_PROMPT : string → string → string;   (* topic, judge_feedback *)
  SUMMARIZER_NOTE_PROMPT : string;
  SUMMARIZER_REVIEW_PROMPT : string;
  (* tutor_output, judge_output, inquiry_output, summary_output *)
  AGGREGATOR_SYSTEM_PROMPT : string → string → string → string → string
}.

(** Python string operations and the console the code relies on. *)
Record text_ops := mk_text_ops {
  str_lower : string → string;          (* [str.lower] *)
  code_points : string → list N;        (* the characters of a [str] *)
  format_2f : Qc → string;              (* the [.2f] format of a score *)
  (* every character that is neither alphanumeric, [-] nor [_] replaced by [_] *)
  safe_topic : string → string;
  (* [str(args)] of the [args] dict of a tool call *)
  str_args : list (string * string) → string;
  (* [rich.print] of one string, imported as [rprint]: the string is parsed
     as console markup before it is written, and markup that does not
     parse (a closing tag that matches no open tag) raises [MarkupError] *)
  rich_print : string → result unit
}.

Definition call_planner (caps : capabilities) (inputs : list message) : M ExecutionPlan :=
  λ w, (planner_invoke caps (trace w) inputs, log w (CallPlanner inputs)).
Definition call_model_with_tools (caps : capabilities) (inputs : list message) : M ai_message :=
  λ w, (model_with_tools_invoke caps (trace w) inputs, log w (CallModelWithTools inputs)).
Definition call_model (caps : capabilities) (inputs : list message) : M ai_message :=
  λ w, (model_invoke caps (trace w) inputs, log w (CallModel inputs)).
Definition call_compressor (caps : capabilities) (inputs : list message) : M ai_message :=
  λ w, (llm_invoke caps (trace w) inputs, log w (CallCompressor inputs)).
Definition call_search (caps : capabilities) (query : string) : M search_response :=
  λ w, (requests_post caps (trace w) query, log w (CallSearch query)).
Definition clock_isoformat (caps : capabilities) : M string :=
  λ w, (Ok (now_isoformat caps (trace w)), w).
Definition clock_date (caps : capabilities) : M string :=
  λ w, (Ok (now_date caps (trace w)), w).

(** ** Relevance retriever and context assembler ([context.py]) *)

Definition COMPRESSION_THRESHOLD : Z := 16.
Definition KEEP_WINDOW : Z := 5.
Definition RECALL_TOP_K : Z := 2.
Definition DISPLAY_WINDOW : Z := 12.

(** [len(intersection) / len(union)].  The source divides two Python
    integers into a float; the quotient is kept exact here.  A set of
    characters has fewer than 2^21 elements, so distinct quotients round
    to distinct floats in the same order, and the float literal [0.05] is
    the float nearest to 1/20: every comparison of the source agrees with
    the exact one. *)
Definition jaccard (a b : gset N) : Qc :=
  Q2Qc (Z.of_nat (size (a ∩ b)) # Pos.of_nat (size (a ∪ b))).

Definition score_threshold : Qc := Q2Qc (5 # 100).

(** [set(text.lower())] *)
Definition tokens (py : text_ops) (text : string) : gset N :=
  list_to_set (code_points py (str_lower py text)).

(** The body of the [while] loop at index [i]: the scored pair appended
    to [scored_results] in this round, if any. *)
Definition candidate (py : text_ops) (messages searchable_history : list message)
    (query_tokens : gset N) (i : nat) : list (Qc * string) :=
  match searchable_history !! i with
  | Some (HumanMessage text) =>
      let msg_tokens := tokens py text in
      let union := query_tokens ∪ msg_tokens in
      if bool_decide (union = ∅) then []
      else
        let score := jaccard query_tokens msg_tokens in
        if bool_decide (score_threshold < score)%Qc then
          let pair_text := "User: " +:+ text in
          let pair_text :=
            if bool_decide (i + 1 < length messages)%nat then
              match searchable_history !! (i + 1)%nat with
              | Some (AIMessage a) => pair_text +:+ nl +:+ "AI: " +:+ ai_content a
              | _ => pair_text
              end
            else pair_text in
          [(score, pair_text)]
        else []
  | _ => []
  end.

(** [scored_results] when the loop ends. *)
Definition scored_results (py : text_ops) (messages searchable_history : list message)
    (query_tokens : gset N) : list (Qc * string) :=
  flat_map (candidate py messages searchable_history query_tokens)
           (seq 0 (length searchable_history)).

(** [list.sort(key=lambda x: x[0], reverse=True)]: Python's sort is
    stable, also with [reverse=True]; the result is the one of this
    insertion sort, which moves an item only past strictly greater keys. *)
Fixpoint insert_desc (x : Qc * string) (l : list (Qc * string)) : list (Qc * string) :=
  match l with
  | [] => [x]
  | y :: l' => if bool_decide (x.1 < y.1)%Qc then y :: insert_desc x l' else x :: l
  end.
Definition sort_desc (l : list (Qc * string)) : list (Qc * string) :=
  foldr insert_desc [] l.

(** [top_items]: the pairs selected for the output. *)
Definition top_items (py : text_ops) (messages : list message) (query_text : string)
    (exclude_last_n top_k : Z) : list (Qc * string) :=
  if bool_decide (query_text = EmptyString)
     || bool_decide (Z.of_nat (length messages) ≤ exclude_last_n)
  then []
  else
    let searchable_history := slice_to (- exclude_last_n) messages in
    let query_tokens := tokens py query_text in
    if bool_decide (query_tokens = ∅) then []
    else slice_to top_k (sort_desc (scored_results py messages searchable_history query_tokens)).

(** The formatted block, [enumerate(top_items, 1)]. *)
Fixpoint format_items (py : text_ops) (idx : nat) (items : list (Qc * string)) : string :=
  match items with
  | [] => EmptyString
  | (score, text) :: items' =>
      "--- 相关片段 " +:+ pretty idx +:+ " (相似度: " +:+ format_2f py score +:+ ") ---"
        +:+ nl +:+ text +:+ nl +:+ format_items py (S idx) items'
  end.

Definition retrieve_relevant_messages (py : text_ops) (messages : list message)
    (query_text : string) (exclude_last_n top_k : Z) : string :=
  format_items py 1 (top_items py messages query_text exclude_last_n top_k).

(** The list built by [build_context] from the transcript value. *)
Definition context_messages (py : text_ops) (st : AgentState) (msgs : list message)
    (system_prompt : string) : list message :=
  let final_messages := [SystemMessage system_prompt] in
  let final_messages :=
    match get_summary st with
    | Some summary =>
        if truthy (Some summary) then
          final_messages ++
            [SystemMessage ("【过往对话摘要】" +:+ nl +:+ summary +:+ nl +:+ nl
               +:+ "(请利用此摘要作为背景知识，但在回复时请聚焦于最新的对话消息。)")]
        else final_messages
    | None => final_messages
    end in
  let final_messages :=
    match last msgs with
    | Some (HumanMessage current_query) =>
        let relevant_context :=
          retrieve_relevant_messages py msgs current_query DISPLAY_WINDOW RECALL_TOP_K in
        if truthy (Some relevant_context) then
          final_messages ++
            [SystemMessage ("【相关历史对话召回】" +:+ nl
               +:+ "(系统自动从历史记录中匹配到的相关信息，辅助本次回答)" +:+ nl
               +:+ relevant_context)]
        else final_messages
    | _ => final_messages
    end in
  final_messages ++ slice_from (- DISPLAY_WINDOW) msgs.

(** [build_context] returns a list object of its own. *)
Definition build_context (py : text_ops) (st : AgentState) (system_prompt : string) : M loc :=
  msgs ← read_list (messages st);
  new_list (context_messages py st msgs system_prompt).

(** ** Memory compressor ([context.manage_memory]) *)

(** The three fixed parts of the compression prompt. *)
Definition compression_prompt_head : string := "
你是一名负责维护**Context（上下文）**的精炼记录员。
你的任务是将【新增对话交互】的认知精华，提取并融合进【当前上下文摘要】中。

这是一份**给LLM看的短期记忆索引**，不是给人看的长篇报告。必须在保持信息密度的前提下，极度克制字数。

【当前上下文摘要】:
".

Definition compression_prompt_middle : string := "

【新增对话交互】:
".

Definition compression_prompt_tail : string := "

【写作要求】
1. **体现认知递进**：通过逻辑连接词（如“基于此”、“进而”、“反之”），体现用户思维从“疑惑”到“理解”再到“深挖”的路径。
2. **极简主义**：
   - 严禁废话、寒暄和重复。
   - 用词精准，能用一句话说清的，绝不用两句。
   - 只有当新信息真正改变了认知边界时，才增加篇幅；否则请对旧信息进行合并/重写。
3. **动态融合**：将新知“揉”进旧文，而不是简单“追加”在后面。如果之前的某些细节不再重要，请果断删除。

**最终目标**：生成一段**短小精悍**的文本，完美概括我们“目前学到了哪里”以及“思维的上下文脉络”，供系统在下一轮对话中瞬间回溯状态。

【输出】
只输出更新后的上下文摘要文本。
".

Definition compression_prompt (current_summary : option string) (history_text : string) : string :=
  compression_prompt_head
    +:+ (if truthy current_summary then default EmptyString current_summary else "（尚无记录）")
    +:+ compression_prompt_middle +:+ history_text +:+ compression_prompt_tail.

(** The role-tagged rendering of the messages to compress. *)
Fixpoint history_text (msgs : list message) : string :=
  match msgs with
  | [] => EmptyString
  | msg :: msgs' =>
      (if is_human msg then "User" else "AI") +:+ ": " +:+ content msg +:+ nl
        +:+ history_text msgs'
  end.

(** Returns [(new_summary, new_cursor)]. *)
Definition manage_memory (caps : capabilities) (st : AgentState) : M (option string * Z) :=
  msgs ← read_list (messages st);
  let cursor := get_cursor st in
  let current_summary := get_summary_or_empty st in
  let total_count := Z.of_nat (length msgs) in
  let unsummarized_count := total_count - cursor in
  if bool_decide (unsummarized_count < COMPRESSION_THRESHOLD) then
    mret (current_summary, cursor)
  else
    let end_index := total_count - KEEP_WINDOW in
    if bool_decide (end_index ≤ cursor) then
      mret (current_summary, cursor)
    else
      let messages_to_compress := slice cursor end_index msgs in
      let prompt := compression_prompt current_summary (history_text messages_to_compress) in
      response ← call_compressor caps [HumanMessage prompt];
      let new_summary := ai_content response in
      mret (Some new_summary, end_index).

(** ** The search tool ([tools.py]) *)

(** [str(e)] *)
Definition str_exn (e : exn) : string :=
  match e with
  | ValidationError s | AttributeError s | KeyError s | ValueError s
  | CapabilityError s | FileNotFoundError s | MarkupError s => s
  end.

(** [sep.join(parts)] *)
Fixpoint str_join (sep : string) (parts : list string) : string :=
  match parts with
  | [] => EmptyString
  | [p] => p
  | p :: parts' => p +:+ sep +:+ str_join sep parts'
  end.

Definition format_reference (item : reference) : string :=
  let title := default "No Title" (ref_title item) in
  let url := default "No URL" (ref_url item) in
  let text := default EmptyString (ref_content item) in
  let date := default EmptyString (ref_date item) in
  "Title: " +:+ title +:+ nl +:+ "Date: " +:+ date +:+ nl
    +:+ "Source: " +:+ url +:+ nl +:+ "Content: " +:+ text +:+ nl.

(** The decorated function: the whole body is inside [try], and the
    handler turns any exception into a returned error string. *)
Definition api_baidu_search (caps : capabilities) (query : string) : M string :=
  try_except
    (data ← call_search caps query;
     match references data with
     | None | Some [] => mret "No relevant search results found."
     | Some refs => mret (str_join (nl +:+ "---" +:+ nl) (map format_reference refs))
     end)
    (λ e, mret ("Error connecting to Baidu Search: " +:+ str_exn e)).

(** [search_tool.invoke(args)]: the tool wrapper binds the [args] dict to
    the signature [(query: str)] before it calls the function. *)
Definition search_tool_invoke (caps : capabilities) (args : list (string * string)) : M string :=
  match dict_get "query" args with
  | Some query => api_baidu_search caps query
  | None => raise (ValidationError "query")
  end.

(** ** Persistence ([memory.py]) *)

Definition MEMORY_DIR : string := "memory/sessions".
Definition NOTES_DIR : string := "memory/notes".

Definition _get_session_path (sid : string) : result string :=
  if String.eqb sid EmptyString then Raise (ValueError "Session ID cannot be empty")
  else Ok (MEMORY_DIR +:+ "/" +:+ sid +:+ ".json").

Definition _get_note_path (py : text_ops) (sid : string) (topic : option string) : string :=
  let filename := sid in
  let filename :=
    if truthy topic then filename +:+ "_" +:+ safe_topic py (default EmptyString topic)
    else filename in
  NOTES_DIR +:+ "/" +:+ filename +:+ ".md".

Definition message_to_dict (m : message) : message_dict :=
  match m with
  | HumanMessage c => mk_message_dict "human" c [] None None
  | AIMessage a => mk_message_dict "ai" (ai_content a) (ai_tool_calls a) None None
  | SystemMessage c => mk_message_dict "system" c [] None None
  | ToolMessage c id n => mk_message_dict "tool" c [] (Some id) n
  end.

Definition messages_to_dict (ms : list message) : list message_dict :=
  map message_to_dict ms.

Definition message_from_dict (d : message_dict) : result message :=
  if String.eqb (md_type d) "human" then Ok (HumanMessage (md_content d))
  else if String.eqb (md_type d) "ai" then Ok (AIMessage (mk_ai (md_content d) (md_tool_calls d)))
  else if String.eqb (md_type d) "system" then Ok (SystemMessage (md_content d))
  else if String.eqb (md_type d) "tool" then
    match md_tool_call_id d with
    | Some id => Ok (ToolMessage (md_content d) id (md_name d))
    | None => Raise (ValidationError "tool_call_id")
    end
  else Raise (ValueError "Got unexpected message type").

Fixpoint messages_from_dict (ds : list message_dict) : result (list message) :=
  match ds with
  | [] => Ok []
  | d :: ds' =>
      m ← message_from_dict d;
      ms ← messages_from_dict ds';
      mret (m :: ms)
  end.

(** [file_io.save_json], [file_io.load_json], [file_io.save_text] *)
Definition save_json (data : session_data) (path : string) : M unit :=
  λ w, (Ok tt, set_session w path data).
Definition load_json (path : string) : M session_data := λ w,
  match sessions w !! path with
  | Some data => (Ok data, w)
  | None => (Raise (FileNotFoundError path), w)
  end.
Definition save_text (text : string) (path : string) : M unit :=
  λ w, (Ok tt, set_note w path text).

(** Returns the path of the session file, or the empty string when the
    state has no session id and nothing is written. *)
Definition save_session (caps : capabilities) (py : text_ops) (st : AgentState) : M string :=
  if truthy (session_id st) then
    let sid := default EmptyString (session_id st) in
    msgs ← read_list (messages st);
    let serialized_messages := messages_to_dict msgs in
    last_updated ← clock_isoformat caps;
    let session := mk_session_data sid last_updated
                     (default "General" (current_topic st))
                     (get_summary st) serialized_messages in
    json_path ← lift (_get_session_path sid);
    _ ← save_json session json_path;
    _ ← (if should_exit st && truthy (summary_output st) then
           let note_content := default EmptyString (summary_output st) in
           date ← clock_date caps;
           let header := "---" +:+ nl +:+ "source_session: " +:+ sid +:+ nl
                           +:+ "date: " +:+ date +:+ nl
                           +:+ "topic: " +:+ default "General" (current_topic st) +:+ nl
                           +:+ "---" +:+ nl +:+ nl in
           save_text (header +:+ note_content) (_get_note_path py sid (current_topic st))
         else mret tt);
    mret json_path
  else mret EmptyString.

(** The dict returned by [load_session] has the four keys [messages],
    [session_id], [current_topic] and [conversation_summary] only. *)
Definition load_session (sid : string) : M (option AgentState) :=
  json_path ← lift (_get_session_path sid);
  loaded ← try_except (data ← load_json json_path; mret (Some data))
             (λ e, match e with
                   | FileNotFoundError _ => mret None
                   | _ => raise e
                   end);
  match loaded with
  | None => mret None
  | Some data =>
      msgs ← lift (messages_from_dict (sd_messages data));
      r ← new_list msgs;
      mret (Some (mk_state r (Some (sd_topic data)) (Some (sd_session_id data))
                    (Some (sd_conversation_summary data)) None None false
                    None None None None None))
  end.

(** ** Nodes of the graph ([agent_builder.py]) *)

(** Writes to single keys of the state dict. *)
Definition set_messages (st : AgentState) (r : loc) : AgentState :=
  mk_state r (current_topic st) (session_id st) (conversation_summary st)
    (summarized_msg_count st) (plan st) (should_exit st) (tutor_output st)
    (judge_output st) (inquiry_output st) (summary_output st) (last_intent st).
Definition set_plan (st : AgentState) (p : ExecutionPlan) : AgentState :=
  mk_state (messages st) (current_topic st) (session_id st) (conversation_summary st)
    (summarized_msg_count st) (Some p) (should_exit st) (tutor_output st)
    (judge_output st) (inquiry_output st) (summary_output st) (last_intent st).
Definition set_tutor_output (st : AgentState) (o : option string) : AgentState :=
  mk_state (messages st) (current_topic st) (session_id st) (conversation_summary st)
    (summarized_msg_count st) (plan st) (should_exit st) o
    (judge_output st) (inquiry_output st) (summary_output st) (last_intent st).
Definition set_judge_output (st : AgentState) (o : option string) : AgentState :=
  mk_state (messages st) (current_topic st) (session_id st) (conversation_summary st)
    (summarized_msg_count st) (plan st) (should_exit st) (tutor_output st)
    o (inquiry_output st) (summary_output st) (last_intent st).
Definition set_inquiry_output (st : AgentState) (o : option string) : AgentState :=
  mk_state (messages st) (current_topic st) (session_id st) (conversation_summary st)
    (summarized_msg_count st) (plan st) (should_exit st) (tutor_output st)
    (judge_output st) o (summary_output st) (last_intent st).
Definition set_summary_output (st : AgentState) (o : option string) : AgentState :=
  mk_state (messages st) (current_topic st) (session_id st) (conversation_summary st)
    (summarized_msg_count st) (plan st) (should_exit st) (tutor_output st)
    (judge_output st) (inquiry_output st) o (last_intent st).
Definition set_should_exit (st : AgentState) (b : bool) : AgentState :=
  mk_state (messages st) (current_topic st) (session_id st) (conversation_summary st)
    (summarized_msg_count st) (plan st) b (tutor_output st)
    (judge_output st) (inquiry_output st) (summary_output st) (last_intent st).
Definition set_conversation_summary (st : AgentState) (o : option string) : AgentState :=
  mk_state (messages st) (current_topic st) (session_id st) (Some o)
    (summarized_msg_count st) (plan st) (should_exit st) (tutor_output st)
    (judge_output st) (inquiry_output st) (summary_output st) (last_intent st).
Definition set_summarized_msg_count (st : AgentState) (n : Z) : AgentState :=
  mk_state (messages st) (current_topic st) (session_id st) (conversation_summary st)
    (Some n) (plan st) (should_exit st) (tutor_output st)
    (judge_output st) (inquiry_output st) (summary_output st) (last_intent st).

(** The keyword arguments of the fallback plan built in the [except]
    branch of [analyzer_node]. *)
Definition fallback_kwargs : list (string * pyval) :=
  [ ("needs_tutor_answer", PyBool true);
    ("needs_judge", PyBool false);
    ("needs_inquiry", PyBool false);
    ("thought_process", PyStr "Error in planning, defaulting to simple answer.") ].

(** The [inputs] list handed to the structured decode. *)
Definition analyzer_inputs (P : prompt_table) (st : AgentState) (msgs : list message)
    : list message :=
  let recent_context := slice_from (-3) msgs in
  let sys_msg := SystemMessage (ANALYZER_SYSTEM_PROMPT P) in
  let inputs := [sys_msg] in
  let inputs :=
    if truthy (get_summary st) then
      inputs ++ [SystemMessage ("Context: " +:+ default EmptyString (get_summary st))]
    else inputs in
  inputs ++ recent_context.

Definition analyzer_node (caps : capabilities) (P : prompt_table) (st : AgentState) : M delta :=
  msgs ← read_list (messages st);
  match msgs with
  | [] => mret []
  | _ =>
      p ← try_except
            (call_planner caps (analyzer_inputs P st msgs))
            (λ e, lift (ExecutionPlan_init fallback_kwargs));
      mret [SetPlan p; SetTutorOutput None; SetJudgeOutput None;
            SetInquiryOutput None; SetSummaryOutput None]
  end.

(** The status line of a search, a console markup string around the
    query as the model wrote it. *)
Definition status_line (query_str : string) : string :=
  "[dim italic]   🔍 Searching Baidu for: [cyan]" +:+ query_str
    +:+ "[/cyan] ...[/dim italic]".

(** [args.get('query', str(args))] *)
Definition query_str (py : text_ops) (args : list (string * string)) : string :=
  default (str_args py args) (dict_get "query" args).

(** One round of the [for tool_call in response.tool_calls] loop: the
    status line is printed first, and what the console writes is not
    kept; a print that raises ends the round before the search. *)
Definition run_tool_call (caps : capabilities) (py : text_ops) (current_messages : loc)
    (response : ai_message) (tc : tool_call) : M unit :=
  if String.eqb (tc_name tc) "baidu_search" then
    let args := tc_args tc in
    _ ← lift (rich_print py (status_line (query_str py args)));
    tool_result ← search_tool_invoke caps args;
    let tool_msg := ToolMessage tool_result (tc_id tc) (Some (tc_name tc)) in
    _ ← list_append current_messages (AIMessage response);
    list_append current_messages tool_msg
  else mret tt.

Definition _run_tool_loop (caps : capabilities) (py : text_ops)
    (prompt_content : string) (st : AgentState) : M string :=
  current_messages ← build_context py st prompt_content;
  inputs ← read_list current_messages;
  response ← call_model_with_tools caps inputs;
  match ai_tool_calls response with
  | [] => mret (ai_content response)
  | _ =>
      _ ← for_each (ai_tool_calls response)
            (run_tool_call caps py current_messages response);
      inputs ← read_list current_messages;
      final_response ← call_model caps inputs;
      mret (ai_content final_response)
  end.

Definition tutor_node (caps : capabilities) (P : prompt_table) (py : text_ops)
    (st : AgentState) : M delta :=
  let topic := default "General Knowledge" (current_topic st) in
  let prompt_str := TUTOR_WORKER_PROMPT P topic in
  text ← _run_tool_loop caps py prompt_str st;
  mret [SetTutorOutput (Some text)].

Definition judge_node (caps : capabilities) (P : prompt_table) (py : text_ops)
    (st : AgentState) : M delta :=
  let topic := default "General Knowledge" (current_topic st) in
  let prompt_str := JUDGE_WORKER_PROMPT P topic in
  text ← _run_tool_loop caps py prompt_str st;
  mret [SetJudgeOutput (Some text)].

Definition inquiry_node (caps : capabilities) (P : prompt_table) (py : text_ops)
    (st : AgentState) : M delta :=
  let topic := default "General Knowledge" (current_topic st) in
  let judge_fb := or_default (judge_output st) "无" in
  let sys_msg_str := INQUIRY_WORKER_PROMPT P topic judge_fb in
  inputs ← build_context py st sys_msg_str;
  inputs ← read_list inputs;
  response ← call_model caps inputs;
  mret [SetInquiryOutput (Some (ai_content response))].

Definition summary_node (caps : capabilities) (P : prompt_table) (py : text_ops)
    (st : AgentState) : M delta :=
  match plan st with
  | Some p =>
      if is_concluding p then
        inputs ← build_context py st (SUMMARIZER_NOTE_PROMPT P);
        inputs ← read_list inputs;
        response ← call_model caps inputs;
        mret [SetSummaryOutput (Some (ai_content response)); SetShouldExit true]
      else if request_summary p then
        inputs ← build_context py st (SUMMARIZER_REVIEW_PROMPT P);
        inputs ← read_list inputs;
        response ← call_model caps inputs;
        mret [SetSummaryOutput (Some (ai_content response))]
      else mret []
  | None => mret []
  end.

Definition clarification_text : string := "我似乎没听懂你的意思，能再说具体点吗？".

(** The state handed to [memory.save_session] by the aggregator. *)
Definition state_to_save (st temp_state : AgentState) (new_summary : option string)
    (new_cursor : Z) : AgentState :=
  if bool_decide (new_summary ≠ get_summary st) then
    set_summarized_msg_count (set_conversation_summary temp_state new_summary) new_cursor
  else temp_state.

(** The line printed when the summary changed is fixed console markup
    around two integers, which always parses; what the console writes is
    not kept. *)
Definition aggregator_node (caps : capabilities) (P : prompt_table) (py : text_ops)
    (st : AgentState) : M delta :=
  let tutor_out := or_default (tutor_output st) EmptyString in
  let judge_out := or_default (judge_output st) EmptyString in
  let inquiry_out := or_default (inquiry_output st) EmptyString in
  let summary_out := or_default (summary_output st) EmptyString in
  msgs ← read_list (messages st);
  final_response ←
    (if should_exit st then mret (ai_text summary_out)
     else if forallb (λ s, String.eqb s EmptyString)
               [tutor_out; judge_out; inquiry_out; summary_out]
     then mret (ai_text clarification_text)
     else
       let prompt := AGGREGATOR_SYSTEM_PROMPT P tutor_out judge_out inquiry_out summary_out in
       let inputs := [SystemMessage prompt] in
       let inputs := match last msgs with
                     | Some m => inputs ++ [m]
                     | None => inputs
                     end in
       response ← call_model caps inputs;
       mret (AIMessage response));
  current_messages ← new_list (msgs ++ [final_response]);
  let temp_state := set_messages st current_messages in
  '(new_summary, new_cursor) ← manage_memory caps temp_state;
  let to_save := state_to_save st temp_state new_summary new_cursor in
  _ ← save_session caps py to_save;
  summary_value ← match conversation_summary to_save with
                   | Some v => mret v
                   | None => raise (KeyError "conversation_summary")
                   end;
  cursor_value ← match summarized_msg_count to_save with
                  | Some n => mret n
                  | None => raise (KeyError "summarized_msg_count")
                  end;
  mret [AddMessages [final_response];
        SetConversationSummary summary_value;
        SetSummarizedMsgCount cursor_value].

(** ** Conditional edges *)

Inductive node := Analyzer | Tutor | Judge | Inquiry | Summary | Aggregator.

Definition route_from_analyzer (st : AgentState) : node :=
  match plan st with
  | None => Aggregator
  | Some p =>
      if request_summary p || is_concluding p then Summary
      else if needs_tutor_answer p then Tutor
      else if needs_judge p then Judge
      else if needs_inquiry p then Inquiry
      else Aggregator
  end.

(** [plan.needs_judge] on a state whose [plan] is [None] is an attribute
    access on [None]. *)
Definition route_from_tutor (st : AgentState) : result node :=
  match plan st with
  | None => Raise (AttributeError "needs_judge")
  | Some p =>
      if needs_judge p then Ok Judge
      else if needs_inquiry p then Ok Inquiry
      else Ok Aggregator
  end.

Definition route_from_judge (st : AgentState) : result node :=
  match plan st with
  | None => Raise (AttributeError "needs_inquiry")
  | Some p =>
      if needs_inquiry p then Ok Inquiry
      else Ok Aggregator
  end.

Definition route_from_summary (st : AgentState) : node := Aggregator.

(** ** The compiled graph ([build_agent]) and the driving loop ([cli.py]) *)

(** Merge of one returned key into the state. *)
Definition apply_update (st : AgentState) (u : update) : M AgentState :=
  match u with
  | AddMessages ms =>
      old ← read_list (messages st);
      r ← new_list (old ++ ms);
      mret (set_messages st r)
  | SetPlan p => mret (set_plan st p)
  | SetTutorOutput o => mret (set_tutor_output st o)
  | SetJudgeOutput o => mret (set_judge_output st o)
  | SetInquiryOutput o => mret (set_inquiry_output st o)
  | SetSummaryOutput o => mret (set_summary_output st o)
  | SetShouldExit b => mret (set_should_exit st b)
  | SetConversationSummary o => mret (set_conversation_summary st o)
  | SetSummarizedMsgCount n => mret (set_summarized_msg_count st n)
  end.

Fixpoint apply_delta (st : AgentState) (d : delta) : M AgentState :=
  match d with
  | [] => mret st
  | u :: d' => st' ← apply_update st u; apply_delta st' d'
  end.

Definition run_node (f : AgentState → M delta) (st : AgentState) : M AgentState :=
  d ← f st; apply_delta st d.

Section Graph.
Context (caps : capabilities) (P : prompt_table) (py : text_ops).

(** aggregator -> END *)
Definition run_aggregator (st : AgentState) : M AgentState :=
  run_node (aggregator_node caps P py) st.

(** inquiry -> aggregator, summary -> aggregator *)
Definition run_inquiry (st : AgentState) : M AgentState :=
  st' ← run_node (inquiry_node caps P py) st; run_aggregator st'.
Definition run_summary (st : AgentState) : M AgentState :=
  st' ← run_node (summary_node caps P py) st; run_aggregator st'.

(** judge -> inquiry | aggregator *)
Definition run_judge (st : AgentState) : M AgentState :=
  st' ← run_node (judge_node caps P py) st;
  target ← lift (route_from_judge st');
  match target with
  | Inquiry => run_inquiry st'
  | Aggregator => run_aggregator st'
  | _ => raise (KeyError "no such edge")
  end.

(** tutor -> judge | inquiry | aggregator *)
Definition run_tutor (st : AgentState) : M AgentState :=
  st' ← run_node (tutor_node caps P py) st;
  target ← lift (route_from_tutor st');
  match target with
  | Judge => run_judge st'
  | Inquiry => run_inquiry st'
  | Aggregator => run_aggregator st'
  | _ => raise (KeyError "no such edge")
  end.

(** START -> analyzer -> tutor | judge | inquiry | summary | aggregator.
    No node changes the transcript in place, so the nodes may read the
    caller's list object. *)
Definition graph_invoke (st : AgentState) : M AgentState :=
  st' ← run_node (analyzer_node caps P) st;
  match route_from_analyzer st' with
  | Tutor => run_tutor st'
  | Judge => run_judge st'
  | Inquiry => run_inquiry st'
  | Summary => run_summary st'
  | Aggregator => run_aggregator st'
  | Analyzer => raise (KeyError "no such edge")
  end.

(** One turn of the driving loop: the utterance is appended in place to
    the transcript, then the graph runs. *)
Definition turn (st : AgentState) (user_input : string) : M AgentState :=
  _ ← list_append (messages st) (HumanMessage user_input);
  graph_invoke st.

(** The loop keeps the state it had when the turn raises. *)
Definition session_step (st : AgentState) (user_input : string) (w : world)
    : AgentState * world :=
  match turn st user_input w with
  | (Ok st', w') => (st', w')
  | (Raise _, w') => (st, w')
  end.

Fixpoint run_session (st : AgentState) (inputs : list string) (w : world)
    : AgentState * world :=
  match inputs with
  | [] => (st, w)
  | u :: inputs' =>
      let '(st', w') := session_step st u w in run_session st' inputs' w'
  end.
End Graph.

(** The state a session starts from in [cli.main]. *)
Definition new_session (sid : string) : M AgentState :=
  chat_history ← new_list [];
  mret (mk_state chat_history (Some "General Knowledge") (Some sid) None None None
          false None None None None None).

(** The state the simulation driver of [tests/test_simulation.py] starts from. *)
Definition simulation_session : M AgentState :=
  r ← new_list [];
  mret (mk_state r None None (Some (Some EmptyString)) (Some 0) None
          false None None None None None).

(** States a session can be in between two turns: a fresh session, the
    simulation's start, a session loaded from the store, and any of them
    after one more turn. *)
Inductive reachable (caps : capabilities) (P : prompt_table) (py : text_ops)
    : AgentState → world → Prop :=
| reach_new sid w st w' :
    new_session sid w = (Ok st, w') → reachable caps P py st w'
| reach_simulation w st w' :
    simulation_session w = (Ok st, w') → reachable caps P py st w'
| reach_load sid w st w' :
    load_session sid w = (Ok (Some st), w') → reachable caps P py st w'
| reach_turn st w user_input st' w' :
    reachable caps P py st w →
    session_step caps P py st user_input w = (st', w') →
    reachable caps P py st' w'.

(** ** Decision points of the graph *)

(** The three nodes left through a conditional edge. *)
Inductive decision := FromPlanning | FromTutoring | FromJudging.

(** The router of each conditional edge ([add_conditional_edges]). *)
Definition router (d : decision) (st : AgentState) : result node :=
  match d with
  | FromPlanning => Ok (route_from_analyzer st)
  | FromTutoring => route_from_tutor st
  | FromJudging => route_from_judge st
  end.

(** The states a router is evaluated on in a run of the compiled graph:
    the state after the planner, from any start; the state after the
    tutor, which runs only when the router after the planner chose it;
    and the state after the judge, which runs only when the router after
    the planner or the router after the tutor chose it. *)
Inductive at_decision (caps : capabilities) (P : prompt_table) (py : text_ops)
    : decision → AgentState → Prop :=
| at_planning st w st' w' :
    run_node (analyzer_node caps P) st w = (Ok st', w') →
    at_decision caps P py FromPlanning st'
| at_tutoring st w st' w' :
    at_decision caps P py FromPlanning st →
    route_from_analyzer st = Tutor →
    run_node (tutor_node caps P py) st w = (Ok st', w') →
    at_decision caps P py FromTutoring st'
| at_judging st w st' w' :
    at_decision caps P py FromPlanning st →
    route_from_analyzer st = Judge →
    run_node (judge_node caps P py) st w = (Ok st', w') →
    at_decision caps P py FromJudging st'
| at_judging_after_tutoring st w st' w' :
    at_decision caps P py FromTutoring st →
    route_from_tutor st = Ok Judge →
    run_node (judge_node caps P py) st w = (Ok st', w') →
    at_decision caps P py FromJudging st'.

(** ** The router as the specification words it *)

(** Transition rule 1 of the router, in its own words: summarizing if
    [request_summary] or [is_concluding], else tutoring if
    [needs_tutor_answer], else judging if [needs_judge], else inquiring
    if [needs_inquiry], else aggregating. *)
Inductive planning_rule (p : ExecutionPlan) : node → Prop :=
| rule_summarizing :
    request_summary p = true ∨ is_concluding p = true →
    planning_rule p Summary
| rule_tutoring :
    request_summary p = false → is_concluding p = false →
    needs_tutor_answer p = true →
    planning_rule p Tutor
| rule_judging :
    request_summary p = false → is_concluding p = false →
    needs_tutor_answer p = false → needs_judge p = true →
    planning_rule p Judge
| rule_inquiring :
    request_summary p = false → is_concluding p = false →
    needs_tutor_answer p = false → needs_judge p = false →
    needs_inquiry p = true →
    planning_rule p Inquiry
| rule_aggregating :
    request_summary p = false → is_concluding p = false →
    needs_tutor_answer p = false → needs_judge p = false →
    needs_inquiry p = false →
    planning_rule p Aggregator.

(** ** Observations on the log *)


(** The events logged between two worlds. *)
Definition new_events (w w' : world) : list event :=
  drop (length (trace w)) (trace w').

(** The string [api_baidu_search] returns for an outcome of the HTTP request. *)
Definition search_result (r : result search_response) : string :=
  match r with
  | Ok data =>
      match references data with
      | None | Some [] => "No relevant search results found."
      | Some refs => str_join (nl +:+ "---" +:+ nl) (map format_reference refs)
      end
  | Raise e => "Error connecting to Baidu Search: " +:+ str_exn e
  end.

(** The tool calls the loop of [_run_tool_loop] acts on. *)
Definition is_search_call (tc : tool_call) : bool := String.eqb (tc_name tc) "baidu_search".

(** The queries of the tool calls the loop acts on, in request order. *)
Definition executed_queries (tcs : list tool_call) : list string :=
  omap (λ tc, if is_search_call tc then dict_get "query" (tc_args tc) else None) tcs.

(** A tool call the search tool's signature accepts. *)
Definition well_formed_call (tc : tool_call) : Prop :=
  is_search_call tc = true → is_Some (dict_get "query" (tc_args tc)).

(** A tool call whose status line the console prints. *)
Definition displayed (py : text_ops) (tc : tool_call) : Prop :=
  is_search_call tc = true →
  rich_print py (status_line (query_str py (tc_args tc))) = Ok tt.

(** A search call the loop cannot carry out: the console refuses its
    status line, or it has no query. *)
Definition rejected (py : text_ops) (tc : tool_call) : Prop :=
  is_search_call tc = true ∧
  (rich_print py (status_line (query_str py (tc_args tc))) ≠ Ok tt ∨
   dict_get "query" (tc_args tc) = None).

(** The results of the searches for [qs], sent one after the other from
    the log [tr]. *)
Fixpoint search_results (caps : capabilities) (tr : list event) (qs : list string)
    : list string :=
  match qs with
  | [] => []
  | q :: qs' =>
      search_result (requests_post caps tr q)
        :: search_results caps (tr ++ [CallSearch q]) qs'
  end.

(** The effect of the [for tool_call in response.tool_calls] loop as a
    function of the log [tr] it starts from: its outcome, the queries it
    sends and the messages it appends to [current_messages]. *)
Fixpoint tool_round (caps : capabilities) (py : text_ops) (response : ai_message)
    (tcs : list tool_call) (tr : list event)
    : result unit * list string * list message :=
  match tcs with
  | [] => (Ok tt, [], [])
  | tc :: tcs' =>
      if is_search_call tc then
        match rich_print py (status_line (query_str py (tc_args tc))) with
        | Ok _ =>
            match dict_get "query" (tc_args tc) with
            | Some q =>
                let tool_result := search_result (requests_post caps tr q) in
                let '(r, qs, ms) :=
                  tool_round caps py response tcs' (tr ++ [CallSearch q]) in
                (r, q :: qs,
                 AIMessage response
                   :: ToolMessage tool_result (tc_id tc) (Some (tc_name tc)) :: ms)
            | None => (Raise (ValidationError "query"), [], [])
            end
        | Raise e => (Raise e, [], [])
        end
      else tool_round caps py response tcs' tr
  end.

(** The messages the loop appends for the executed calls [tcs] and their
    results: the response, then the tool message, once per call. *)
Definition tool_exchange (response : ai_message) (tcs : list tool_call)
    (results : list string) : list message :=
  flat_map (λ p : tool_call * string,
              [AIMessage response; ToolMessage p.2 (tc_id p.1) (Some (tc_name p.1))])
           (zip tcs results).

(** [.content] of an answer that may have failed. *)
Definition content_of (r : result ai_message) : result string :=
  match r with
  | Ok m => Ok (ai_content m)
  | Raise e => Raise e
  end.

(** ** Notions for the session invariant *)

(** A computation that leaves every existing list object as it was; it
    may create new ones. *)
Definition growing {A} (m : M A) : Prop :=
  ∀ w, lists w `prefix_of` lists (m w).2.

(** A computation whose returned value, when it returns, satisfies [Q]. *)
Definition returns {A} (Q : A → Prop) (m : M A) : Prop :=
  ∀ w a w', m w = (Ok a, w') → Q a.

(** An update that touches neither the transcript, the summary nor the cursor. *)
Definition quiet_update (u : update) : Prop :=
  match u with
  | AddMessages _ | SetConversationSummary _ | SetSummarizedMsgCount _ => False
  | _ => True
  end.
Definition quiet_delta (d : delta) : Prop := Forall quiet_update d.

Definition same_memory (st st' : AgentState) : Prop :=
  messages st' = messages st ∧
  summarized_msg_count st' = summarized_msg_count st ∧
  conversation_summary st' = conversation_summary st.

(** The cursor lies within the transcript. *)
Definition session_inv (st : AgentState) (w : world) : Prop :=
  ∃ msgs, lists w !! messages st = Some msgs ∧
          0 ≤ get_cursor st ≤ Z.of_nat (length msgs).

(** A part of the graph that keeps the invariant and never moves the
    cursor back, whether it returns or raises. *)
Definition keeps_session (k : AgentState → M AgentState) : Prop :=
  ∀ st w r w',
    session_inv st w → k st w = (r, w') →
    lists w `prefix_of` lists w' ∧
    ∀ st', r = Ok st' → session_inv st' w' ∧ get_cursor st ≤ get_cursor st'.

(** ** Sample parameters *)

(** Text operations on ASCII text; a score is printed as a fraction. *)
Definition ascii_lower (c : ascii) : ascii :=
  let n := nat_of_ascii c in
  if ((65 <=? n) && (n <=? 90))%nat then ascii_of_nat (n + 32) else c.
Fixpoint map_string (f : ascii → ascii) (s : string) : string :=
  match s with
  | EmptyString => EmptyString
  | String c s' => String (f c) (map_string f s')
  end.

(** [str] of a dict of strings none of which needs an escape. *)
Definition plain_str_args (args : list (string * string)) : string :=
  "{" +:+ str_join ", "
            (map (λ kv : string * string, "'" +:+ kv.1 +:+ "': '" +:+ kv.2 +:+ "'") args)
      +:+ "}".

(** The closing tags of a markup string. *)
Fixpoint closing_tags (s : string) : nat :=
  match s with
  | EmptyString => O
  | String c s' =>
      match s' with
      | String d _ =>
          if (Ascii.eqb c "["%char && Ascii.eqb d "/"%char)%bool
          then S (closing_tags s') else closing_tags s'
      | EmptyString => O
      end
  end.

(** A sample console for status lines.  It prints a status line whose
    query brings no closing tag, as [rich] does for a query without a
    bracket, and refuses one whose query brings a closing tag of its
    own, as [rich] does when that tag matches no open tag: the status
    line has two closing tags itself. *)
Definition status_console (s : string) : result unit :=
  if (2 <? closing_tags s)%nat
  then Raise (MarkupError "closing tag doesn't match any open tag")
  else Ok tt.

Definition ascii_text_ops : text_ops :=
  mk_text_ops (map_string ascii_lower)
              (λ s, map N_of_ascii (list_ascii_of_string s))
              (λ q, pretty (Qnum q) +:+ "/" +:+ pretty (Zpos (Qden q)))
              (λ s, s)
              plain_str_args status_console.

Definition sample_prompts : prompt_table :=
  mk_prompt_table "plan the turn"
    (λ topic, "tutor: " +:+ topic) (λ topic, "judge: " +:+ topic)
    (λ topic fb, "inquire: " +:+ topic +:+ " / " +:+ fb)
    "closing note" "review"
    (λ t j i s, "merge: " +:+ t +:+ j +:+ i +:+ s).

(** Capabilities that answer the same way at every call. *)
Definition constant_caps (planned : result ExecutionPlan) (first : result ai_message)
    (reply : result ai_message) (compressed : result ai_message)
    (found : result search_response) : capabilities :=
  mk_capabilities (λ _ _, planned) (λ _ _, first) (λ _ _, reply) (λ _ _, compressed)
    (λ _ _, found) (λ _, "2025-01-01T00:00:00") (λ _, "2025-01-01").

Definition empty_world : world := mk_world [] [] ∅ ∅.

(** The state of a new session whose transcript is the list object 0. *)
Definition fresh_state : AgentState :=
  mk_state 0%nat (Some "General Knowledge") (Some "s1") None None None
    false None None None None None.

(** A world holding a transcript of one question. *)
Definition one_question_world : world :=
  mk_world [[HumanMessage "what is a decision tree?"]] [] ∅ ∅.

(** Capabilities whose structured decode fails. *)
Definition failing_decode_caps : capabilities :=
  constant_caps (Raise (CapabilityError "malformed plan")) (Ok (mk_ai "hi" []))
    (Ok (mk_ai "hi" [])) (Ok (mk_ai "summary" [])) (Ok (mk_search_response None)).

(** A state between planning and tutoring that carries no plan. *)
Definition planless_state : AgentState :=
  mk_state 0%nat (Some "General Knowledge") (Some "s1") None None None
    false (Some "an answer") None None None None.

(** Sixteen messages, eight question and answer pairs. *)
Definition sixteen_messages : list message :=
  flat_map (λ _ : nat, [HumanMessage "why?"; ai_text "because"]) (seq 0 8).

Definition sixteen_world : world := mk_world [sixteen_messages] [] ∅ ∅.

(** Fifteen messages ending with a question, and a state whose stored
    summary is the text the sample compressor answers with. *)
Definition fifteen_messages : list message :=
  flat_map (λ _ : nat, [HumanMessage "why?"; ai_text "because"]) (seq 0 7)
    ++ [HumanMessage "why?"].

Definition fifteen_world : world := mk_world [fifteen_messages] [] ∅ ∅.

(** Capabilities whose compressor answers with a fixed summary. *)
Definition summarizing_caps : capabilities :=
  constant_caps (Ok (mk_plan true false false false false "answer"))
    (Ok (mk_ai "an answer" [])) (Ok (mk_ai "a reply" []))
    (Ok (mk_ai "they asked why, eight times" [])) (Ok (mk_search_response None)).

Definition summarized_state : AgentState :=
  mk_state 0%nat (Some "General Knowledge") (Some "s1")
    (Some (Some "they asked why, eight times")) (Some 0) None
    false (Some "an answer") None None None None.

(** A state whose first eleven messages are covered by the summary. *)
Definition compressed_state : AgentState :=
  mk_state 0%nat (Some "General Knowledge") (Some "s1")
    (Some (Some "they asked why, eight times")) (Some 11) None
    false None None None None None.

(** A first answer that asks for one search, with a search service that
    times out. *)
Definition search_request : ai_message :=
  mk_ai EmptyString [mk_tool_call "baidu_search" [("query", "random forest")] "call_1"].

Definition searching_caps : capabilities :=
  constant_caps (Ok (mk_plan true false false false false "answer"))
    (Ok search_request) (Ok (mk_ai "a reply" []))
    (Ok (mk_ai "a summary" [])) (Raise (CapabilityError "timeout")).

(** A first answer that asks for a tool the loop does not know. *)
Definition calculator_request : ai_message :=
  mk_ai EmptyString [mk_tool_call "calculator" [("expression", "2+2")] "call_1"].

Definition calculator_caps : capabilities :=
  constant_caps (Ok (mk_plan true false false false false "answer"))
    (Ok calculator_request) (Ok (mk_ai "a reply" []))
    (Ok (mk_ai "a summary" [])) (Ok (mk_search_response None)).



(** A first answer that asks for a search whose query has a closing tag. *)
Definition markup_request : ai_message :=
  mk_ai EmptyString
    [mk_tool_call "baidu_search" [("query", "what does arr[/i] mean")] "call_1"].

Definition markup_caps : capabilities :=
  constant_caps (Ok (mk_plan true false false false false "answer"))
    (Ok markup_request) (Ok (mk_ai "a reply" []))
    (Ok (mk_ai "a summary" [])) (Ok (mk_search_response None)).

(** A transcript with three old questions, two of which are equally close
    to the query, followed by twelve recent messages. *)
Definition recall_messages : list message :=
  [HumanMessage "abc"; ai_text "one";
   HumanMessage "abd"; ai_text "two";
   HumanMessage "ABCD"; ai_text "three";
   HumanMessage "xyz"]
  ++ replicate 12 (ai_text "recent").

(** ** Further notions: retrieval and context *)

(** [isinstance(msg, SystemMessage)] *)
Definition is_system (m : message) : bool :=
  match m with SystemMessage _ => true | _ => false end.

(** The text of a retrieved pair anchored at the user message [text],
    alone or followed by the assistant's answer [a]. *)
Definition pair_text_of (text : string) (answer : option ai_message) : string :=
  match answer with
  | Some a => ("User: " +:+ text) +:+ nl +:+ "AI: " +:+ ai_content a
  | None => "User: " +:+ text
  end.

(** The summary entry of the assembled context, if any. *)
Definition summary_entry (st : AgentState) : list message :=
  match get_summary st with
  | Some summary =>
      if truthy (Some summary) then
        [SystemMessage ("【过往对话摘要】" +:+ nl +:+ summary +:+ nl +:+ nl
           +:+ "(请利用此摘要作为背景知识，但在回复时请聚焦于最新的对话消息。)")]
      else []
  | None => []
  end.

(** The recall entry of the assembled context, if any. *)
Definition recall_entry (py : text_ops) (msgs : list message) : list message :=
  match last msgs with
  | Some (HumanMessage current_query) =>
      if truthy (Some (retrieve_relevant_messages py msgs current_query
                         DISPLAY_WINDOW RECALL_TOP_K))
      then [SystemMessage ("【相关历史对话召回】" +:+ nl
              +:+ "(系统自动从历史记录中匹配到的相关信息，辅助本次回答)" +:+ nl
              +:+ retrieve_relevant_messages py msgs current_query
                    DISPLAY_WINDOW RECALL_TOP_K)]
      else []
  | _ => []
  end.

(** ** Further notions: the session store *)

(** The file a session id is stored in. *)
Definition session_file (sid : string) : string :=
  MEMORY_DIR +:+ "/" +:+ sid +:+ ".json".

(** The metadata header of a note. *)
Definition note_header (sid date topic : string) : string :=
  "---" +:+ nl +:+ "source_session: " +:+ sid +:+ nl
    +:+ "date: " +:+ date +:+ nl
    +:+ "topic: " +:+ topic +:+ nl
    +:+ "---" +:+ nl +:+ nl.


(** A session file whose second message has a class tag no message class has. *)
Definition corrupt_session : session_data :=
  mk_session_data "s9" "2025-01-01T00:00:00" "General" None
    [mk_message_dict "human" "hello" [] None None;
     mk_message_dict "robot" "beep" [] None None].

(** ** Further notions: one turn of the graph *)

(** The reply computed by the aggregator before it compresses and saves:
    the expression bound to [final_response] in [aggregator_node]. *)
Definition aggregator_reply (caps : capabilities) (P : prompt_table) (st : AgentState)
    (msgs : list message) : M message :=
  let tutor_out := or_default (tutor_output st) EmptyString in
  let judge_out := or_default (judge_output st) EmptyString in
  let inquiry_out := or_default (inquiry_output st) EmptyString in
  let summary_out := or_default (summary_output st) EmptyString in
  if should_exit st then mret (ai_text summary_out)
  else if forallb (λ s, String.eqb s EmptyString)
            [tutor_out; judge_out; inquiry_out; summary_out]
  then mret (ai_text clarification_text)
  else
    let prompt := AGGREGATOR_SYSTEM_PROMPT P tutor_out judge_out inquiry_out summary_out in
    let inputs := [SystemMessage prompt] in
    let inputs := match last msgs with
                  | Some m => inputs ++ [m]
                  | None => inputs
                  end in
    response ← call_model caps inputs;
    mret (AIMessage response).

(** The state after the planner's update: the plan set, the four scratch
    outputs cleared, everything else as it was. *)
Definition planned_state (st : AgentState) (p : ExecutionPlan) : AgentState :=
  mk_state (messages st) (current_topic st) (session_id st) (conversation_summary st)
    (summarized_msg_count st) (Some p) (should_exit st) None None None None
    (last_intent st).

(** The plan asks for the summary worker. *)
Definition summarizing (p : ExecutionPlan) : bool :=
  request_summary p || is_concluding p.

(** [not any([tutor_out, judge_out, inquiry_out, summary_out])] *)
Definition all_outputs_empty (st : AgentState) : bool :=
  forallb (λ s, String.eqb s EmptyString)
    [or_default (tutor_output st) EmptyString; or_default (judge_output st) EmptyString;
     or_default (inquiry_output st) EmptyString; or_default (summary_output st) EmptyString].

(** The list handed to the synthesis call of the aggregator. *)
Definition aggregator_inputs (P : prompt_table) (st : AgentState) (msgs : list message)
    : list message :=
  SystemMessage
    (AGGREGATOR_SYSTEM_PROMPT P
       (or_default (tutor_output st) EmptyString) (or_default (judge_output st) EmptyString)
       (or_default (inquiry_output st) EmptyString)
       (or_default (summary_output st) EmptyString))
    :: match last msgs with
       | Some m => [m]
       | None => []
       end.

(** A scratch key holds a text: the worker that writes it has run. *)
Definition has_output (o : option string) : bool :=
  match o with Some _ => true | None => false end.

(** The walk of the compiled graph from a worker node to the aggregator,
    as a relation between the state on entering the node and the state
    handed to the aggregator: each worker writes its own key, and the
    conditional edges of [build_agent] choose the next node. *)
Inductive cascade : node → AgentState → AgentState → Prop :=
| cascade_aggregator s :
    cascade Aggregator s s
| cascade_inquiry s text :
    cascade Inquiry s (set_inquiry_output s (Some text))
| cascade_summary_note s p text :
    plan s = Some p → is_concluding p = true →
    cascade Summary s (set_should_exit (set_summary_output s (Some text)) true)
| cascade_summary_review s p text :
    plan s = Some p → is_concluding p = false → request_summary p = true →
    cascade Summary s (set_summary_output s (Some text))
| cascade_summary_idle s :
    (∀ p, plan s = Some p → is_concluding p = false ∧ request_summary p = false) →
    cascade Summary s s
| cascade_judge s text n s' :
    route_from_judge (set_judge_output s (Some text)) = Ok n →
    cascade n (set_judge_output s (Some text)) s' →
    cascade Judge s s'
| cascade_tutor s text n s' :
    route_from_tutor (set_tutor_output s (Some text)) = Ok n →
    cascade n (set_tutor_output s (Some text)) s' →
    cascade Tutor s s'.

(** A plan that asks for an answer, a review of it and a follow-up question. *)
Definition full_plan : ExecutionPlan := mk_plan true true true false false "all three".

(** Capabilities whose planner answers with [full_plan]. *)
Definition cascading_caps : capabilities :=
  constant_caps (Ok full_plan) (Ok (mk_ai "an answer" [])) (Ok (mk_ai "a reply" []))
    (Ok (mk_ai "a summary" [])) (Ok (mk_search_response None)).

(** A plan that ends the session. *)
Definition concluding_plan : ExecutionPlan := mk_plan true true false false true "goodbye".

Definition concluding_caps : capabilities :=
  constant_caps (Ok concluding_plan) (Ok (mk_ai "an answer" [])) (Ok (mk_ai "the note" []))
    (Ok (mk_ai "a summary" [])) (Ok (mk_search_response None)).

(** A plan with no flag set. *)
Definition idle_plan : ExecutionPlan := mk_plan false false false false false "nothing to do".

Definition idle_caps : capabilities :=
  constant_caps (Ok idle_plan) (Ok (mk_ai "an answer" [])) (Ok (mk_ai "a reply" []))
    (Ok (mk_ai "a summary" [])) (Ok (mk_search_response None)).

(** ** Further notions: the driving loop ([cli.py]) *)

(** The backwards scan of [cli.main] for the last user message: the
    index of the last [HumanMessage] among the first [i] messages, or
    [-1] when there is none. *)
Fixpoint last_human_idx (msgs : list message) (i : nat) : Z :=
  match i with
  | O => -1
  | S j =>
      match msgs !! j with
      | Some m => if is_human m then Z.of_nat j else last_human_idx msgs j
      | None => last_human_idx msgs j
      end
  end.


(** A session file of two messages with a stored summary, and a store
    that holds it. *)
Definition stored_session : session_data :=
  mk_session_data "s1" "2025-01-01T00:00:00" "Trees" (Some "so far")
    [mk_message_dict "human" "hello" [] None None;
     mk_message_dict "ai" "hi" [] None None].

Definition stored_world : world :=
  set_session empty_world (session_file "s1") stored_session.

(** The state [load_session] gives for that file in that store. *)
Definition resumed_state : AgentState :=
  mk_state 0%nat (Some "Trees") (Some "s1") (Some (Some "so far")) None None
    false None None None None None.

(** * Properties *)

(** ** The monad *)

Lemma bind_Ok {A B} (m : M A) (k : A → M B) w a w1 :
  m w = (Ok a, w1) → (m ≫= k) w = k a w1.
Proof. intros H. unfold mbind, M_bind. by rewrite H. Qed.

Lemma bind_Raise {A B} (m : M A) (k : A → M B) w e w1 :
  m w = (Raise e, w1) → (m ≫= k) w = (Raise e, w1).
Proof. intros H. unfold mbind, M_bind. by rewrite H. Qed.

Lemma bind_inv {A B} (m : M A) (k : A → M B) w r w' :
  (m ≫= k) w = (r, w') →
  (∃ a w1, m w = (Ok a, w1) ∧ k a w1 = (r, w')) ∨
  (∃ e, m w = (Raise e, w') ∧ r = Raise e).
Proof.
  unfold mbind, M_bind. destruct (m w) as [[a|e] w1]; intros H.
  - left. eauto.
  - right. exists e. by inversion H.
Qed.

Lemma read_list_Some r l w :
  lists w !! r = Some l → read_list r w = (Ok l, w).
Proof. intros H. unfold read_list. by rewrite H. Qed.

Lemma read_list_inv r w res w' :
  read_list r w = (res, w') →
  w' = w ∧ (∀ l, res = Ok l → lists w !! r = Some l).
Proof.
  unfold read_list. destruct (lists w !! r) eqn:E; intros H; inversion H; subst.
  - split; [done|]. intros l0 Hl. by inversion Hl.
  - split; [done|]. intros l0 Hl. discriminate.
Qed.

(** ** Planner: the fallback plan *)

Example fallback_plan_rejected :
  ExecutionPlan_init fallback_kwargs = Raise (ValidationError "request_summary").
Proof. reflexivity. Qed.

(** C1.  When the transcript is not empty and the structured decode of
    the planner raises, [analyzer_node] enters its fallback branch, and
    the fallback plan it builds there leaves out the required fields
    [request_summary] and [is_concluding]: the constructor raises a
    validation error, which leaves the node as an exception instead of
    the safe default plan. *)
Theorem analyzer_fallback_raises (caps : capabilities) (P : prompt_table)
    (st : AgentState) (w : world) (msgs : list message) (e : exn) :
  lists w !! messages st = Some msgs →
  msgs ≠ [] →
  planner_invoke caps (trace w) (analyzer_inputs P st msgs) = Raise e →
  analyzer_node caps P st w
    = (Raise (ValidationError "request_summary"),
       log w (CallPlanner (analyzer_inputs P st msgs))).
Proof.
  intros Hm Hne Hp. unfold analyzer_node.
  rewrite (bind_Ok _ _ _ _ _ (read_list_Some _ _ _ Hm)).
  destruct msgs as [|m ms]; [done|].
  unfold mbind, M_bind, try_except, call_planner. rewrite Hp. reflexivity.
Qed.

Lemma analyzer_fallback_raises_witness :
  analyzer_node failing_decode_caps sample_prompts fresh_state one_question_world
    = (Raise (ValidationError "request_summary"),
       log one_question_world
         (CallPlanner (analyzer_inputs sample_prompts fresh_state
                         [HumanMessage "what is a decision tree?"]))).
Proof.
  apply (analyzer_fallback_raises failing_decode_caps sample_prompts fresh_state
           one_question_world [HumanMessage "what is a decision tree?"]
           (CapabilityError "malformed plan")).
  - reflexivity.
  - discriminate.
  - reflexivity.
Defined.

(** ** Router *)

(** The three routers called by hand on a state without a plan: only
    the one after planning has a guard; the two others read an attribute
    of the missing plan.  No run of the graph evaluates them on such a
    state (see [at_decision_plan] below). *)
Example routers_by_hand (st : AgentState) :
  plan st = None →
  route_from_analyzer st = Aggregator ∧
  route_from_tutor st = Raise (AttributeError "needs_judge") ∧
  route_from_judge st = Raise (AttributeError "needs_inquiry").
Proof.
  intros H. unfold route_from_analyzer, route_from_tutor, route_from_judge.
  by rewrite H.
Qed.

Lemma planning_rule_functional (p : ExecutionPlan) (n1 n2 : node) :
  planning_rule p n1 → planning_rule p n2 → n1 = n2.
Proof.
  intros H1 H2.
  destruct H1; destruct H2; try reflexivity;
    repeat match goal with H : _ ∨ _ |- _ => destruct H end; congruence.
Qed.

Lemma route_from_analyzer_rule (st : AgentState) (p : ExecutionPlan) :
  plan st = Some p → planning_rule p (route_from_analyzer st).
Proof.
  intros H. unfold route_from_analyzer. rewrite H.
  destruct (request_summary p) eqn:Hs; simpl.
  { apply rule_summarizing. by left. }
  destruct (is_concluding p) eqn:Hc; simpl.
  { apply rule_summarizing. by right. }
  destruct (needs_tutor_answer p) eqn:Ht.
  { by apply rule_tutoring. }
  destruct (needs_judge p) eqn:Hj.
  { by apply rule_judging. }
  destruct (needs_inquiry p) eqn:Hi.
  { by apply rule_inquiring. }
  by apply rule_aggregating.
Qed.

(** C6.  With a plan present at the planning state, the router's choice
    is the one the precedence rule names (summarizing if
    [request_summary] or [is_concluding], else tutoring, else judging,
    else inquiring, else aggregating), the rule names no other, and two
    states with the same plan get the same choice. *)
Theorem route_from_analyzer_precedence (st : AgentState) (p : ExecutionPlan) :
  plan st = Some p →
  planning_rule p (route_from_analyzer st) ∧
  (∀ n, planning_rule p n → n = route_from_analyzer st) ∧
  (∀ st', plan st' = plan st → route_from_analyzer st' = route_from_analyzer st).
Proof.
  intros H. split; [by apply route_from_analyzer_rule|]. split.
  - intros n Hn. eapply planning_rule_functional; [exact Hn|].
    by apply route_from_analyzer_rule.
  - intros st' Hst'. unfold route_from_analyzer. by rewrite Hst'.
Qed.

(** A plan with every flag but [is_concluding] set goes to the summary worker. *)
Example summary_overrides :
  route_from_analyzer (set_plan planless_state (mk_plan true true true true false "recap"))
  = Summary.
Proof. reflexivity. Qed.

Lemma route_from_analyzer_precedence_witness :
  planning_rule (mk_plan true true true true false "recap")
    (route_from_analyzer (set_plan planless_state (mk_plan true true true true false "recap"))) ∧
  (∀ n, planning_rule (mk_plan true true true true false "recap") n →
        n = route_from_analyzer (set_plan planless_state (mk_plan true true true true false "recap"))) ∧
  (∀ st', plan st' = plan (set_plan planless_state (mk_plan true true true true false "recap")) →
          route_from_analyzer st'
          = route_from_analyzer (set_plan planless_state (mk_plan true true true true false "recap"))).
Proof.
  apply (route_from_analyzer_precedence
           (set_plan planless_state (mk_plan true true true true false "recap"))
           (mk_plan true true true true false "recap")).
  reflexivity.
Defined.

(** ** Memory compressor *)

Lemma length_slice_from {A} (a : Z) (l : list A) :
  0 ≤ a ≤ Z.of_nat (length l) →
  length (slice_from a l) = (length l - Z.to_nat a)%nat.
Proof.
  intros H. unfold slice_from, clamp_index. rewrite length_drop.
  destruct (a <? 0) eqn:E; [apply Z.ltb_lt in E; lia|].
  f_equal. lia.
Qed.

Lemma length_slice {A} (a b : Z) (l : list A) :
  0 ≤ a → a ≤ b → b ≤ Z.of_nat (length l) →
  Z.of_nat (length (slice a b l)) = b - a.
Proof.
  intros Ha Hab Hb. unfold slice, clamp_index.
  destruct (a <? 0) eqn:Ea; [apply Z.ltb_lt in Ea; lia|].
  destruct (b <? 0) eqn:Eb; [apply Z.ltb_lt in Eb; lia|].
  rewrite length_take, length_drop. lia.
Qed.

Lemma manage_memory_idle (caps : capabilities) (st : AgentState) (w : world)
    (msgs : list message) :
  lists w !! messages st = Some msgs →
  Z.of_nat (length msgs) - get_cursor st < COMPRESSION_THRESHOLD →
  manage_memory caps st w = (Ok (get_summary_or_empty st, get_cursor st), w).
Proof.
  intros Hm Hlt. unfold manage_memory.
  rewrite (bind_Ok _ _ _ _ _ (read_list_Some _ _ _ Hm)).
  by rewrite bool_decide_eq_true_2.
Qed.

Lemma manage_memory_fires (caps : capabilities) (st : AgentState) (w : world)
    (msgs : list message) :
  lists w !! messages st = Some msgs →
  COMPRESSION_THRESHOLD ≤ Z.of_nat (length msgs) - get_cursor st →
  let prompt :=
    compression_prompt (get_summary_or_empty st)
      (history_text (slice (get_cursor st) (Z.of_nat (length msgs) - KEEP_WINDOW) msgs)) in
  manage_memory caps st w
  = (match llm_invoke caps (trace w) [HumanMessage prompt] with
     | Ok response => Ok (Some (ai_content response), Z.of_nat (length msgs) - KEEP_WINDOW)
     | Raise e => Raise e
     end,
     log w (CallCompressor [HumanMessage prompt])).
Proof.
  intros Hm Hge prompt. unfold manage_memory.
  rewrite (bind_Ok _ _ _ _ _ (read_list_Some _ _ _ Hm)).
  unfold COMPRESSION_THRESHOLD, KEEP_WINDOW in *.
  rewrite bool_decide_eq_false_2 by lia.
  rewrite bool_decide_eq_false_2 by lia.
  unfold mbind, M_bind, call_compressor. fold prompt.
  by destruct (llm_invoke caps (trace w) [HumanMessage prompt]).
Qed.

Lemma new_events_refl (w : world) : new_events w w = [].
Proof. unfold new_events. by rewrite drop_all. Qed.

Lemma new_events_log (w : world) (e : event) : new_events w (log w e) = [e].
Proof. unfold new_events. simpl. by rewrite drop_app_length. Qed.

(** C5.  On a state whose transcript is [msgs], the compressor calls its
    model if and only if [len(msgs) - cursor >= 16].  When it does, the
    call is made on the range [cursor, len(msgs) - 5), the cursor
    returned with the model's answer is [len(msgs) - 5], and for a
    cursor that is not negative exactly [min(5, len(msgs))] trailing
    messages stay outside the summary.  When it does not, or when the
    range is empty or inverted, the summary and the cursor come back as
    they were read and the world is unchanged. *)
Theorem manage_memory_trigger (caps : capabilities) (st : AgentState) (w : world)
    (msgs : list message) :
  lists w !! messages st = Some msgs →
  let len := Z.of_nat (length msgs) in
  let cursor := get_cursor st in
  let prompt :=
    compression_prompt (get_summary_or_empty st)
      (history_text (slice cursor (len - KEEP_WINDOW) msgs)) in
  ((∃ inputs, new_events w (manage_memory caps st w).2 = [CallCompressor inputs])
     ↔ COMPRESSION_THRESHOLD ≤ len - cursor) ∧
  (COMPRESSION_THRESHOLD ≤ len - cursor →
     manage_memory caps st w
     = (match llm_invoke caps (trace w) [HumanMessage prompt] with
        | Ok response => Ok (Some (ai_content response), len - KEEP_WINDOW)
        | Raise e => Raise e
        end,
        log w (CallCompressor [HumanMessage prompt])) ∧
     (0 ≤ cursor →
        length (slice_from (len - KEEP_WINDOW) msgs) = Z.to_nat (Z.min 5 len) ∧
        Z.of_nat (length (slice cursor (len - KEEP_WINDOW) msgs)) = len - 5 - cursor)) ∧
  (len - cursor < COMPRESSION_THRESHOLD ∨ len - KEEP_WINDOW ≤ cursor →
     manage_memory caps st w = (Ok (get_summary_or_empty st, cursor), w)).
Proof.
  intros Hm len cursor prompt.
  assert (Hfire : COMPRESSION_THRESHOLD ≤ len - cursor →
            manage_memory caps st w
            = (match llm_invoke caps (trace w) [HumanMessage prompt] with
               | Ok response => Ok (Some (ai_content response), len - KEEP_WINDOW)
               | Raise e => Raise e
               end,
               log w (CallCompressor [HumanMessage prompt]))).
  { intros H. by apply manage_memory_fires. }
  assert (Hidle : len - cursor < COMPRESSION_THRESHOLD →
            manage_memory caps st w = (Ok (get_summary_or_empty st, cursor), w)).
  { intros H. by eapply manage_memory_idle. }
  split; [|split].
  - split.
    + intros [inputs Hev].
      destruct (Z_lt_le_dec (len - cursor) COMPRESSION_THRESHOLD) as [Hlt|Hge]; [|done].
      rewrite (Hidle Hlt) in Hev. simpl in Hev. by rewrite new_events_refl in Hev.
    + intros Hge. rewrite (Hfire Hge). simpl. eexists. apply new_events_log.
  - intros Hge. split; [by apply Hfire|].
    intros Hc. unfold COMPRESSION_THRESHOLD, KEEP_WINDOW in *. split.
    + rewrite length_slice_from by (subst len; lia). subst len. lia.
    + rewrite length_slice by (subst len; lia). lia.
  - intros [Hlt|Hle]; [by apply Hidle|].
    apply Hidle. unfold COMPRESSION_THRESHOLD, KEEP_WINDOW in *. lia.
Qed.

Lemma manage_memory_trigger_witness :
  manage_memory summarizing_caps fresh_state sixteen_world
  = (Ok (Some "they asked why, eight times", 11),
     log sixteen_world
       (CallCompressor
          [HumanMessage
             (compression_prompt (Some EmptyString)
                (history_text (slice 0 11 sixteen_messages)))])).
Proof.
  destruct (manage_memory_trigger summarizing_caps fresh_state sixteen_world
              sixteen_messages eq_refl) as (_ & Hfire & _).
  destruct Hfire as [Hrun _]; [vm_compute; discriminate|].
  exact Hrun.
Defined.

(** Fifteen messages are below the threshold: nothing is called and the
    summary and cursor are returned as stored. *)
Example below_threshold :
  manage_memory summarizing_caps summarized_state fifteen_world
  = (Ok (Some "they asked why, eight times", 0), fifteen_world).
Proof. reflexivity. Qed.

(** ** Aggregator *)

(** A computation that ended well went through each of its steps. *)
Tactic Notation "bind_ok" hyp(H) "as" ident(a) ident(w1) ident(Hm) :=
  apply bind_inv in H as [(a & w1 & Hm & H) | (? & _ & ?)]; [|discriminate].

Lemma state_to_save_cursor (st temp_state : AgentState) (new_summary : option string)
    (new_cursor : Z) :
  (new_summary = get_summary st →
     state_to_save st temp_state new_summary new_cursor = temp_state) ∧
  (new_summary ≠ get_summary st →
     summarized_msg_count (state_to_save st temp_state new_summary new_cursor)
       = Some new_cursor ∧
     conversation_summary (state_to_save st temp_state new_summary new_cursor)
       = Some new_summary).
Proof.
  unfold state_to_save. split; intros H.
  - by rewrite bool_decide_eq_false_2 by (intros Hn; by apply Hn).
  - by rewrite bool_decide_eq_true_2.
Qed.

Lemma new_list_inv (l : list message) (w : world) (res : result loc) (w' : world) :
  new_list l w = (res, w') →
  res = Ok (length (lists w)) ∧ lists w' = lists w ++ [l] ∧ trace w' = trace w ∧
  sessions w' = sessions w ∧ notes w' = notes w.
Proof. unfold new_list. intros H. by inversion H. Qed.

Lemma call_model_lists (caps : capabilities) (inputs : list message) (w : world)
    (res : result ai_message) (w' : world) :
  call_model caps inputs w = (res, w') → lists w' = lists w.
Proof. unfold call_model. intros H. by inversion H. Qed.

(** The steps a returning aggregator went through. *)
Lemma aggregator_node_inv (caps : capabilities) (P : prompt_table)
    (py : text_ops) (st : AgentState) (w : world) (d : delta) (w' : world) :
  aggregator_node caps P py st w = (Ok d, w') →
  ∃ msgs final_response r new_summary new_cursor w1 w2 path s c,
    lists w !! messages st = Some msgs ∧
    lists w1 !! r = Some (msgs ++ [final_response]) ∧
    manage_memory caps (set_messages st r) w1 = (Ok (new_summary, new_cursor), w2) ∧
    save_session caps py (state_to_save st (set_messages st r) new_summary new_cursor) w2
      = (Ok path, w') ∧
    conversation_summary (state_to_save st (set_messages st r) new_summary new_cursor)
      = Some s ∧
    summarized_msg_count (state_to_save st (set_messages st r) new_summary new_cursor)
      = Some c ∧
    d = [AddMessages [final_response]; SetConversationSummary s; SetSummarizedMsgCount c].
Proof.
  intros H. unfold aggregator_node in H.
  bind_ok H as msgs w0 Hread.
  bind_ok H as final_response w1 Hfinal.
  bind_ok H as r w2 Hnew.
  bind_ok H as mm w3 Hmm.
  destruct mm as [new_summary new_cursor].
  bind_ok H as path w4 Hsave.
  set (to_save := state_to_save st (set_messages st r) new_summary new_cursor) in *.
  bind_ok H as s w5 Hs.
  bind_ok H as c w6 Hc.
  destruct (conversation_summary to_save) as [s'|] eqn:Es; [|discriminate].
  destruct (summarized_msg_count to_save) as [c'|] eqn:Ec; [|discriminate].
  inversion Hs; subst. inversion Hc; subst. inversion H; subst.
  exists msgs, final_response, r, new_summary, new_cursor, w2, w3, path, s, c.
  apply read_list_inv in Hread as [-> Hread].
  apply new_list_inv in Hnew as (Hr & Hl2 & _).
  split; [by apply Hread|]. split; [|done].
  inversion Hr; subst r. rewrite Hl2. by rewrite lookup_app_r, Nat.sub_diag.
Qed.

(** C10.  Whenever the aggregator returns, the compressor has run on a
    working copy of the transcript with the reply appended, and the
    cursor handed to [save_session] and the cursor returned are the same
    value [c]; when the summary text returned by the compressor equals
    the stored [conversation_summary], [c] is the cursor the state came
    with, whatever cursor the compressor computed; only when the text
    differs is [c] the compressor's cursor. *)
Theorem aggregator_cursor_follows_summary (caps : capabilities) (P : prompt_table)
    (py : text_ops) (st : AgentState) (w : world) (d : delta) (w' : world) :
  aggregator_node caps P py st w = (Ok d, w') →
  ∃ msgs final_response r new_summary new_cursor w1 w2 path s c,
    lists w !! messages st = Some msgs ∧
    lists w1 !! r = Some (msgs ++ [final_response]) ∧
    manage_memory caps (set_messages st r) w1 = (Ok (new_summary, new_cursor), w2) ∧
    save_session caps py (state_to_save st (set_messages st r) new_summary new_cursor) w2
      = (Ok path, w') ∧
    summarized_msg_count (state_to_save st (set_messages st r) new_summary new_cursor)
      = Some c ∧
    d = [AddMessages [final_response]; SetConversationSummary s; SetSummarizedMsgCount c] ∧
    (new_summary = get_summary st → summarized_msg_count st = Some c) ∧
    (new_summary ≠ get_summary st → c = new_cursor ∧ s = new_summary).
Proof.
  intros H.
  destruct (aggregator_node_inv caps P py st w d w' H)
    as (msgs & fr & r & ns & nc & w1 & w2 & path & s & c
        & Hm & Hr & Hmm & Hsave & Es & Ec & Hd).
  exists msgs, fr, r, ns, nc, w1, w2, path, s, c.
  split; [done|]. split; [done|]. split; [done|]. split; [done|].
  split; [done|]. split; [done|].
  destruct (state_to_save_cursor st (set_messages st r) ns nc) as [Hsame Hdiff].
  split.
  - intros Heq. rewrite (Hsame Heq) in Ec. exact Ec.
  - intros Hne. destruct (Hdiff Hne) as [Hc' Hs']. split; congruence.
Qed.

Lemma aggregator_cursor_follows_summary_witness :
  ∃ d w',
    aggregator_node summarizing_caps sample_prompts ascii_text_ops
      summarized_state fifteen_world = (Ok d, w') ∧
    ∃ msgs final_response r new_summary new_cursor w1 w2 path s c,
      lists fifteen_world !! messages summarized_state = Some msgs ∧
      lists w1 !! r = Some (msgs ++ [final_response]) ∧
      manage_memory summarizing_caps (set_messages summarized_state r) w1
        = (Ok (new_summary, new_cursor), w2) ∧
      save_session summarizing_caps ascii_text_ops
        (state_to_save summarized_state (set_messages summarized_state r)
           new_summary new_cursor) w2 = (Ok path, w') ∧
      summarized_msg_count
        (state_to_save summarized_state (set_messages summarized_state r)
           new_summary new_cursor) = Some c ∧
      d = [AddMessages [final_response]; SetConversationSummary s;
           SetSummarizedMsgCount c] ∧
      (new_summary = get_summary summarized_state →
         summarized_msg_count summarized_state = Some c) ∧
      (new_summary ≠ get_summary summarized_state → c = new_cursor ∧ s = new_summary).
Proof.
  destruct (aggregator_node summarizing_caps sample_prompts ascii_text_ops
              summarized_state fifteen_world) as [[d|e] w'] eqn:Hrun;
    [|vm_compute in Hrun; discriminate].
  exists d, w'. split; [reflexivity|].
  exact (aggregator_cursor_follows_summary _ _ _ _ _ _ _ Hrun).
Defined.

(** That run, evaluated: sixteen messages are in the working copy, the
    compressor fires and computes the cursor 11, its text equals the
    stored summary, and the cursor returned is still 0. *)
Example stale_cursor_run :
  (aggregator_node summarizing_caps sample_prompts ascii_text_ops
     summarized_state fifteen_world).1
  = Ok [AddMessages [AIMessage (mk_ai "a reply" [])];
        SetConversationSummary (Some "they asked why, eight times");
        SetSummarizedMsgCount 0] ∧
  (manage_memory summarizing_caps (set_messages summarized_state 1%nat)
     (mk_world [fifteen_messages; fifteen_messages ++ [AIMessage (mk_ai "a reply" [])]]
        [] ∅ ∅)).1
  = Ok (Some "they asked why, eight times", 11).
Proof. split; vm_compute; reflexivity. Qed.

(** ** Session store *)

Lemma message_from_to_dict (m : message) :
  message_from_dict (message_to_dict m) = Ok m.
Proof. destruct m as [c|[c tcs]|c|c id n]; reflexivity. Qed.

Lemma messages_from_to_dict (ms : list message) :
  messages_from_dict (messages_to_dict ms) = Ok ms.
Proof.
  induction ms as [|m ms IH]; [reflexivity|].
  unfold messages_to_dict in *. cbn [map messages_from_dict].
  by rewrite message_from_to_dict, IH.
Qed.

Lemma truthy_Some (s : string) : s ≠ EmptyString → truthy (Some s) = true.
Proof. intros H. simpl. by apply negb_true_iff, String.eqb_neq. Qed.

Lemma get_session_path_Ok (sid : string) :
  sid ≠ EmptyString →
  _get_session_path sid = Ok (MEMORY_DIR +:+ "/" +:+ sid +:+ ".json").
Proof.
  intros H. unfold _get_session_path.
  by apply String.eqb_neq in H as ->.
Qed.

(** What [save_session] leaves in the world for a state with a session id. *)
Lemma save_session_writes (caps : capabilities) (py : text_ops) (st : AgentState)
    (w : world) (sid : string) (msgs : list message) :
  session_id st = Some sid → sid ≠ EmptyString →
  lists w !! messages st = Some msgs →
  ∃ w1 stamp,
    save_session caps py st w = (Ok (MEMORY_DIR +:+ "/" +:+ sid +:+ ".json"), w1) ∧
    lists w1 = lists w ∧ trace w1 = trace w ∧
    sessions w1 !! (MEMORY_DIR +:+ "/" +:+ sid +:+ ".json")
      = Some (mk_session_data sid stamp (default "General" (current_topic st))
                (get_summary st) (messages_to_dict msgs)).
Proof.
  intros Hsid Hne Hm. unfold save_session.
  rewrite Hsid, (truthy_Some _ Hne). simpl default.
  rewrite (bind_Ok _ _ _ _ _ (read_list_Some _ _ _ Hm)).
  unfold mbind at 1, M_bind at 1, clock_isoformat.
  unfold mbind at 1, M_bind at 1, lift. rewrite (get_session_path_Ok _ Hne).
  unfold mbind at 1, M_bind at 1, save_json.
  set (path := MEMORY_DIR +:+ "/" +:+ sid +:+ ".json").
  set (data := mk_session_data _ _ _ _ _).
  destruct (should_exit st && truthy (summary_output st)).
  - eexists _, (now_isoformat caps (trace w)).
    split; [reflexivity|]. simpl. split; [done|]. split; [done|].
    by rewrite lookup_insert_eq.
  - exists (set_session w path data), (now_isoformat caps (trace w)).
    split; [reflexivity|]. simpl. split; [done|]. split; [done|].
    by rewrite lookup_insert_eq.
Qed.

Lemma load_after_save (caps : capabilities) (py : text_ops) (st : AgentState)
    (w : world) (sid : string) (msgs : list message) :
  session_id st = Some sid → sid ≠ EmptyString →
  lists w !! messages st = Some msgs →
  ∃ path w1 r w2,
    save_session caps py st w = (Ok path, w1) ∧
    load_session sid w1
      = (Ok (Some (mk_state r (Some (default "General" (current_topic st))) (Some sid)
                     (Some (get_summary st)) None None false None None None None None)),
         w2) ∧
    lists w2 !! r = Some msgs.
Proof.
  intros Hsid Hne Hm.
  destruct (save_session_writes caps py st w sid msgs Hsid Hne Hm)
    as (w1 & stamp & Hsave & Hl & _ & Hfile).
  exists (MEMORY_DIR +:+ "/" +:+ sid +:+ ".json"), w1, (length (lists w1)),
    (set_lists w1 (lists w1 ++ [msgs])).
  split; [exact Hsave|]. split.
  - unfold load_session, mbind, M_bind, mret, M_ret, lift, try_except, load_json.
    rewrite (get_session_path_Ok _ Hne), Hfile. cbn [sd_messages].
    by rewrite messages_from_to_dict.
  - simpl. by rewrite lookup_app_r, Nat.sub_diag.
Qed.

(** C2.  A state with a session id, saved and then loaded under that
    id, comes back with the transcript and the conversation summary it
    had when saved (and its session id), and without the plan, the
    scratch outputs and the exit flag.  The summarized cursor does not
    come back: [save_session] does not write it and [load_session] does
    not return it, so the loaded state has no cursor at all, whatever
    the cursor was when the state was saved, and reads as cursor 0 next
    to a summary that covers more. *)
Theorem save_then_load (caps : capabilities) (py : text_ops) (st : AgentState)
    (w : world) (sid : string) (msgs : list message) :
  session_id st = Some sid → sid ≠ EmptyString →
  lists w !! messages st = Some msgs →
  ∃ path w1 st' w2,
    save_session caps py st w = (Ok path, w1) ∧
    load_session sid w1 = (Ok (Some st'), w2) ∧
    lists w2 !! messages st' = Some msgs ∧
    get_summary st' = get_summary st ∧
    session_id st' = Some sid ∧
    summarized_msg_count st' = None ∧ get_cursor st' = 0 ∧
    plan st' = None ∧ should_exit st' = false ∧
    tutor_output st' = None ∧ judge_output st' = None ∧
    inquiry_output st' = None ∧ summary_output st' = None.
Proof.
  intros Hsid Hne Hm.
  destruct (load_after_save caps py st w sid msgs Hsid Hne Hm)
    as (path & w1 & r & w2 & Hsave & Hload & Hr).
  eexists path, w1, _, w2.
  split; [exact Hsave|]. split; [exact Hload|]. by simpl.
Qed.

Lemma save_then_load_witness :
  ∃ path w1 st' w2,
    save_session summarizing_caps ascii_text_ops compressed_state sixteen_world
      = (Ok path, w1) ∧
    load_session "s1" w1 = (Ok (Some st'), w2) ∧
    lists w2 !! messages st' = Some sixteen_messages ∧
    get_summary st' = get_summary compressed_state ∧
    session_id st' = Some "s1" ∧
    summarized_msg_count st' = None ∧ get_cursor st' = 0 ∧
    plan st' = None ∧ should_exit st' = false ∧
    tutor_output st' = None ∧ judge_output st' = None ∧
    inquiry_output st' = None ∧ summary_output st' = None.
Proof.
  apply (save_then_load summarizing_caps ascii_text_ops compressed_state
           sixteen_world "s1" sixteen_messages).
  - reflexivity.
  - discriminate.
  - reflexivity.
Defined.

(** That round trip on the cursor alone: a state saved with the cursor
    11 is loaded with no cursor. *)
Example cursor_lost_by_save_then_load :
  ∃ path w1 st' w2,
    save_session summarizing_caps ascii_text_ops compressed_state sixteen_world
      = (Ok path, w1) ∧
    load_session "s1" w1 = (Ok (Some st'), w2) ∧
    summarized_msg_count compressed_state = Some 11 ∧
    summarized_msg_count st' = None ∧
    get_cursor st' ≠ get_cursor compressed_state.
Proof.
  destruct (load_after_save summarizing_caps ascii_text_ops compressed_state
              sixteen_world "s1" sixteen_messages eq_refl) as
    (path & w1 & r & w2 & Hsave & Hload & _); [discriminate|reflexivity|].
  eexists path, w1, _, w2.
  split; [exact Hsave|]. split; [exact Hload|]. split; [reflexivity|].
  split; [reflexivity|]. unfold get_cursor. simpl. lia.
Qed.

(** ** Search tool and the tool sub-protocol *)

(** The search function never raises: whatever the HTTP request does,
    it returns a string. *)
Lemma api_baidu_search_run (caps : capabilities) (query : string) (w : world) :
  api_baidu_search caps query w
  = (Ok (search_result (requests_post caps (trace w) query)), log w (CallSearch query)).
Proof.
  unfold api_baidu_search, try_except, mbind, M_bind, call_search, search_result.
  destruct (requests_post caps (trace w) query) as [data|e]; [|reflexivity].
  by destruct (references data) as [[|ref refs]|].
Qed.

Lemma list_append_run (r : loc) (x : message) (w : world) (l : list message) :
  lists w !! r = Some l →
  list_append r x w = (Ok tt, set_lists w (<[r := l ++ [x]]> (lists w))).
Proof. intros H. unfold list_append. by rewrite H. Qed.

Lemma world_eta (w : world) :
  mk_world (lists w) (trace w) (sessions w) (notes w) = w.
Proof. by destruct w. Qed.

(** One requested tool call: a search call whose status line is printed
    and which has a query is executed, and its result appended after the
    response; a search call whose status line the console refuses raises
    before the search; one without a query raises in the tool wrapper; a
    call of any other name is passed over. *)
Lemma run_tool_call_search (caps : capabilities) (py : text_ops) (cur : loc)
    (response : ai_message) (tc : tool_call) (q : string) (w : world) (l : list message) :
  is_search_call tc = true →
  rich_print py (status_line (query_str py (tc_args tc))) = Ok tt →
  dict_get "query" (tc_args tc) = Some q →
  lists w !! cur = Some l →
  run_tool_call caps py cur response tc w
  = (Ok tt,
     mk_world
       (<[cur := l ++ [AIMessage response;
                       ToolMessage (search_result (requests_post caps (trace w) q))
                         (tc_id tc) (Some (tc_name tc))]]> (lists w))
       (trace w ++ [CallSearch q]) (sessions w) (notes w)).
Proof.
  intros Hs Hp Hq Hl. unfold run_tool_call. unfold is_search_call in Hs. rewrite Hs.
  cbv zeta. rewrite Hp. erewrite bind_Ok by reflexivity.
  unfold search_tool_invoke. rewrite Hq.
  rewrite (bind_Ok _ _ _ _ _ (api_baidu_search_run caps q w)).
  erewrite bind_Ok by (apply list_append_run; simpl; exact Hl).
  erewrite list_append_run
    by (simpl; apply list_lookup_insert_eq; by eapply lookup_lt_Some).
  unfold set_lists, log. simpl.
  by rewrite list_insert_insert_eq, <- app_assoc.
Qed.

Lemma run_tool_call_refused (caps : capabilities) (py : text_ops) (cur : loc)
    (response : ai_message) (tc : tool_call) (e : exn) (w : world) :
  is_search_call tc = true →
  rich_print py (status_line (query_str py (tc_args tc))) = Raise e →
  run_tool_call caps py cur response tc w = (Raise e, w).
Proof.
  intros Hs Hp. unfold run_tool_call. unfold is_search_call in Hs. rewrite Hs.
  cbv zeta. rewrite Hp. reflexivity.
Qed.

Lemma run_tool_call_invalid (caps : capabilities) (py : text_ops) (cur : loc)
    (response : ai_message) (tc : tool_call) (w : world) :
  is_search_call tc = true →
  rich_print py (status_line (query_str py (tc_args tc))) = Ok tt →
  dict_get "query" (tc_args tc) = None →
  run_tool_call caps py cur response tc w = (Raise (ValidationError "query"), w).
Proof.
  intros Hs Hp Hq. unfold run_tool_call. unfold is_search_call in Hs. rewrite Hs.
  cbv zeta. rewrite Hp. erewrite bind_Ok by reflexivity.
  unfold search_tool_invoke. rewrite Hq. reflexivity.
Qed.

Lemma run_tool_call_other (caps : capabilities) (py : text_ops) (cur : loc)
    (response : ai_message) (tc : tool_call) (w : world) :
  is_search_call tc = false →
  run_tool_call caps py cur response tc w = (Ok tt, w).
Proof.
  intros Hs. unfold run_tool_call. unfold is_search_call in Hs. by rewrite Hs.
Qed.

(** The loop over the requested tool calls, run from a world in which
    [current_messages] holds [l]. *)
Lemma for_each_tool_round (caps : capabilities) (py : text_ops) (cur : loc)
    (response : ai_message) (tcs : list tool_call) (w : world) (l : list message) :
  lists w !! cur = Some l →
  for_each tcs (run_tool_call caps py cur response) w
  = ((tool_round caps py response tcs (trace w)).1.1,
     mk_world (<[cur := l ++ (tool_round caps py response tcs (trace w)).2]> (lists w))
       (trace w ++ map CallSearch (tool_round caps py response tcs (trace w)).1.2)
       (sessions w) (notes w)).
Proof.
  revert w l. induction tcs as [|tc tcs IH]; intros w l Hl.
  - simpl. rewrite !app_nil_r, list_insert_id by done. by rewrite world_eta.
  - cbn [for_each tool_round].
    destruct (is_search_call tc) eqn:Hs.
    + destruct (rich_print py (status_line (query_str py (tc_args tc))))
        as [[]|e] eqn:Hp.
      * destruct (dict_get "query" (tc_args tc)) as [q|] eqn:Hq.
        -- erewrite bind_Ok by (by apply run_tool_call_search).
           erewrite IH by (simpl; apply list_lookup_insert_eq; by eapply lookup_lt_Some).
           simpl. destruct (tool_round caps py response tcs (trace w ++ [CallSearch q]))
             as [[r qs] ms]. simpl.
           rewrite list_insert_insert_eq. rewrite <- !app_assoc. reflexivity.
        -- erewrite bind_Raise by (by apply run_tool_call_invalid).
           simpl. rewrite !app_nil_r, list_insert_id by done. by rewrite world_eta.
      * erewrite bind_Raise by (by apply run_tool_call_refused).
        simpl. rewrite !app_nil_r, list_insert_id by done. by rewrite world_eta.
    + erewrite bind_Ok by (by apply run_tool_call_other). by apply IH.
Qed.

(** When every requested search call is printed and has a query, the
    loop returns, sends the queries in request order, and appends the
    response and the result once per search call. *)
Lemma tool_round_accepted (caps : capabilities) (py : text_ops) (response : ai_message)
    (tcs : list tool_call) (tr : list event) :
  Forall well_formed_call tcs → Forall (displayed py) tcs →
  tool_round caps py response tcs tr
  = (Ok tt, executed_queries tcs,
     tool_exchange response (List.filter is_search_call tcs)
       (search_results caps tr (executed_queries tcs))).
Proof.
  intros Hwf Hdisp. revert tr.
  induction tcs as [|tc tcs IH]; intros tr; [reflexivity|].
  apply Forall_cons in Hwf as [Htc Hwf]. apply Forall_cons in Hdisp as [Hd Hdisp].
  cbn [tool_round executed_queries omap list_omap List.filter].
  unfold well_formed_call in Htc. unfold displayed in Hd.
  destruct (is_search_call tc); [|by apply IH].
  rewrite Hd by done. destruct Htc as [q Hq]; [done|]. rewrite Hq.
  rewrite (IH Hwf Hdisp (tr ++ [CallSearch q])). reflexivity.
Qed.


(** A requested call is either carried out or rejected. *)
Lemma accepted_or_rejected (py : text_ops) (tcs : list tool_call) :
  (Forall well_formed_call tcs ∧ Forall (displayed py) tcs) ∨ Exists (rejected py) tcs.
Proof.
  induction tcs as [|tc tcs [[Hwf Hd]|Hrej]].
  - left. by split.
  - destruct (is_search_call tc) eqn:Hs.
    + destruct (rich_print py (status_line (query_str py (tc_args tc))))
        as [[]|e] eqn:Hp.
      * destruct (dict_get "query" (tc_args tc)) as [q|] eqn:Hq.
        -- left. split; constructor; try done.
           ++ intros _. by rewrite Hq.
           ++ intros _. exact Hp.
        -- right. left. split; [done|]. by right.
      * right. left. split; [done|]. left. by rewrite Hp.
    + left. split; constructor; try done.
      * intros Hs'. congruence.
      * intros Hs'. congruence.
  - right. by right.
Qed.

Lemma build_context_run (py : text_ops) (st : AgentState) (prompt : string)
    (w : world) (msgs : list message) :
  lists w !! messages st = Some msgs →
  build_context py st prompt w
  = (Ok (length (lists w)),
     set_lists w (lists w ++ [context_messages py st msgs prompt])).
Proof.
  intros Hm. unfold build_context.
  by rewrite (bind_Ok _ _ _ _ _ (read_list_Some _ _ _ Hm)).
Qed.

Lemma insert_fresh {A} (l : list A) (x y : A) :
  <[length l := y]> (l ++ [x]) = l ++ [y].
Proof.
  rewrite insert_app_r_alt by lia. by rewrite Nat.sub_diag.
Qed.

(** The whole sub-protocol as a function of what the capabilities
    answer.  The context is a list object of its own, created at the
    first free location; every append goes to it. *)
Lemma run_tool_loop_run (caps : capabilities) (py : text_ops) (prompt : string)
    (st : AgentState) (w : world) (msgs : list message) :
  lists w !! messages st = Some msgs →
  let ctx := context_messages py st msgs prompt in
  let tr1 := trace w ++ [CallModelWithTools ctx] in
  _run_tool_loop caps py prompt st w
  = match model_with_tools_invoke caps (trace w) ctx with
    | Raise e => (Raise e, mk_world (lists w ++ [ctx]) tr1 (sessions w) (notes w))
    | Ok response =>
        match ai_tool_calls response with
        | [] => (Ok (ai_content response),
                 mk_world (lists w ++ [ctx]) tr1 (sessions w) (notes w))
        | _ :: _ =>
            let round := tool_round caps py response (ai_tool_calls response) tr1 in
            let tr2 := tr1 ++ map CallSearch round.1.2 in
            let inputs := ctx ++ round.2 in
            match round.1.1 with
            | Ok _ => (content_of (model_invoke caps tr2 inputs),
                       mk_world (lists w ++ [inputs]) (tr2 ++ [CallModel inputs])
                         (sessions w) (notes w))
            | Raise e => (Raise e, mk_world (lists w ++ [inputs]) tr2 (sessions w) (notes w))
            end
        end
    end.
Proof.
  intros Hm ctx tr1. unfold _run_tool_loop.
  rewrite (bind_Ok _ _ _ _ _ (build_context_run py st prompt w msgs Hm)).
  fold ctx.
  assert (Hctx : lists (set_lists w (lists w ++ [ctx])) !! length (lists w) = Some ctx).
  { simpl. by rewrite lookup_app_r, Nat.sub_diag. }
  rewrite (bind_Ok _ _ _ _ _ (read_list_Some _ _ _ Hctx)).
  unfold mbind at 1, M_bind at 1, call_model_with_tools. simpl trace.
  destruct (model_with_tools_invoke caps (trace w) ctx) as [response|e]; [|reflexivity].
  destruct (ai_tool_calls response) as [|tc tcs] eqn:Htcs; [reflexivity|].
  rewrite <- Htcs. clear Htcs tc tcs.
  set (w1 := log (set_lists w (lists w ++ [ctx])) (CallModelWithTools ctx)).
  assert (Hw1 : lists w1 !! length (lists w) = Some ctx) by exact Hctx.
  unfold mbind at 1, M_bind at 1.
  rewrite (for_each_tool_round caps py _ response _ w1 ctx Hw1).
  change (trace w1) with tr1. simpl lists. rewrite insert_fresh.
  destruct (tool_round caps py response (ai_tool_calls response) tr1) as [[r qs] ms].
  simpl. destruct r as [[]|e]; [|reflexivity].
  erewrite bind_Ok
    by (apply read_list_Some; simpl; by rewrite lookup_app_r, Nat.sub_diag).
  unfold mbind, M_bind, call_model, content_of. simpl.
  by destruct (model_invoke caps (tr1 ++ map CallSearch qs) (ctx ++ ms)).
Qed.

Lemma length_search_results (caps : capabilities) (tr : list event) (qs : list string) :
  length (search_results caps tr qs) = length qs.
Proof.
  revert tr. induction qs as [|q qs IH]; intros tr; [done|].
  cbn [search_results length]. by rewrite IH.
Qed.

Lemma length_executed_queries (tcs : list tool_call) :
  Forall well_formed_call tcs →
  length (executed_queries tcs) = length (List.filter is_search_call tcs).
Proof.
  induction 1 as [|tc tcs Htc _ IH]; [done|].
  cbn [executed_queries omap list_omap List.filter]. unfold well_formed_call in Htc.
  destruct (is_search_call tc); [|exact IH].
  destruct Htc as [q Hq]; [done|]. rewrite Hq. cbn [length]. f_equal. exact IH.
Qed.

(** C4, as the code has it.  When the first answer asks for tool calls,
    each search call of which has the query argument the search tool's
    signature requires and a status line the console prints, every
    requested call named [baidu_search] is executed, in request order
    and before the follow-up call; calls of another name are passed
    over.  The search never raises: each executed call has a text
    result, which is the error string when the HTTP request failed, and
    the response and that result are appended, call by call, to the list
    handed to the follow-up call. *)
Theorem search_calls_executed (caps : capabilities) (py : text_ops) (prompt : string)
    (st : AgentState) (w : world) (msgs : list message) (response : ai_message) :
  lists w !! messages st = Some msgs →
  let ctx := context_messages py st msgs prompt in
  let requested := ai_tool_calls response in
  let tr1 := trace w ++ [CallModelWithTools ctx] in
  let results := search_results caps tr1 (executed_queries requested) in
  let inputs := ctx ++ tool_exchange response (List.filter is_search_call requested) results in
  let tr := tr1 ++ map CallSearch (executed_queries requested) in
  model_with_tools_invoke caps (trace w) ctx = Ok response →
  requested ≠ [] →
  Forall well_formed_call requested →
  Forall (displayed py) requested →
  _run_tool_loop caps py prompt st w
  = (content_of (model_invoke caps tr inputs),
     mk_world (lists w ++ [inputs]) (tr ++ [CallModel inputs]) (sessions w) (notes w)) ∧
  length results = length (List.filter is_search_call requested) ∧
  (∀ tr0 q e,
     requests_post caps tr0 q = Raise e →
     search_result (requests_post caps tr0 q)
     = "Error connecting to Baidu Search: " +:+ str_exn e).
Proof.
  intros Hm. cbv zeta. intros Hfirst Hne Hwf Hdisp.
  pose proof (run_tool_loop_run caps py prompt st w msgs Hm) as Hrun.
  cbv zeta in Hrun. rewrite Hfirst in Hrun.
  rewrite (tool_round_accepted caps py response _ _ Hwf Hdisp) in Hrun.
  cbn [fst snd] in Hrun.
  split; [|split].
  - revert Hrun Hne. by destruct (ai_tool_calls response).
  - by rewrite length_search_results, length_executed_queries.
  - intros tr0 q e He. by rewrite He.
Qed.

Lemma search_calls_executed_witness :
  let ctx := context_messages ascii_text_ops fresh_state
               [HumanMessage "what is a decision tree?"] "tutor" in
  let requested := ai_tool_calls search_request in
  let tr1 := trace one_question_world ++ [CallModelWithTools ctx] in
  let results := search_results searching_caps tr1 (executed_queries requested) in
  let inputs := ctx ++ tool_exchange search_request
                         (List.filter is_search_call requested) results in
  let tr := tr1 ++ map CallSearch (executed_queries requested) in
  _run_tool_loop searching_caps ascii_text_ops "tutor" fresh_state one_question_world
  = (content_of (model_invoke searching_caps tr inputs),
     mk_world (lists one_question_world ++ [inputs]) (tr ++ [CallModel inputs])
       (sessions one_question_world) (notes one_question_world)) ∧
  length results = length (List.filter is_search_call requested).
Proof.
  intros ctx requested tr1 results inputs tr.
  destruct (search_calls_executed searching_caps ascii_text_ops "tutor" fresh_state
              one_question_world [HumanMessage "what is a decision tree?"]
              search_request eq_refl eq_refl) as (Hrun & Hlen & _).
  - discriminate.
  - repeat constructor; intros _; eexists; reflexivity.
  - repeat constructor; intros _; reflexivity.
  - split; [exact Hrun|exact Hlen].
Defined.

(** A run, evaluated: the search fails, its error string is the
    tool result, and the worker still answers. *)
Example failed_search_run :
  _run_tool_loop searching_caps ascii_text_ops "tutor" fresh_state one_question_world
  = (Ok "a reply",
     mk_world
       [[HumanMessage "what is a decision tree?"];
        [SystemMessage "tutor"; HumanMessage "what is a decision tree?";
         AIMessage search_request;
         ToolMessage "Error connecting to Baidu Search: timeout" "call_1"
           (Some "baidu_search")]]
       [CallModelWithTools [SystemMessage "tutor"; HumanMessage "what is a decision tree?"];
        CallSearch "random forest";
        CallModel [SystemMessage "tutor"; HumanMessage "what is a decision tree?";
                   AIMessage search_request;
                   ToolMessage "Error connecting to Baidu Search: timeout" "call_1"
                     (Some "baidu_search")]]
       ∅ ∅).
Proof. vm_compute. reflexivity. Qed.

(** C4, as stated, fails for a requested call of another name: the
    first answer requests one tool call, no tool is executed, and the
    follow-up call sees no tool result. *)
Lemma unknown_tool_call_not_executed :
  ai_tool_calls calculator_request
    = [mk_tool_call "calculator" [("expression", "2+2")] "call_1"] ∧
  _run_tool_loop calculator_caps ascii_text_ops "tutor" fresh_state one_question_world
  = (Ok "a reply",
     mk_world
       [[HumanMessage "what is a decision tree?"];
        [SystemMessage "tutor"; HumanMessage "what is a decision tree?"]]
       [CallModelWithTools [SystemMessage "tutor"; HumanMessage "what is a decision tree?"];
        CallModel [SystemMessage "tutor"; HumanMessage "what is a decision tree?"]]
       ∅ ∅).
Proof. split; [reflexivity|]. vm_compute. reflexivity. Qed.

(** The status line of a search is printed with the query inside console
    markup.  A query with a closing tag of its own is refused by the
    console: the worker raises before the search is sent, and no
    follow-up call is made. *)
Example markup_query_aborts :
  _run_tool_loop markup_caps ascii_text_ops "tutor" fresh_state one_question_world
  = (Raise (MarkupError "closing tag doesn't match any open tag"),
     mk_world
       [[HumanMessage "what is a decision tree?"];
        [SystemMessage "tutor"; HumanMessage "what is a decision tree?"]]
       [CallModelWithTools [SystemMessage "tutor"; HumanMessage "what is a decision tree?"]]
       ∅ ∅).
Proof. vm_compute. reflexivity. Qed.




(** The worker nodes are the sub-protocol with their own prompt, and
    return their output key only. *)
Lemma worker_nodes_run (caps : capabilities) (P : prompt_table) (py : text_ops)
    (st : AgentState) (w : world) :
  let topic := default "General Knowledge" (current_topic st) in
  tutor_node caps P py st w
  = (match (_run_tool_loop caps py (TUTOR_WORKER_PROMPT P topic) st w).1 with
     | Ok text => Ok [SetTutorOutput (Some text)]
     | Raise e => Raise e
     end, (_run_tool_loop caps py (TUTOR_WORKER_PROMPT P topic) st w).2) ∧
  judge_node caps P py st w
  = (match (_run_tool_loop caps py (JUDGE_WORKER_PROMPT P topic) st w).1 with
     | Ok text => Ok [SetJudgeOutput (Some text)]
     | Raise e => Raise e
     end, (_run_tool_loop caps py (JUDGE_WORKER_PROMPT P topic) st w).2).
Proof.
  intros topic. unfold tutor_node, judge_node, mbind, M_bind. fold topic.
  destruct (_run_tool_loop caps py (TUTOR_WORKER_PROMPT P topic) st w) as [[t|e] w1];
  destruct (_run_tool_loop caps py (JUDGE_WORKER_PROMPT P topic) st w) as [[t'|e'] w2];
  done.
Qed.




(** ** Relevance retriever *)

Local Open Scope Qc_scope.

Lemma jaccard_range (a b : gset N) : 0 ≤ jaccard a b ∧ jaccard a b ≤ 1.
Proof.
  unfold jaccard.
  assert (Hsub : (size (a ∩ b) ≤ size (a ∪ b))%nat).
  { apply subseteq_size. intros x Hx.
    apply elem_of_intersection in Hx as [Hx _]. by apply elem_of_union_l. }
  set (n := size (a ∩ b)) in *. set (m := size (a ∪ b)) in *.
  unfold Qcle. simpl. rewrite !Qred_correct. unfold Qle. simpl. split.
  - lia.
  - destruct m as [|m]; [simpl; lia|].
    rewrite Z.mul_1_r, Z.mul_1_l.
    rewrite <- (Nat2Pos.id (S m)) in Hsub by done.
    rewrite <- positive_nat_Z. lia.
Qed.

Lemma candidate_range (py : text_ops) (messages searchable_history : list message)
    (query_tokens : gset N) (i : nat) :
  Forall (λ x, 0 ≤ x.1 ∧ x.1 ≤ 1)
         (candidate py messages searchable_history query_tokens i).
Proof.
  unfold candidate.
  destruct (searchable_history !! i) as [[text|?|?|? ? ?]|]; try constructor.
  destruct (bool_decide _); [constructor|].
  destruct (bool_decide _); [|constructor].
  constructor; [apply jaccard_range|constructor].
Qed.

Lemma scored_results_range (py : text_ops) (messages searchable_history : list message)
    (query_tokens : gset N) :
  Forall (λ x, 0 ≤ x.1 ∧ x.1 ≤ 1)
         (scored_results py messages searchable_history query_tokens).
Proof.
  unfold scored_results.
  induction (seq 0 (length searchable_history)) as [|i rest IH]; [constructor|].
  simpl. apply Forall_app. split; [apply candidate_range|exact IH].
Qed.

(** The insertion sort: a permutation, sorted by descending key, that
    keeps the items of one key in the order they had. *)
Lemma insert_desc_perm (x : Qc * string) (l : list (Qc * string)) :
  insert_desc x l ≡ₚ x :: l.
Proof.
  induction l as [|y l IH]; [done|]. simpl.
  destruct (bool_decide _); [|done].
  rewrite IH. apply Permutation_swap.
Qed.

Lemma sort_desc_perm (l : list (Qc * string)) : sort_desc l ≡ₚ l.
Proof.
  induction l as [|x l IH]; [done|].
  simpl. rewrite insert_desc_perm. by rewrite IH.
Qed.

Lemma insert_desc_sorted (x : Qc * string) (l : list (Qc * string)) :
  StronglySorted (λ a b, b.1 ≤ a.1) l →
  StronglySorted (λ a b, b.1 ≤ a.1) (insert_desc x l).
Proof.
  induction 1 as [|y l Hl IH Hy]; simpl.
  { repeat constructor. }
  destruct (bool_decide (x.1 < y.1)) eqn:Hlt.
  - apply bool_decide_eq_true in Hlt. constructor; [exact IH|].
    rewrite insert_desc_perm. constructor; [by apply Qclt_le_weak|exact Hy].
  - apply bool_decide_eq_false in Hlt. apply Qcnot_lt_le in Hlt.
    constructor; [by constructor|]. constructor; [exact Hlt|].
    eapply Forall_impl; [exact Hy|]. intros z Hz. simpl in *.
    by eapply Qcle_trans.
Qed.

Lemma sort_desc_sorted (l : list (Qc * string)) :
  StronglySorted (λ a b, b.1 ≤ a.1) (sort_desc l).
Proof.
  induction l as [|x l IH]; [constructor|].
  simpl. by apply insert_desc_sorted.
Qed.

Lemma insert_desc_stable (q : Qc) (x : Qc * string) (l : list (Qc * string)) :
  filter (λ y, y.1 = q) (insert_desc x l) = filter (λ y, y.1 = q) (x :: l).
Proof.
  induction l as [|y l IH]; [done|]. simpl.
  destruct (bool_decide (x.1 < y.1)) eqn:Hlt; [|done].
  apply bool_decide_eq_true in Hlt.
  rewrite !filter_cons in *. rewrite IH.
  destruct (decide (x.1 = q)) as [Hx|Hx]; [|done].
  destruct (decide (y.1 = q)) as [Hy|Hy]; [|done].
  exfalso. rewrite Hx, Hy in Hlt. by apply Qclt_not_eq in Hlt.
Qed.

Lemma sort_desc_stable (q : Qc) (l : list (Qc * string)) :
  filter (λ y, y.1 = q) (sort_desc l) = filter (λ y, y.1 = q) l.
Proof.
  induction l as [|x l IH]; [done|].
  simpl. rewrite insert_desc_stable, !filter_cons. by rewrite IH.
Qed.

Lemma StronglySorted_prefix {A} (R : A → A → Prop) (l k : list A) :
  l `prefix_of` k → StronglySorted R k → StronglySorted R l.
Proof.
  intros [rest ->] H. induction l as [|x l IH]; [constructor|].
  simpl in H. apply StronglySorted_inv in H as [Hs Hf].
  constructor; [by apply IH|]. by apply Forall_app in Hf as [Hf _].
Qed.

Lemma prefix_filter {A} (P : A → Prop) `{∀ x, Decision (P x)} (l k : list A) :
  l `prefix_of` k → filter P l `prefix_of` filter P k.
Proof. intros [rest ->]. rewrite filter_app. by eexists. Qed.

Lemma top_items_prefix (py : text_ops) (messages : list message) (query_text : string)
    (exclude_last_n top_k : Z) :
  top_items py messages query_text exclude_last_n top_k
    `prefix_of`
  sort_desc (scored_results py messages (slice_to (- exclude_last_n) messages)
               (tokens py query_text)).
Proof.
  unfold top_items.
  destruct (_ || _); [apply prefix_nil|].
  destruct (bool_decide _); [apply prefix_nil|].
  unfold slice_to. apply prefix_take.
Qed.

Lemma top_items_length (py : text_ops) (messages : list message) (query_text : string)
    (exclude_last_n top_k : Z) :
  (0 ≤ top_k)%Z →
  (Z.of_nat (length (top_items py messages query_text exclude_last_n top_k)) ≤ top_k)%Z.
Proof.
  intros Hk. unfold top_items.
  destruct (_ || _); [simpl; lia|].
  destruct (bool_decide _); [simpl; lia|].
  unfold slice_to, clamp_index. rewrite length_take.
  destruct (top_k <? 0)%Z eqn:E; [apply Z.ltb_lt in E; lia|]. lia.
Qed.

(** C8.  Every similarity score is between 0 and 1, for any two
    character sets and so for every scored pair.  The selected pairs are
    the first of the scored pairs ranked by descending score; the
    ranking keeps the pairs of one score in transcript order, so among
    equal scores the selected ones are the earliest, in that order; and
    with [top_k = 2] at most two pairs are selected. *)
Theorem retrieval_ranking (py : text_ops) (messages : list message)
    (query_text : string) (exclude_last_n : Z) :
  let searchable_history := slice_to (- exclude_last_n) messages in
  let scored := scored_results py messages searchable_history (tokens py query_text) in
  let selected := top_items py messages query_text exclude_last_n RECALL_TOP_K in
  (∀ a b : gset N, 0 ≤ jaccard a b ∧ jaccard a b ≤ 1) ∧
  Forall (λ x, 0 ≤ x.1 ∧ x.1 ≤ 1) scored ∧
  Forall (λ x, 0 ≤ x.1 ∧ x.1 ≤ 1) selected ∧
  selected `prefix_of` sort_desc scored ∧
  sort_desc scored ≡ₚ scored ∧
  StronglySorted (λ x y, y.1 ≤ x.1) (sort_desc scored) ∧
  StronglySorted (λ x y, y.1 ≤ x.1) selected ∧
  (∀ q, filter (λ x, x.1 = q) (sort_desc scored) = filter (λ x, x.1 = q) scored) ∧
  (∀ q, filter (λ x, x.1 = q) selected `prefix_of` filter (λ x, x.1 = q) scored) ∧
  (length selected ≤ 2)%nat.
Proof.
  intros searchable_history scored selected.
  assert (Hpre : selected `prefix_of` sort_desc scored) by apply top_items_prefix.
  assert (Hrange : Forall (λ x, 0 ≤ x.1 ∧ x.1 ≤ 1) scored) by apply scored_results_range.
  split; [apply jaccard_range|]. split; [exact Hrange|]. split.
  { destruct Hpre as [rest Hrest].
    assert (Hall : Forall (λ x, 0 ≤ x.1 ∧ x.1 ≤ 1) (sort_desc scored)).
    { by rewrite sort_desc_perm. }
    rewrite Hrest in Hall. by apply Forall_app in Hall as [Hall _]. }
  split; [exact Hpre|]. split; [apply sort_desc_perm|].
  split; [apply sort_desc_sorted|]. split.
  { eapply StronglySorted_prefix; [exact Hpre|apply sort_desc_sorted]. }
  split; [intros q; apply sort_desc_stable|]. split.
  { intros q. rewrite <- (sort_desc_stable q scored). by apply prefix_filter. }
  pose proof (top_items_length py messages query_text exclude_last_n RECALL_TOP_K) as Hlen.
  fold selected in Hlen. unfold RECALL_TOP_K in Hlen. lia.
Qed.

Local Close Scope Qc_scope.

(** ** The session invariant *)

Lemma growing_ret {A} (a : A) : growing (mret a : M A).
Proof. intros w. done. Qed.

Lemma growing_raise {A} (e : exn) : growing (raise e : M A).
Proof. intros w. done. Qed.

Lemma growing_lift {A} (r : result A) : growing (lift r).
Proof. intros w. done. Qed.

Lemma growing_bind {A B} (m : M A) (k : A → M B) :
  growing m → (∀ a, growing (k a)) → growing (m ≫= k).
Proof.
  intros Hm Hk w. unfold mbind, M_bind.
  specialize (Hm w). destruct (m w) as [[a|e] w1]; [|exact Hm].
  etrans; [exact Hm|]. apply Hk.
Qed.

Lemma growing_try_except {A} (body : M A) (handler : exn → M A) :
  growing body → (∀ e, growing (handler e)) → growing (try_except body handler).
Proof.
  intros Hm Hk w. unfold try_except.
  specialize (Hm w). destruct (body w) as [[a|e] w1]; [exact Hm|].
  etrans; [exact Hm|]. apply Hk.
Qed.

Lemma growing_read_list (r : loc) : growing (read_list r).
Proof. intros w. unfold read_list. by destruct (lists w !! r). Qed.

Lemma growing_new_list (l : list message) : growing (new_list l).
Proof. intros w. simpl. by apply prefix_app_r. Qed.

Lemma growing_call_planner caps inputs : growing (call_planner caps inputs).
Proof. intros w. done. Qed.
Lemma growing_call_model caps inputs : growing (call_model caps inputs).
Proof. intros w. done. Qed.
Lemma growing_call_compressor caps inputs : growing (call_compressor caps inputs).
Proof. intros w. done. Qed.
Lemma growing_clock_isoformat caps : growing (clock_isoformat caps).
Proof. intros w. done. Qed.
Lemma growing_clock_date caps : growing (clock_date caps).
Proof. intros w. done. Qed.
Lemma growing_save_json data path : growing (save_json data path).
Proof. intros w. done. Qed.
Lemma growing_save_text text path : growing (save_text text path).
Proof. intros w. done. Qed.

(** Composite computations are taken apart along their structure. *)
Ltac growing_step :=
  first
    [ apply growing_ret | apply growing_raise | apply growing_lift
    | apply growing_read_list | apply growing_new_list
    | apply growing_call_planner | apply growing_call_model
    | apply growing_call_compressor | apply growing_clock_isoformat
    | apply growing_clock_date | apply growing_save_json | apply growing_save_text
    | apply growing_try_except; [|intros ?]
    | apply growing_bind; [|intros ?]
    | match goal with
      | |- growing (if ?b then _ else _) => destruct b
      | |- growing (match ?x with _ => _ end) => destruct x
      end ].

Lemma growing_build_context py st prompt : growing (build_context py st prompt).
Proof. unfold build_context. repeat growing_step. Qed.

Lemma growing_manage_memory caps st : growing (manage_memory caps st).
Proof. unfold manage_memory. repeat growing_step. Qed.

Lemma growing_save_session caps py st : growing (save_session caps py st).
Proof. unfold save_session. repeat growing_step. Qed.

Lemma growing_run_tool_loop caps py prompt st : growing (_run_tool_loop caps py prompt st).
Proof.
  intros w. destruct (lists w !! messages st) as [msgs|] eqn:Hm.
  - rewrite (run_tool_loop_run caps py prompt st w msgs Hm). cbv zeta.
    destruct (model_with_tools_invoke _ _ _) as [response|e];
      [|by apply prefix_app_r].
    destruct (ai_tool_calls response); [by apply prefix_app_r|].
    destruct (tool_round _ _ _ _ _) as [[[[]|e] qs] ms]; by apply prefix_app_r.
  - unfold _run_tool_loop, build_context, mbind, M_bind, read_list. by rewrite Hm.
Qed.

Lemma growing_analyzer_node caps P st : growing (analyzer_node caps P st).
Proof. unfold analyzer_node. repeat growing_step. Qed.

Lemma growing_tutor_node caps P py st : growing (tutor_node caps P py st).
Proof.
  unfold tutor_node. apply growing_bind; [apply growing_run_tool_loop|].
  intros text. apply growing_ret.
Qed.

Lemma growing_judge_node caps P py st : growing (judge_node caps P py st).
Proof.
  unfold judge_node. apply growing_bind; [apply growing_run_tool_loop|].
  intros text. apply growing_ret.
Qed.

Lemma growing_inquiry_node caps P py st : growing (inquiry_node caps P py st).
Proof.
  unfold inquiry_node. apply growing_bind; [apply growing_build_context|].
  intros r. repeat growing_step.
Qed.

Lemma growing_summary_node caps P py st : growing (summary_node caps P py st).
Proof.
  unfold summary_node. destruct (plan st) as [p|]; [|apply growing_ret].
  destruct (is_concluding p); [|destruct (request_summary p)];
    try apply growing_ret;
    (apply growing_bind; [apply growing_build_context|]; intros r; repeat growing_step).
Qed.

Lemma growing_aggregator_node caps P py st : growing (aggregator_node caps P py st).
Proof.
  unfold aggregator_node.
  apply growing_bind; [apply growing_read_list|]. intros msgs.
  apply growing_bind; [repeat growing_step|]. intros final_response.
  apply growing_bind; [apply growing_new_list|]. intros r.
  apply growing_bind; [apply growing_manage_memory|]. intros [new_summary new_cursor].
  apply growing_bind; [apply growing_save_session|]. intros path.
  repeat growing_step.
Qed.

Lemma growing_apply_update st u : growing (apply_update st u).
Proof. destruct u; simpl; repeat growing_step. Qed.

Lemma growing_apply_delta st d : growing (apply_delta st d).
Proof.
  revert st. induction d as [|u d IH]; intros st; simpl; [apply growing_ret|].
  apply growing_bind; [apply growing_apply_update|]. intros st'. apply IH.
Qed.

Lemma growing_run_node f st : growing (f st) → growing (run_node f st).
Proof.
  intros Hf. unfold run_node. apply growing_bind; [exact Hf|].
  intros d. apply growing_apply_delta.
Qed.

Lemma returns_ret {A} (Q : A → Prop) (a : A) : Q a → returns Q (mret a : M A).
Proof. intros H w a' w' E. by inversion E; subst. Qed.

Lemma returns_bind {A B} (Q : B → Prop) (m : M A) (k : A → M B) :
  (∀ a, returns Q (k a)) → returns Q (m ≫= k).
Proof.
  intros Hk w b w' E. apply bind_inv in E as [(a & w1 & _ & E)|(e & _ & ?)];
    [|discriminate].
  by eapply Hk.
Qed.

(** The nodes before the aggregator return quiet updates. *)
Lemma quiet_analyzer_node caps P st : returns quiet_delta (analyzer_node caps P st).
Proof.
  unfold analyzer_node. apply returns_bind. intros [|m ms].
  - apply returns_ret. constructor.
  - apply returns_bind. intros p. apply returns_ret. by repeat constructor.
Qed.

Lemma quiet_tutor_node caps P py st : returns quiet_delta (tutor_node caps P py st).
Proof.
  unfold tutor_node. apply returns_bind. intros text.
  apply returns_ret. by repeat constructor.
Qed.

Lemma quiet_judge_node caps P py st : returns quiet_delta (judge_node caps P py st).
Proof.
  unfold judge_node. apply returns_bind. intros text.
  apply returns_ret. by repeat constructor.
Qed.

Lemma quiet_inquiry_node caps P py st : returns quiet_delta (inquiry_node caps P py st).
Proof.
  unfold inquiry_node. do 3 (apply returns_bind; intros ?).
  apply returns_ret. by repeat constructor.
Qed.

Lemma quiet_summary_node caps P py st : returns quiet_delta (summary_node caps P py st).
Proof.
  unfold summary_node. destruct (plan st) as [p|]; [|apply returns_ret; constructor].
  destruct (is_concluding p); [|destruct (request_summary p)];
    try (apply returns_ret; constructor);
    do 3 (apply returns_bind; intros ?); apply returns_ret; by repeat constructor.
Qed.

Lemma same_memory_refl st : same_memory st st.
Proof. done. Qed.

Lemma same_memory_trans st1 st2 st3 :
  same_memory st1 st2 → same_memory st2 st3 → same_memory st1 st3.
Proof. intros (?&?&?) (?&?&?). repeat split; congruence. Qed.

Lemma apply_update_quiet st u w :
  quiet_update u → ∃ st', apply_update st u w = (Ok st', w) ∧ same_memory st st'.
Proof. destruct u; simpl; intros H; try done; by eexists. Qed.

Lemma apply_delta_quiet st d w :
  quiet_delta d → ∃ st', apply_delta st d w = (Ok st', w) ∧ same_memory st st'.
Proof.
  intros H. revert st. induction H as [|u d Hu _ IH]; intros st.
  - exists st. done.
  - destruct (apply_update_quiet st u w Hu) as (st1 & E1 & H1).
    destruct (IH st1) as (st2 & E2 & H2).
    exists st2. simpl. rewrite (bind_Ok _ _ _ _ _ E1).
    split; [done|]. by eapply same_memory_trans.
Qed.

Lemma session_inv_same st st' w w' :
  session_inv st w → same_memory st st' → lists w `prefix_of` lists w' →
  session_inv st' w' ∧ get_cursor st' = get_cursor st.
Proof.
  intros (msgs & Hm & Hc) (Hmsg & Hcur & _) Hpre.
  assert (Hcur' : get_cursor st' = get_cursor st) by (unfold get_cursor; by rewrite Hcur).
  split; [|exact Hcur']. exists msgs. rewrite Hmsg, Hcur'. split; [|exact Hc].
  by eapply prefix_lookup_Some.
Qed.

Lemma session_inv_grow st w w' :
  session_inv st w → lists w `prefix_of` lists w' → session_inv st w'.
Proof.
  intros H Hpre. by destruct (session_inv_same st st w w' H (same_memory_refl st) Hpre).
Qed.

(** A quiet node followed by a part that keeps the session keeps it too. *)
Lemma keeps_session_node (f : AgentState → M delta) (k : AgentState → M AgentState) :
  (∀ st, returns quiet_delta (f st)) → (∀ st, growing (f st)) →
  keeps_session k →
  keeps_session (λ st, run_node f st ≫= k).
Proof.
  intros Hq Hg Hk st w r w' Hinv E.
  apply bind_inv in E as [(st1 & w1 & E1 & E)|(e & E1 & ->)].
  - unfold run_node in E1.
    apply bind_inv in E1 as [(d & w0 & Ef & Ed)|(e & _ & ?)]; [|discriminate].
    pose proof (Hg st w) as Hgw. rewrite Ef in Hgw. simpl in Hgw.
    destruct (apply_delta_quiet st d w0 (Hq st w d w0 Ef)) as (st1' & Ed' & Hsame).
    rewrite Ed' in Ed. inversion Ed; subst st1' w1.
    destruct (session_inv_same st st1 w w0 Hinv Hsame Hgw) as [Hinv1 Hcur].
    destruct (Hk st1 w0 r w' Hinv1 E) as [Hpre Hok].
    split; [by etrans|]. intros st' Hr. destruct (Hok st' Hr) as [? ?].
    split; [done|]. lia.
  - split; [|intros; discriminate].
    pose proof (growing_run_node f st (Hg st) w) as Hgw. by rewrite E1 in Hgw.
Qed.

Lemma keeps_session_raise (e : exn) : keeps_session (λ _, raise e).
Proof.
  intros st w r w' _ E. inversion E; subst. split; [done|]. intros; discriminate.
Qed.

(** The cursor the compressor returns: the one it read, or, when it
    fired, the end of the compressed range. *)
Lemma manage_memory_cursor caps st w msgs new_summary new_cursor w' :
  lists w !! messages st = Some msgs →
  manage_memory caps st w = (Ok (new_summary, new_cursor), w') →
  new_cursor = get_cursor st ∨
  (new_cursor = Z.of_nat (length msgs) - KEEP_WINDOW ∧
   COMPRESSION_THRESHOLD ≤ Z.of_nat (length msgs) - get_cursor st).
Proof.
  intros Hm E.
  destruct (Z_lt_le_dec (Z.of_nat (length msgs) - get_cursor st) COMPRESSION_THRESHOLD)
    as [Hlt|Hge].
  - rewrite (manage_memory_idle caps st w msgs Hm Hlt) in E. inversion E. by left.
  - rewrite (manage_memory_fires caps st w msgs Hm Hge) in E. right.
    destruct (llm_invoke _ _ _); inversion E. done.
Qed.

Lemma keeps_session_aggregator caps P py : keeps_session (run_aggregator caps P py).
Proof.
  intros st w r w' Hinv E. unfold run_aggregator, run_node in E.
  pose proof (growing_aggregator_node caps P py st w) as Hgrow.
  apply bind_inv in E as [(d & w1 & Eagg & E)|(e & Eagg & ->)].
  2:{ rewrite Eagg in Hgrow. split; [exact Hgrow|]. intros; discriminate. }
  rewrite Eagg in Hgrow. simpl in Hgrow.
  destruct (aggregator_node_inv caps P py st w d w1 Eagg)
    as (msgs & fr & tmp & ns & nc & wa & wb & path & s & c
        & Hm & Htmp & Hmm & Hsave & Es & Ec & ->).
  destruct Hinv as (msgs' & Hm' & Hrange). rewrite Hm in Hm'. inversion Hm'; subst msgs'.
  assert (Hm1 : lists w1 !! messages st = Some msgs) by by eapply prefix_lookup_Some.
  cbn [apply_delta apply_update] in E.
  unfold mbind, M_bind, read_list, new_list, mret, M_ret in E. rewrite Hm1 in E.
  inversion E; subst r w'. clear E.
  split; [cbn [lists set_lists]; etrans; [exact Hgrow|by apply prefix_app_r]|].
  intros st' Hst'. inversion Hst'; subst st'. clear Hst'.
  assert (Hc : get_cursor st ≤ c ≤ Z.of_nat (length (msgs ++ [fr]))).
  { rewrite length_app. simpl.
    destruct (state_to_save_cursor st (set_messages st tmp) ns nc) as [Hsame Hdiff].
    destruct (decide (ns = get_summary st)) as [Heq|Hne].
    - rewrite (Hsame Heq) in Ec. simpl in Ec.
      unfold get_cursor in *. rewrite Ec in *. simpl in *. lia.
    - destruct (Hdiff Hne) as [Ec' _]. rewrite Ec' in Ec. inversion Ec; subst c.
      destruct (manage_memory_cursor caps (set_messages st tmp) wa (msgs ++ [fr])
                  ns nc wb Htmp Hmm) as [->|[-> Hfire]].
      + change (get_cursor (set_messages st tmp)) with (get_cursor st). lia.
      + change (get_cursor (set_messages st tmp)) with (get_cursor st) in Hfire.
        rewrite length_app in Hfire. simpl in Hfire. rewrite length_app. simpl.
        unfold KEEP_WINDOW, COMPRESSION_THRESHOLD in *. lia. }
  split; [|exact (proj1 Hc)].
  exists (msgs ++ [fr]). split.
  - cbn [messages set_summarized_msg_count set_conversation_summary set_messages
         lists set_lists].
    by rewrite lookup_app_r, Nat.sub_diag.
  - change (get_cursor _) with c. lia.
Qed.

Lemma keeps_session_inquiry caps P py : keeps_session (run_inquiry caps P py).
Proof.
  apply (keeps_session_node (inquiry_node caps P py) (run_aggregator caps P py)).
  - intros st. apply quiet_inquiry_node.
  - intros st. apply growing_inquiry_node.
  - apply keeps_session_aggregator.
Qed.

Lemma keeps_session_summary caps P py : keeps_session (run_summary caps P py).
Proof.
  apply (keeps_session_node (summary_node caps P py) (run_aggregator caps P py)).
  - intros st. apply quiet_summary_node.
  - intros st. apply growing_summary_node.
  - apply keeps_session_aggregator.
Qed.

Lemma keeps_session_judge caps P py : keeps_session (run_judge caps P py).
Proof.
  apply (keeps_session_node (judge_node caps P py)).
  - intros st. apply quiet_judge_node.
  - intros st. apply growing_judge_node.
  - intros st w r w' Hinv E. unfold mbind, M_bind, lift in E.
    destruct (route_from_judge st) as [[]|e];
      try (by eapply keeps_session_raise);
      [by eapply keeps_session_inquiry|by eapply keeps_session_aggregator].
Qed.

Lemma keeps_session_tutor caps P py : keeps_session (run_tutor caps P py).
Proof.
  apply (keeps_session_node (tutor_node caps P py)).
  - intros st. apply quiet_tutor_node.
  - intros st. apply growing_tutor_node.
  - intros st w r w' Hinv E. unfold mbind, M_bind, lift in E.
    destruct (route_from_tutor st) as [[]|e];
      try (by eapply keeps_session_raise);
      [by eapply keeps_session_judge|by eapply keeps_session_inquiry
      |by eapply keeps_session_aggregator].
Qed.

Lemma keeps_session_graph caps P py : keeps_session (graph_invoke caps P py).
Proof.
  apply (keeps_session_node (analyzer_node caps P)).
  - intros st. apply quiet_analyzer_node.
  - intros st. apply growing_analyzer_node.
  - intros st w r w' Hinv E.
    destruct (route_from_analyzer st);
      [by eapply keeps_session_raise|by eapply keeps_session_tutor
      |by eapply keeps_session_judge|by eapply keeps_session_inquiry
      |by eapply keeps_session_summary|by eapply keeps_session_aggregator].
Qed.

Lemma session_step_inv caps P py st user_input w st' w' :
  session_inv st w →
  session_step caps P py st user_input w = (st', w') →
  session_inv st' w' ∧ get_cursor st ≤ get_cursor st'.
Proof.
  intros (msgs & Hm & Hc) E. unfold session_step, turn in E.
  rewrite (bind_Ok _ _ _ _ _ (list_append_run _ (HumanMessage user_input) _ _ Hm)) in E.
  set (w1 := set_lists w _) in E.
  assert (Hinv1 : session_inv st w1).
  { exists (msgs ++ [HumanMessage user_input]). split.
    - simpl. apply list_lookup_insert_eq. by eapply lookup_lt_Some.
    - rewrite length_app. simpl. lia. }
  destruct (graph_invoke caps P py st w1) as [r w2] eqn:Eg.
  destruct (keeps_session_graph caps P py st w1 r w2 Hinv1 Eg) as [Hpre Hok].
  destruct r as [st2|e]; inversion E; subst st' w'.
  - by apply Hok.
  - split; [|lia]. by eapply session_inv_grow.
Qed.

Lemma run_session_inv caps P py inputs st w :
  session_inv st w →
  session_inv (run_session caps P py st inputs w).1 (run_session caps P py st inputs w).2 ∧
  get_cursor st ≤ get_cursor (run_session caps P py st inputs w).1.
Proof.
  revert st w. induction inputs as [|u inputs IH]; intros st w Hinv.
  { simpl. split; [done|lia]. }
  cbn [run_session].
  destruct (session_step caps P py st u w) as [st1 w1] eqn:E.
  destruct (session_step_inv caps P py st u w st1 w1 Hinv E) as [Hinv1 Hle].
  destruct (IH st1 w1 Hinv1) as [Hinv2 Hle2]. split; [done|lia].
Qed.

Lemma new_session_inv sid w st w' :
  new_session sid w = (Ok st, w') → session_inv st w'.
Proof.
  intros E. unfold new_session, mbind, M_bind, new_list, mret, M_ret in E.
  inversion E; subst. exists []. split.
  - simpl. by rewrite lookup_app_r, Nat.sub_diag.
  - cbn. lia.
Qed.

Lemma simulation_session_inv w st w' :
  simulation_session w = (Ok st, w') → session_inv st w'.
Proof.
  intros E. unfold simulation_session, mbind, M_bind, new_list, mret, M_ret in E.
  inversion E; subst. exists []. split.
  - simpl. by rewrite lookup_app_r, Nat.sub_diag.
  - cbn. lia.
Qed.

Lemma load_session_inv sid w st w' :
  load_session sid w = (Ok (Some st), w') → session_inv st w'.
Proof.
  intros E. unfold load_session in E.
  bind_ok E as path w0 Hpath.
  bind_ok E as loaded w1 Hload.
  destruct loaded as [data|]; [|inversion E].
  bind_ok E as msgs w2 Hmsgs.
  bind_ok E as r w3 Hnew.
  inversion E; subst st w'. clear E.
  apply new_list_inv in Hnew as (Hr & Hl & _). inversion Hr; subst r.
  exists msgs. split.
  - cbn [messages]. rewrite Hl. by rewrite lookup_app_r, Nat.sub_diag.
  - cbn. lia.
Qed.

Lemma reachable_inv caps P py st w :
  reachable caps P py st w → session_inv st w.
Proof.
  induction 1 as [sid w st w' E|w st w' E|sid w st w' E|st w u st' w' _ IH E].
  - by eapply new_session_inv.
  - by eapply simulation_session_inv.
  - by eapply load_session_inv.
  - by destruct (session_step_inv caps P py st u w st' w' IH E).
Qed.

(** C7.  In every state a session can reach, the cursor (0 when the key
    is missing) lies between 0 and the length of the transcript; and
    from such a state, over any further turns, returning or raising, the
    cursor never goes back. *)
Theorem cursor_invariant (caps : capabilities) (P : prompt_table) (py : text_ops)
    (st : AgentState) (w : world) :
  reachable caps P py st w →
  (∃ msgs, lists w !! messages st = Some msgs ∧
           0 ≤ get_cursor st ≤ Z.of_nat (length msgs)) ∧
  (∀ user_input,
     get_cursor st ≤ get_cursor (session_step caps P py st user_input w).1 ∧
     reachable caps P py (session_step caps P py st user_input w).1
                         (session_step caps P py st user_input w).2) ∧
  (∀ inputs, get_cursor st ≤ get_cursor (run_session caps P py st inputs w).1).
Proof.
  intros Hreach. pose proof (reachable_inv caps P py st w Hreach) as Hinv.
  split; [exact Hinv|]. split.
  - intros u. destruct (session_step caps P py st u w) as [st1 w1] eqn:E.
    split; [by destruct (session_step_inv caps P py st u w st1 w1 Hinv E)|].
    by eapply reach_turn.
  - intros inputs. by destruct (run_session_inv caps P py inputs st w Hinv).
Qed.

Lemma cursor_invariant_witness :
  (∃ msgs, lists (new_session "s1" empty_world).2 !! messages fresh_state = Some msgs ∧
           0 ≤ get_cursor fresh_state ≤ Z.of_nat (length msgs)) ∧
  (∀ inputs,
     get_cursor fresh_state
     ≤ get_cursor
         (run_session summarizing_caps sample_prompts ascii_text_ops fresh_state
            inputs (new_session "s1" empty_world).2).1).
Proof.
  destruct (cursor_invariant summarizing_caps sample_prompts ascii_text_ops
              fresh_state (new_session "s1" empty_world).2
              (reach_new _ _ _ "s1" empty_world _ _ eq_refl))
    as (Hinv & _ & Hmono).
  split; [exact Hinv|exact Hmono].
Defined.

(** Eight turns of a session whose compressor answers: the transcript
    reaches sixteen messages and the cursor moves from 0 to 11. *)
Example eight_turns :
  let run := run_session summarizing_caps sample_prompts ascii_text_ops fresh_state
               (replicate 8 "why?") (new_session "s1" empty_world).2 in
  get_cursor run.1 = 11 ∧
  length <$> (lists run.2 !! messages run.1) = Some 16%nat ∧
  conversation_summary run.1 = Some (Some "they asked why, eight times").
Proof. vm_compute. done. Qed.

(** A retrieval with a tie: the exact match comes first, and of the two
    questions with the score 3/4 the earlier one is kept. *)
Example retrieval_with_tie :
  map snd (top_items ascii_text_ops recall_messages "abcd" DISPLAY_WINDOW RECALL_TOP_K)
  = ["User: ABCD" +:+ nl +:+ "AI: three"; "User: abc" +:+ nl +:+ "AI: one"] ∧
  map (λ x, bool_decide (x.1 = Q2Qc (3 # 4)))
      (scored_results ascii_text_ops recall_messages
         (slice_to (- DISPLAY_WINDOW) recall_messages) (tokens ascii_text_ops "abcd"))
  = [true; true; false].
Proof. vm_compute. done. Qed.

(** ** Decision points *)

(** What the tutor and the judge return to the graph: their own key. *)
Lemma run_tutor_node_inv caps P py st w st1 w1 :
  run_node (tutor_node caps P py) st w = (Ok st1, w1) →
  ∃ text, st1 = set_tutor_output st (Some text) ∧ lists w `prefix_of` lists w1.
Proof.
  intros E. pose proof (growing_run_node _ st (growing_tutor_node caps P py st) w) as Hg.
  rewrite E in Hg. unfold run_node, tutor_node in E.
  bind_ok E as d w0 Hd. bind_ok Hd as text w2 Htext.
  inversion Hd; subst d w2. simpl in E. inversion E; subst. by exists text.
Qed.

Lemma run_judge_node_inv caps P py st w st1 w1 :
  run_node (judge_node caps P py) st w = (Ok st1, w1) →
  ∃ text, st1 = set_judge_output st (Some text) ∧ lists w `prefix_of` lists w1.
Proof.
  intros E. pose proof (growing_run_node _ st (growing_judge_node caps P py st) w) as Hg.
  rewrite E in Hg. unfold run_node, judge_node in E.
  bind_ok E as d w0 Hd. bind_ok Hd as text w2 Htext.
  inversion Hd; subst d w2. simpl in E. inversion E; subst. by exists text.
Qed.




(** A decision point after tutoring, evaluated: the planner asked for
    an answer and a review, the tutor ran, and the router reads the plan
    the planner wrote. *)
Example decision_after_tutoring :
  ∃ st, at_decision cascading_caps sample_prompts ascii_text_ops FromTutoring st ∧
        plan st = Some full_plan ∧ router FromTutoring st = Ok Judge.
Proof.
  eexists. split.
  - eapply at_tutoring with (w := (new_session "s1" empty_world).2).
    + eapply at_planning with (st := fresh_state) (w := one_question_world).
      vm_compute. reflexivity.
    + reflexivity.
    + vm_compute. reflexivity.
  - split; reflexivity.
Qed.

(** * Further properties of the code *)

(** ** Retrieval: what is searched and when the result is empty *)

Lemma slice_to_exclude {A} (n : Z) (l : list A) :
  0 ≤ n →
  ∃ k, slice_to (- n) l = take k l ∧ Z.of_nat k ≤ Z.max 0 (Z.of_nat (length l) - n).
Proof.
  intros Hn. unfold slice_to, clamp_index.
  eexists. split; [reflexivity|].
  destruct (- n <? 0) eqn:E.
  - apply Z.ltb_lt in E. lia.
  - apply Z.ltb_ge in E. lia.
Qed.

Lemma candidate_anchor (py : text_ops) (messages searchable_history : list message)
    (query_tokens : gset N) (i : nat) (x : Qc * string) :
  x ∈ candidate py messages searchable_history query_tokens i →
  ∃ text,
    searchable_history !! i = Some (HumanMessage text) ∧
    x.1 = jaccard query_tokens (tokens py text) ∧
    (score_threshold < x.1)%Qc ∧
    (x.2 = pair_text_of text None ∨
     ∃ a, searchable_history !! (i + 1)%nat = Some (AIMessage a) ∧
          x.2 = pair_text_of text (Some a)).
Proof.
  unfold candidate.
  destruct (searchable_history !! i) as [[text|?|?|? ? ?]|]; try by intros ?%elem_of_nil.
  destruct (bool_decide (_ = ∅)); [by intros ?%elem_of_nil|].
  destruct (bool_decide (score_threshold < _)%Qc) eqn:Hs; [|by intros ?%elem_of_nil].
  apply bool_decide_eq_true in Hs.
  intros Hx%list_elem_of_singleton. subst x. exists text. cbn [fst snd].
  split; [done|]. split; [done|]. split; [done|].
  destruct (bool_decide (i + 1 < length messages)%nat); [|by left].
  destruct (searchable_history !! (i + 1)%nat) as [[?|a|?|? ? ?]|]; try by left.
  right. by exists a.
Qed.

(** X1.  With a non-negative exclusion count, every selected pair is
    anchored at a user message that lies before the last
    [exclude_last_n] messages of the transcript; its score is the
    Jaccard index of the query and that message and is above 0.05; and
    the answer attached to it, if any, is the assistant message right
    after the anchor, also before the excluded window. *)
Theorem retrieval_excludes_recent (py : text_ops) (messages : list message)
    (query_text : string) (exclude_last_n top_k : Z) :
  0 ≤ exclude_last_n →
  Forall (λ x : Qc * string,
            ∃ (i : nat) text,
              Z.of_nat i < Z.of_nat (length messages) - exclude_last_n ∧
              messages !! i = Some (HumanMessage text) ∧
              x.1 = jaccard (tokens py query_text) (tokens py text) ∧
              (score_threshold < x.1)%Qc ∧
              (x.2 = pair_text_of text None ∨
               ∃ a, Z.of_nat (i + 1) < Z.of_nat (length messages) - exclude_last_n ∧
                    messages !! (i + 1)%nat = Some (AIMessage a) ∧
                    x.2 = pair_text_of text (Some a)))
         (top_items py messages query_text exclude_last_n top_k).
Proof.
  intros Hn. apply Forall_forall. intros x Hx.
  destruct (top_items_prefix py messages query_text exclude_last_n top_k) as [rest Hrest].
  assert (Hin : x ∈ scored_results py messages (slice_to (- exclude_last_n) messages)
                      (tokens py query_text)).
  { rewrite <- sort_desc_perm, Hrest. apply elem_of_app. by left. }
  destruct (slice_to_exclude exclude_last_n messages Hn) as (k & Hk & Hle).
  rewrite Hk in Hin. unfold scored_results in Hin.
  apply list_elem_of_In, in_flat_map in Hin as (i & _ & Hi).
  apply list_elem_of_In, candidate_anchor in Hi as (text & Hanchor & Hscore & Hthr & Hpair).
  apply lookup_take_Some in Hanchor as [Hmsg Hlt].
  exists i, text. split; [lia|]. split; [done|]. split; [done|]. split; [done|].
  destruct Hpair as [Hp|(a & Hnext & Hp)]; [by left|].
  apply lookup_take_Some in Hnext as [Hmsg' Hlt'].
  right. exists a. split; [lia|]. done.
Qed.

Lemma retrieval_excludes_recent_witness :
  Forall (λ x : Qc * string,
            ∃ (i : nat) text,
              Z.of_nat i < Z.of_nat (length recall_messages) - DISPLAY_WINDOW ∧
              recall_messages !! i = Some (HumanMessage text) ∧
              x.1 = jaccard (tokens ascii_text_ops "abcd") (tokens ascii_text_ops text) ∧
              (score_threshold < x.1)%Qc ∧
              (x.2 = pair_text_of text None ∨
               ∃ a, Z.of_nat (i + 1) < Z.of_nat (length recall_messages) - DISPLAY_WINDOW ∧
                    recall_messages !! (i + 1)%nat = Some (AIMessage a) ∧
                    x.2 = pair_text_of text (Some a)))
         (top_items ascii_text_ops recall_messages "abcd" DISPLAY_WINDOW RECALL_TOP_K).
Proof.
  apply (retrieval_excludes_recent ascii_text_ops recall_messages "abcd"
           DISPLAY_WINDOW RECALL_TOP_K).
  vm_compute. discriminate.
Defined.

Lemma format_items_empty (py : text_ops) (idx : nat) (items : list (Qc * string)) :
  format_items py idx items = EmptyString ↔ items = [].
Proof.
  split; [|by intros ->].
  destruct items as [|[score text] items]; [done|].
  cbn [format_items]. discriminate.
Qed.

(** X2.  The retrieved block is the empty string exactly when no pair is
    selected; this is the case for an empty query, for a transcript no
    longer than the excluded window, and when no user message of the
    searched range scores above the threshold. *)
Theorem retrieval_empty (py : text_ops) (messages : list message)
    (query_text : string) (exclude_last_n top_k : Z) :
  (retrieve_relevant_messages py messages query_text exclude_last_n top_k = EmptyString
     ↔ top_items py messages query_text exclude_last_n top_k = []) ∧
  (query_text = EmptyString ∨ Z.of_nat (length messages) ≤ exclude_last_n →
     retrieve_relevant_messages py messages query_text exclude_last_n top_k = EmptyString) ∧
  (scored_results py messages (slice_to (- exclude_last_n) messages) (tokens py query_text) = [] →
     retrieve_relevant_messages py messages query_text exclude_last_n top_k = EmptyString).
Proof.
  unfold retrieve_relevant_messages. split; [apply format_items_empty|]. split.
  - intros H. apply format_items_empty. unfold top_items.
    destruct H as [->|H]; [done|].
    rewrite (bool_decide_eq_true_2 _ H). by rewrite orb_true_r.
  - intros H. apply format_items_empty.
    pose proof (top_items_prefix py messages query_text exclude_last_n top_k) as Hpre.
    rewrite H in Hpre. simpl in Hpre. by apply prefix_nil_inv in Hpre.
Qed.

(** ** Context assembler *)

Lemma slice_from_window {A} (n : Z) (l : list A) :
  0 < n → slice_from (- n) l = drop (length l - Z.to_nat n) l.
Proof.
  intros Hn. unfold slice_from, clamp_index.
  destruct (- n <? 0) eqn:E; [|apply Z.ltb_ge in E; lia].
  f_equal. lia.
Qed.

Lemma context_messages_split (py : text_ops) (st : AgentState) (msgs : list message)
    (system_prompt : string) :
  context_messages py st msgs system_prompt
  = SystemMessage system_prompt
      :: (summary_entry st ++ recall_entry py msgs) ++ drop (length msgs - 12) msgs.
Proof.
  unfold context_messages, summary_entry, recall_entry.
  rewrite (slice_from_window DISPLAY_WINDOW) by done.
  change (Z.to_nat DISPLAY_WINDOW) with 12%nat. cbv zeta.
  generalize (drop (length msgs - 12) msgs). intros recent.
  destruct (get_summary st) as [summary|]; [destruct (truthy (Some summary))|];
    (destruct (last msgs) as [[q|?|?|? ? ?]|];
     [destruct (truthy (Some (retrieve_relevant_messages py msgs q
                                DISPLAY_WINDOW RECALL_TOP_K)))|..]);
    cbn [app]; reflexivity.
Qed.

Lemma summary_entry_shape (st : AgentState) :
  (length (summary_entry st) ≤ 1)%nat ∧
  Forall (λ m, is_system m = true) (summary_entry st) ∧
  (truthy (get_summary st) = false → summary_entry st = []).
Proof.
  unfold summary_entry. destruct (get_summary st) as [summary|].
  - destruct (truthy (Some summary)).
    + split; [simpl; lia|]. split; [by repeat constructor|done].
    + split; [simpl; lia|]. split; [constructor|done].
  - split; [simpl; lia|]. split; [constructor|done].
Qed.

Lemma recall_entry_shape (py : text_ops) (msgs : list message) :
  (length (recall_entry py msgs) ≤ 1)%nat ∧
  Forall (λ m, is_system m = true) (recall_entry py msgs) ∧
  ((∀ q, last msgs ≠ Some (HumanMessage q)) → recall_entry py msgs = []).
Proof.
  unfold recall_entry.
  destruct (last msgs) as [[q|?|?|? ? ?]|];
    try (split; [simpl; lia|]; split; [constructor|done]).
  destruct (truthy (Some (retrieve_relevant_messages py msgs q
                            DISPLAY_WINDOW RECALL_TOP_K))).
  - split; [simpl; lia|]. split; [by repeat constructor|]. intros H. by destruct (H q).
  - split; [simpl; lia|]. split; [constructor|done].
Qed.

(** X3.  The assembled context starts with the instruction, ends with
    the last twelve transcript messages (all of them when there are
    fewer) whatever the cursor is, and has at most two entries in
    between, both system messages: at most fifteen messages in all.
    With no summary and a transcript not ending in a user message there
    is nothing in between. *)
Theorem context_shape (py : text_ops) (st : AgentState) (msgs : list message)
    (system_prompt : string) :
  ∃ extras,
    context_messages py st msgs system_prompt
      = SystemMessage system_prompt :: extras ++ drop (length msgs - 12) msgs ∧
    (length extras ≤ 2)%nat ∧
    Forall (λ m, is_system m = true) extras ∧
    (length (context_messages py st msgs system_prompt) ≤ 15)%nat ∧
    (truthy (get_summary st) = false →
     (∀ q, last msgs ≠ Some (HumanMessage q)) → extras = []).
Proof.
  destruct (summary_entry_shape st) as (Hs1 & Hs2 & Hs3).
  destruct (recall_entry_shape py msgs) as (Hr1 & Hr2 & Hr3).
  exists (summary_entry st ++ recall_entry py msgs).
  split; [apply context_messages_split|].
  split; [rewrite length_app; lia|].
  split; [by apply Forall_app|]. split.
  - rewrite context_messages_split. cbn [length].
    rewrite !length_app, length_drop. lia.
  - intros H1 H2. by rewrite (Hs3 H1), (Hr3 H2).
Qed.

(** ** Search tool *)

(** X4.  The search function never raises and sends exactly one request:
    a failed request gives the error string, an answer without
    references (key missing or list empty) gives the fixed no-result
    text, and otherwise the formatted references are joined by the
    separator line.  The tool wrapper raises on arguments without a
    [query], before any request is sent. *)
Theorem search_tool_total (caps : capabilities) (query : string)
    (args : list (string * string)) (w : world) :
  (∃ s,
     api_baidu_search caps query w = (Ok s, log w (CallSearch query)) ∧
     (∀ e, requests_post caps (trace w) query = Raise e →
           s = "Error connecting to Baidu Search: " +:+ str_exn e) ∧
     (∀ data, requests_post caps (trace w) query = Ok data →
              references data = None ∨ references data = Some [] →
              s = "No relevant search results found.") ∧
     (∀ data item items, requests_post caps (trace w) query = Ok data →
              references data = Some (item :: items) →
              s = str_join (nl +:+ "---" +:+ nl) (map format_reference (item :: items)))) ∧
  (dict_get "query" args = None →
     search_tool_invoke caps args w = (Raise (ValidationError "query"), w)) ∧
  (dict_get "query" args = Some query →
     search_tool_invoke caps args w = api_baidu_search caps query w).
Proof.
  split; [|split].
  - exists (search_result (requests_post caps (trace w) query)).
    split; [apply api_baidu_search_run|].
    split; [by intros e ->|]. split.
    + intros data -> [H|H]; simpl; by rewrite H.
    + intros data item items -> H. simpl. by rewrite H.
  - intros H. unfold search_tool_invoke. by rewrite H.
  - intros H. unfold search_tool_invoke. by rewrite H.
Qed.

(** ** Session store: effects and edge cases *)



(** [save_session] on a state with a session id, step by step. *)
Lemma save_session_run (caps : capabilities) (py : text_ops) (st : AgentState)
    (w : world) (sid : string) (msgs : list message) :
  session_id st = Some sid → sid ≠ EmptyString →
  lists w !! messages st = Some msgs →
  let data := mk_session_data sid (now_isoformat caps (trace w))
                (default "General" (current_topic st)) (get_summary st)
                (messages_to_dict msgs) in
  let w1 := set_session w (session_file sid) data in
  save_session caps py st w
  = (Ok (session_file sid),
     if should_exit st && truthy (summary_output st) then
       set_note w1 (_get_note_path py sid (current_topic st))
         (note_header sid (now_date caps (trace w)) (default "General" (current_topic st))
            +:+ default EmptyString (summary_output st))
     else w1).
Proof.
  intros Hsid Hne Hm data w1. unfold save_session.
  rewrite Hsid, (truthy_Some _ Hne). simpl default.
  rewrite (bind_Ok _ _ _ _ _ (read_list_Some _ _ _ Hm)).
  unfold mbind at 1, M_bind at 1, clock_isoformat.
  unfold mbind at 1, M_bind at 1, lift. rewrite (get_session_path_Ok _ Hne).
  unfold mbind at 1, M_bind at 1, save_json.
  fold (session_file sid). fold data. fold w1.
  by destruct (should_exit st && truthy (summary_output st)).
Qed.



(** [load_session] under a non-empty id, as a function of the store. *)
Lemma load_session_run (sid : string) (w : world) :
  sid ≠ EmptyString →
  load_session sid w
  = match sessions w !! session_file sid with
    | None => (Ok None, w)
    | Some data =>
        match messages_from_dict (sd_messages data) with
        | Ok msgs =>
            (Ok (Some (mk_state (length (lists w)) (Some (sd_topic data))
                         (Some (sd_session_id data))
                         (Some (sd_conversation_summary data)) None None false
                         None None None None None)),
             set_lists w (lists w ++ [msgs]))
        | Raise e => (Raise e, w)
        end
    end.
Proof.
  intros Hne.
  unfold load_session, mbind, M_bind, mret, M_ret, lift, try_except, load_json.
  rewrite (get_session_path_Ok _ Hne). fold (session_file sid).
  destruct (sessions w !! session_file sid) as [data|]; [|reflexivity].
  by destruct (messages_from_dict (sd_messages data)).
Qed.

(** X6.  [load_session] never writes a file or logs a call.  An empty id
    raises [ValueError]; an id with no session file gives [None] and
    leaves the world as it was; a file with a message of an unknown
    class raises instead of giving [None]; and a loaded state carries
    the stored transcript in a new list object, with no cursor, no plan
    and no scratch output. *)
Theorem load_session_edges (sid : string) (w : world) :
  sessions (load_session sid w).2 = sessions w ∧
  notes (load_session sid w).2 = notes w ∧
  trace (load_session sid w).2 = trace w ∧
  lists w `prefix_of` lists (load_session sid w).2 ∧
  (sid = EmptyString →
     load_session sid w = (Raise (ValueError "Session ID cannot be empty"), w)) ∧
  (sid ≠ EmptyString → sessions w !! session_file sid = None →
     load_session sid w = (Ok None, w)) ∧
  (∀ data e, sid ≠ EmptyString → sessions w !! session_file sid = Some data →
     messages_from_dict (sd_messages data) = Raise e →
     load_session sid w = (Raise e, w)) ∧
  (∀ st, (load_session sid w).1 = Ok (Some st) →
     ∃ data msgs,
       sessions w !! session_file sid = Some data ∧
       messages_from_dict (sd_messages data) = Ok msgs ∧
       messages st = length (lists w) ∧
       lists (load_session sid w).2 !! messages st = Some msgs ∧
       get_summary st = sd_conversation_summary data ∧
       summarized_msg_count st = None ∧ plan st = None ∧ should_exit st = false ∧
       tutor_output st = None ∧ judge_output st = None ∧
       inquiry_output st = None ∧ summary_output st = None).
Proof.
  destruct (decide (sid = EmptyString)) as [->|Hne].
  { assert (H : load_session EmptyString w
                = (Raise (ValueError "Session ID cannot be empty"), w)) by reflexivity.
    rewrite H. cbn [fst snd]. repeat split; try done; intros; discriminate. }
  rewrite (load_session_run sid w Hne).
  destruct (sessions w !! session_file sid) as [data|] eqn:Hfile.
  2:{ cbn [fst snd]. repeat split; try done; intros; discriminate. }
  destruct (messages_from_dict (sd_messages data)) as [msgs|e] eqn:Hmsgs; cbn [fst snd].
  - split; [done|]. split; [done|]. split; [done|].
    split; [by apply prefix_app_r|]. split; [done|]. split; [done|]. split.
    { intros data' e' _ Hd He. inversion Hd; subst data'. congruence. }
    intros st Hst. inversion Hst; subst st. exists data, msgs.
    split; [done|]. split; [done|]. split; [done|]. split; [|done].
    cbn [messages lists set_lists]. by rewrite lookup_app_r, Nat.sub_diag.
  - split; [done|]. split; [done|]. split; [done|]. split; [done|].
    split; [done|]. split; [done|]. split.
    { intros data' e' _ Hd He. inversion Hd; subst data'. congruence. }
    intros st Hst. discriminate.
Qed.

(** A file written by hand with the class tag "robot": loading raises. *)
Example load_corrupt_session :
  load_session "s9" (set_session empty_world (session_file "s9") corrupt_session)
  = (Raise (ValueError "Got unexpected message type"),
     set_session empty_world (session_file "s9") corrupt_session).
Proof. vm_compute. reflexivity. Qed.



(** ** One turn of the graph, node by node *)

(** The planner's step on a non-empty transcript: it returns only when
    the structured decode did, with that plan. *)
Lemma run_analyzer_inv (caps : capabilities) (P : prompt_table) (st : AgentState)
    (w : world) (msgs : list message) (st1 : AgentState) (w1 : world) :
  lists w !! messages st = Some msgs → msgs ≠ [] →
  run_node (analyzer_node caps P) st w = (Ok st1, w1) →
  ∃ p, planner_invoke caps (trace w) (analyzer_inputs P st msgs) = Ok p ∧
       w1 = log w (CallPlanner (analyzer_inputs P st msgs)) ∧
       st1 = planned_state st p.
Proof.
  intros Hm Hne E. unfold run_node in E. bind_ok E as d w0 Hd.
  unfold analyzer_node in Hd.
  rewrite (bind_Ok _ _ _ _ _ (read_list_Some _ _ _ Hm)) in Hd.
  destruct msgs as [|m ms]; [done|].
  unfold mbind, M_bind, try_except, call_planner, lift, mret, M_ret in Hd.
  destruct (planner_invoke caps (trace w) (analyzer_inputs P st (m :: ms))) as [p|e].
  - exists p. split; [done|]. inversion Hd; subst d w0. simpl in E. by inversion E.
  - simpl in Hd. discriminate.
Qed.

Lemma run_inquiry_node_inv caps P py st w st1 w1 :
  run_node (inquiry_node caps P py) st w = (Ok st1, w1) →
  ∃ text, st1 = set_inquiry_output st (Some text) ∧ lists w `prefix_of` lists w1.
Proof.
  intros E. pose proof (growing_run_node _ st (growing_inquiry_node caps P py st) w) as Hg.
  rewrite E in Hg. unfold run_node, inquiry_node in E.
  bind_ok E as d w0 Hd. bind_ok Hd as r w2 Hr. bind_ok Hd as inputs w3 Hin.
  bind_ok Hd as response w4 Hresp.
  inversion Hd; subst d w4. simpl in E. inversion E; subst.
  by exists (ai_content response).
Qed.

Lemma run_summary_node_inv caps P py st w st1 w1 :
  run_node (summary_node caps P py) st w = (Ok st1, w1) →
  lists w `prefix_of` lists w1 ∧
  match plan st with
  | Some p =>
      if is_concluding p then
        ∃ text, st1 = set_should_exit (set_summary_output st (Some text)) true
      else if request_summary p then
        ∃ text, st1 = set_summary_output st (Some text)
      else st1 = st ∧ w1 = w
  | None => st1 = st ∧ w1 = w
  end.
Proof.
  intros E. pose proof (growing_run_node _ st (growing_summary_node caps P py st) w) as Hg.
  rewrite E in Hg. split; [exact Hg|]. unfold run_node, summary_node in E.
  destruct (plan st) as [p|]; [|simpl in E; by inversion E].
  destruct (is_concluding p); [|destruct (request_summary p)].
  - bind_ok E as d w0 Hd. bind_ok Hd as r w2 Hr. bind_ok Hd as inputs w3 Hin.
    bind_ok Hd as response w4 Hresp.
    inversion Hd; subst d w4. simpl in E. inversion E; subst.
    by exists (ai_content response).
  - bind_ok E as d w0 Hd. bind_ok Hd as r w2 Hr. bind_ok Hd as inputs w3 Hin.
    bind_ok Hd as response w4 Hresp.
    inversion Hd; subst d w4. simpl in E. inversion E; subst.
    by exists (ai_content response).
  - simpl in E. by inversion E.
Qed.

(** The reply of the aggregator, case by case. *)
Lemma aggregator_reply_run (caps : capabilities) (P : prompt_table) (st : AgentState)
    (msgs : list message) (w : world) :
  aggregator_reply caps P st msgs w
  = if should_exit st then
      (Ok (ai_text (or_default (summary_output st) EmptyString)), w)
    else if all_outputs_empty st then (Ok (ai_text clarification_text), w)
    else
      (match model_invoke caps (trace w) (aggregator_inputs P st msgs) with
       | Ok response => Ok (AIMessage response)
       | Raise e => Raise e
       end, log w (CallModel (aggregator_inputs P st msgs))).
Proof.
  unfold aggregator_reply, all_outputs_empty, aggregator_inputs. cbv zeta.
  destruct (should_exit st); [reflexivity|].
  destruct (forallb _ _); [reflexivity|].
  unfold mbind, M_bind, call_model.
  destruct (last msgs) as [m|]; cbn [app];
    by destruct (model_invoke caps (trace w) _).
Qed.

Lemma aggregator_reply_inv (caps : capabilities) (P : prompt_table) (st : AgentState)
    (msgs : list message) (w : world) (fr : message) (w0 : world) :
  aggregator_reply caps P st msgs w = (Ok fr, w0) →
  ∃ reply, fr = AIMessage reply ∧ lists w0 = lists w ∧
           sessions w0 = sessions w ∧ notes w0 = notes w.
Proof.
  rewrite aggregator_reply_run.
  destruct (should_exit st); [intros E; inversion E; by eexists|].
  destruct (all_outputs_empty st); [intros E; inversion E; by eexists|].
  destruct (model_invoke _ _ _) as [response|e]; intros E; inversion E.
  by exists response.
Qed.

Lemma manage_memory_frame caps st w r w' :
  manage_memory caps st w = (r, w') →
  lists w' = lists w ∧ sessions w' = sessions w ∧ notes w' = notes w.
Proof.
  unfold manage_memory, read_list, mbind, M_bind, call_compressor, mret, M_ret.
  destruct (lists w !! messages st); [|intros E; by inversion E].
  destruct (bool_decide _); [intros E; by inversion E|].
  destruct (bool_decide _); [intros E; by inversion E|].
  destruct (llm_invoke _ _ _); intros E; by inversion E.
Qed.

(** The steps of a returning aggregator, with the reply named. *)
Lemma aggregator_steps (caps : capabilities) (P : prompt_table) (py : text_ops)
    (st : AgentState) (w : world) (msgs : list message) (d : delta) (w' : world) :
  lists w !! messages st = Some msgs →
  aggregator_node caps P py st w = (Ok d, w') →
  ∃ reply w0 ns nc w2 path s c,
    aggregator_reply caps P st msgs w = (Ok (AIMessage reply), w0) ∧
    manage_memory caps (set_messages st (length (lists w)))
      (set_lists w0 (lists w ++ [msgs ++ [AIMessage reply]])) = (Ok (ns, nc), w2) ∧
    save_session caps py
      (state_to_save st (set_messages st (length (lists w))) ns nc) w2 = (Ok path, w') ∧
    conversation_summary (state_to_save st (set_messages st (length (lists w))) ns nc)
      = Some s ∧
    summarized_msg_count (state_to_save st (set_messages st (length (lists w))) ns nc)
      = Some c ∧
    d = [AddMessages [AIMessage reply]; SetConversationSummary s; SetSummarizedMsgCount c].
Proof.
  intros Hm H. unfold aggregator_node in H.
  rewrite (bind_Ok _ _ _ _ _ (read_list_Some _ _ _ Hm)) in H.
  change (mbind ?k (if should_exit st then _ else _))
    with (mbind k (aggregator_reply caps P st msgs)) in H.
  bind_ok H as fr w0 Hfr.
  destruct (aggregator_reply_inv caps P st msgs w fr w0 Hfr) as (reply & -> & Hl0 & _).
  unfold mbind at 1, M_bind at 1, new_list in H. rewrite Hl0 in H.
  bind_ok H as mm w2 Hmm. destruct mm as [ns nc].
  bind_ok H as path w3 Hsave.
  set (to_save := state_to_save st (set_messages st (length (lists w))) ns nc) in *.
  bind_ok H as s w4 Hs. bind_ok H as c w5 Hc.
  destruct (conversation_summary to_save) as [s'|] eqn:Es; [|discriminate].
  destruct (summarized_msg_count to_save) as [c'|] eqn:Ec; [|discriminate].
  inversion Hs; subst. inversion Hc; subst. inversion H; subst.
  by exists reply, w0, ns, nc, w2, path, s, c.
Qed.

Lemma state_to_save_frame (st temp_state : AgentState) (ns : option string) (nc : Z) :
  messages (state_to_save st temp_state ns nc) = messages temp_state ∧
  session_id (state_to_save st temp_state ns nc) = session_id temp_state ∧
  current_topic (state_to_save st temp_state ns nc) = current_topic temp_state ∧
  should_exit (state_to_save st temp_state ns nc) = should_exit temp_state ∧
  summary_output (state_to_save st temp_state ns nc) = summary_output temp_state.
Proof. unfold state_to_save. by destruct (bool_decide _). Qed.

(** The aggregator's step of the graph on a transcript [msgs]: the reply
    is appended in a new list object, the cursor stays or moves to five
    before the new end, and the session file holds what is returned. *)
Lemma run_aggregator_inv (caps : capabilities) (P : prompt_table) (py : text_ops)
    (st : AgentState) (w : world) (msgs : list message) (st1 : AgentState) (w1 : world) :
  lists w !! messages st = Some msgs →
  run_aggregator caps P py st w = (Ok st1, w1) →
  ∃ reply w0 r s c,
    aggregator_reply caps P st msgs w = (Ok (AIMessage reply), w0) ∧
    st1 = set_summarized_msg_count (set_conversation_summary (set_messages st r) s) c ∧
    lists w1 !! r = Some (msgs ++ [AIMessage reply]) ∧
    lists w `prefix_of` lists w1 ∧
    (c = get_cursor st ∨
     (c = Z.of_nat (length msgs) + 1 - KEEP_WINDOW ∧
      COMPRESSION_THRESHOLD ≤ Z.of_nat (length msgs) + 1 - get_cursor st)) ∧
    (∀ sid, session_id st = Some sid → sid ≠ EmptyString →
       ∃ stamp,
         sessions w1 !! session_file sid
         = Some (mk_session_data sid stamp (default "General" (current_topic st)) s
                   (messages_to_dict (msgs ++ [AIMessage reply])))).
Proof.
  intros Hm E. unfold run_aggregator, run_node in E.
  pose proof (growing_aggregator_node caps P py st w) as Hgrow.
  bind_ok E as d wa Hagg. rewrite Hagg in Hgrow. cbn [snd] in Hgrow.
  destruct (aggregator_steps caps P py st w msgs d wa Hm Hagg)
    as (reply & w0 & ns & nc & w2 & path & s & c & Hreply & Hmm & Hsave & Es & Ec & ->).
  set (tmp := set_messages st (length (lists w))) in *.
  set (to_save := state_to_save st tmp ns nc) in *.
  assert (Hm1 : lists wa !! messages st = Some msgs) by by eapply prefix_lookup_Some.
  cbn [apply_delta apply_update] in E.
  unfold mbind, M_bind, read_list, new_list, mret, M_ret in E. rewrite Hm1 in E.
  inversion E; subst st1 w1. clear E.
  exists reply, w0, (length (lists wa)), s, c.
  split; [exact Hreply|]. split; [reflexivity|]. split.
  { cbn [lists set_lists]. by rewrite lookup_app_r, Nat.sub_diag. }
  split; [cbn [lists set_lists]; etrans; [exact Hgrow|by apply prefix_app_r]|].
  set (wm := set_lists w0 (lists w ++ [msgs ++ [AIMessage reply]])) in *.
  assert (Htmp : lists wm !! messages tmp = Some (msgs ++ [AIMessage reply])).
  { subst wm tmp. cbn [lists set_lists messages set_messages].
    by rewrite lookup_app_r, Nat.sub_diag. }
  split.
  - destruct (state_to_save_cursor st tmp ns nc) as [Hsame Hdiff].
    destruct (decide (ns = get_summary st)) as [Heq|Hne].
    + left. fold to_save in Hsame. rewrite (Hsame Heq) in Ec. simpl in Ec.
      unfold get_cursor. by rewrite Ec.
    + destruct (Hdiff Hne) as [Ec' _]. fold to_save in Ec'. rewrite Ec' in Ec.
      inversion Ec; subst c.
      destruct (manage_memory_cursor caps tmp wm (msgs ++ [AIMessage reply])
                  ns nc w2 Htmp Hmm) as [->|[-> Hfire]].
      * by left.
      * right. change (get_cursor tmp) with (get_cursor st) in Hfire.
        rewrite length_app in *. simpl in *. split; lia.
  - intros sid Hsid Hne.
    destruct (manage_memory_frame caps tmp wm _ w2 Hmm) as (Hl2 & _).
    destruct (state_to_save_frame st tmp ns nc) as (Hmsg & Hid & Htopic & _).
    fold to_save in Hmsg, Hid, Htopic.
    assert (Hsave_m : lists w2 !! messages to_save = Some (msgs ++ [AIMessage reply])).
    { rewrite Hmsg, Hl2. exact Htmp. }
    assert (Hsave_id : session_id to_save = Some sid) by (by rewrite Hid).
    pose proof (save_session_run caps py to_save w2 sid _ Hsave_id Hne Hsave_m) as Hrun.
    cbv zeta in Hrun. rewrite Hrun in Hsave.
    assert (Hsum : get_summary to_save = s) by (unfold get_summary; by rewrite Es).
    rewrite Hsum, Htopic in Hsave.
    exists (now_isoformat caps (trace w2)).
    inversion Hsave as [[Hp Hwa]]. cbn [sessions set_lists].
    destruct (should_exit to_save && truthy (summary_output to_save));
      cbn [sessions set_note set_session]; by rewrite lookup_insert_eq.
Qed.

(** ** The walk of the graph *)

Lemma run_inquiry_walk caps P py sb wb st' w' :
  run_inquiry caps P py sb wb = (Ok st', w') →
  ∃ sa wa, cascade Inquiry sb sa ∧ lists wb `prefix_of` lists wa ∧
           run_aggregator caps P py sa wa = (Ok st', w').
Proof.
  intros E. unfold run_inquiry in E. bind_ok E as s1 w1 Hnode.
  destruct (run_inquiry_node_inv caps P py sb wb s1 w1 Hnode) as (text & -> & Hpre).
  eexists _, w1. split; [apply cascade_inquiry|]. done.
Qed.

Lemma run_summary_walk caps P py sb wb st' w' :
  run_summary caps P py sb wb = (Ok st', w') →
  ∃ sa wa, cascade Summary sb sa ∧ lists wb `prefix_of` lists wa ∧
           run_aggregator caps P py sa wa = (Ok st', w').
Proof.
  intros E. unfold run_summary in E. bind_ok E as s1 w1 Hnode.
  destruct (run_summary_node_inv caps P py sb wb s1 w1 Hnode) as (Hpre & Hcase).
  exists s1, w1. split; [|done].
  destruct (plan sb) as [p|] eqn:Hp.
  - destruct (is_concluding p) eqn:Hc; [|destruct (request_summary p) eqn:Hr].
    + destruct Hcase as [text ->]. by eapply cascade_summary_note.
    + destruct Hcase as [text ->]. by eapply cascade_summary_review.
    + destruct Hcase as [-> ->]. apply cascade_summary_idle.
      intros p' Hp'. rewrite Hp in Hp'. inversion Hp'; subst p'. done.
  - destruct Hcase as [-> ->]. apply cascade_summary_idle. intros p' Hp'. congruence.
Qed.

Lemma run_judge_walk caps P py sb wb st' w' :
  run_judge caps P py sb wb = (Ok st', w') →
  ∃ sa wa, cascade Judge sb sa ∧ lists wb `prefix_of` lists wa ∧
           run_aggregator caps P py sa wa = (Ok st', w').
Proof.
  intros E. unfold run_judge in E. bind_ok E as s1 w1 Hnode.
  destruct (run_judge_node_inv caps P py sb wb s1 w1 Hnode) as (text & -> & Hpre).
  unfold mbind at 1, M_bind at 1, lift in E.
  destruct (route_from_judge (set_judge_output sb (Some text))) as [n|e] eqn:Hroute;
    [|discriminate].
  destruct n; try discriminate.
  - destruct (run_inquiry_walk caps P py _ w1 st' w' E) as (sa & wa & Hc & Hpre' & Hagg).
    exists sa, wa. split; [by eapply cascade_judge|]. split; [by etrans|done].
  - eexists _, w1. split; [|done].
    eapply cascade_judge; [exact Hroute|apply cascade_aggregator].
Qed.

Lemma run_tutor_walk caps P py sb wb st' w' :
  run_tutor caps P py sb wb = (Ok st', w') →
  ∃ sa wa, cascade Tutor sb sa ∧ lists wb `prefix_of` lists wa ∧
           run_aggregator caps P py sa wa = (Ok st', w').
Proof.
  intros E. unfold run_tutor in E. bind_ok E as s1 w1 Hnode.
  destruct (run_tutor_node_inv caps P py sb wb s1 w1 Hnode) as (text & -> & Hpre).
  unfold mbind at 1, M_bind at 1, lift in E.
  destruct (route_from_tutor (set_tutor_output sb (Some text))) as [n|e] eqn:Hroute;
    [|discriminate].
  destruct n; try discriminate.
  - destruct (run_judge_walk caps P py _ w1 st' w' E) as (sa & wa & Hc & Hpre' & Hagg).
    exists sa, wa. split; [by eapply cascade_tutor|]. split; [by etrans|done].
  - destruct (run_inquiry_walk caps P py _ w1 st' w' E) as (sa & wa & Hc & Hpre' & Hagg).
    exists sa, wa. split; [by eapply cascade_tutor|]. split; [by etrans|done].
  - eexists _, w1. split; [|done].
    eapply cascade_tutor; [exact Hroute|apply cascade_aggregator].
Qed.

(** A returning run of the graph on a non-empty transcript: the planner
    answered with a plan, the workers chosen by the router wrote their
    keys, and the aggregator ran last. *)
Lemma graph_invoke_walk (caps : capabilities) (P : prompt_table) (py : text_ops)
    (st : AgentState) (w : world) (msgs : list message) (st' : AgentState) (w' : world) :
  lists w !! messages st = Some msgs → msgs ≠ [] →
  graph_invoke caps P py st w = (Ok st', w') →
  ∃ p sa wa,
    planner_invoke caps (trace w) (analyzer_inputs P st msgs) = Ok p ∧
    cascade (route_from_analyzer (planned_state st p)) (planned_state st p) sa ∧
    lists w `prefix_of` lists wa ∧
    run_aggregator caps P py sa wa = (Ok st', w').
Proof.
  intros Hm Hne E. unfold graph_invoke in E. bind_ok E as s1 w1 Hnode.
  destruct (run_analyzer_inv caps P st w msgs s1 w1 Hm Hne Hnode) as (p & Hp & -> & ->).
  exists p.
  destruct (route_from_analyzer (planned_state st p)) eqn:Hroute; try discriminate.
  - destruct (run_tutor_walk caps P py _ _ st' w' E) as (sa & wa & ? & ? & ?).
    by exists sa, wa.
  - destruct (run_judge_walk caps P py _ _ st' w' E) as (sa & wa & ? & ? & ?).
    by exists sa, wa.
  - destruct (run_inquiry_walk caps P py _ _ st' w' E) as (sa & wa & ? & ? & ?).
    by exists sa, wa.
  - destruct (run_summary_walk caps P py _ _ st' w' E) as (sa & wa & ? & ? & ?).
    by exists sa, wa.
  - eexists _, _. split; [done|]. split; [apply cascade_aggregator|].
    split; [|exact E]. done.
Qed.

(** What the walk leaves in the state, read off the plan's flags. *)
Lemma cascade_flags (st : AgentState) (p : ExecutionPlan) (sa : AgentState) :
  cascade (route_from_analyzer (planned_state st p)) (planned_state st p) sa →
  plan sa = Some p ∧
  has_output (tutor_output sa) = negb (summarizing p) && needs_tutor_answer p ∧
  has_output (judge_output sa) = negb (summarizing p) && needs_judge p ∧
  has_output (inquiry_output sa) = negb (summarizing p) && needs_inquiry p ∧
  has_output (summary_output sa) = summarizing p ∧
  should_exit sa = should_exit st || is_concluding p ∧
  same_memory st sa ∧
  session_id sa = session_id st ∧ current_topic sa = current_topic st.
Proof.
  destruct p as [t j i r c thought]. unfold route_from_analyzer, summarizing.
  cbn [plan planned_state request_summary is_concluding needs_tutor_answer
       needs_judge needs_inquiry].
  intros H.
  destruct r, c, t, j, i; cbn [orb] in H;
    repeat match goal with
    | H : cascade Aggregator _ _ |- _ => inversion H; subst; clear H
    | H : cascade Inquiry _ _ |- _ => inversion H; subst; clear H
    | H : cascade Summary _ _ |- _ => inversion H; subst; clear H
    | H : cascade Judge _ _ |- _ => inversion H; subst; clear H
    | H : cascade Tutor _ _ |- _ => inversion H; subst; clear H
    | H : route_from_judge _ = Ok _ |- _ => cbn in H; inversion H; subst; clear H
    | H : route_from_tutor _ = Ok _ |- _ => cbn in H; inversion H; subst; clear H
    | H : plan _ = Some _ |- _ => cbn in H; inversion H; subst; clear H
    | H : ∀ p, plan _ = Some p → _ |- _ =>
        destruct (H _ eq_refl) as [? ?]; clear H
    end;
    cbn in *; try discriminate;
    (split; [reflexivity|]);
    rewrite ?orb_true_r, ?orb_false_r; repeat split; reflexivity.
Qed.

(** ** One turn of the driving loop *)

Lemma growing_run_aggregator caps P py st : growing (run_aggregator caps P py st).
Proof. apply growing_run_node, growing_aggregator_node. Qed.

Lemma growing_run_inquiry caps P py st : growing (run_inquiry caps P py st).
Proof.
  unfold run_inquiry. apply growing_bind; [apply growing_run_node, growing_inquiry_node|].
  intros s. apply growing_run_aggregator.
Qed.

Lemma growing_run_summary caps P py st : growing (run_summary caps P py st).
Proof.
  unfold run_summary. apply growing_bind; [apply growing_run_node, growing_summary_node|].
  intros s. apply growing_run_aggregator.
Qed.

Lemma growing_run_judge caps P py st : growing (run_judge caps P py st).
Proof.
  unfold run_judge. apply growing_bind; [apply growing_run_node, growing_judge_node|].
  intros s. apply growing_bind; [apply growing_lift|]. intros n.
  destruct n;
    first [apply growing_raise | apply growing_run_inquiry | apply growing_run_aggregator].
Qed.

Lemma growing_run_tutor caps P py st : growing (run_tutor caps P py st).
Proof.
  unfold run_tutor. apply growing_bind; [apply growing_run_node, growing_tutor_node|].
  intros s. apply growing_bind; [apply growing_lift|]. intros n.
  destruct n;
    first [apply growing_raise | apply growing_run_judge | apply growing_run_inquiry
          | apply growing_run_aggregator].
Qed.

Lemma growing_graph_invoke caps P py st : growing (graph_invoke caps P py st).
Proof.
  unfold graph_invoke. apply growing_bind; [apply growing_run_node, growing_analyzer_node|].
  intros s.
  destruct (route_from_analyzer s);
    first [apply growing_raise | apply growing_run_tutor | apply growing_run_judge
          | apply growing_run_inquiry | apply growing_run_summary
          | apply growing_run_aggregator].
Qed.

(** The aggregator's step of the graph, with every intermediate value named. *)
Lemma run_aggregator_steps (caps : capabilities) (P : prompt_table) (py : text_ops)
    (st : AgentState) (w : world) (msgs : list message) (st1 : AgentState) (w1 : world) :
  lists w !! messages st = Some msgs →
  run_aggregator caps P py st w = (Ok st1, w1) →
  ∃ reply w0 ns nc w2 s c r,
    aggregator_reply caps P st msgs w = (Ok (AIMessage reply), w0) ∧
    manage_memory caps (set_messages st (length (lists w)))
      (set_lists w0 (lists w ++ [msgs ++ [AIMessage reply]])) = (Ok (ns, nc), w2) ∧
    conversation_summary (state_to_save st (set_messages st (length (lists w))) ns nc)
      = Some s ∧
    summarized_msg_count (state_to_save st (set_messages st (length (lists w))) ns nc)
      = Some c ∧
    st1 = set_summarized_msg_count (set_conversation_summary (set_messages st r) s) c ∧
    lists w1 !! r = Some (msgs ++ [AIMessage reply]) ∧
    lists w `prefix_of` lists w1.
Proof.
  intros Hm E. unfold run_aggregator, run_node in E.
  pose proof (growing_aggregator_node caps P py st w) as Hgrow.
  bind_ok E as d wa Hagg. rewrite Hagg in Hgrow. cbn [snd] in Hgrow.
  destruct (aggregator_steps caps P py st w msgs d wa Hm Hagg)
    as (reply & w0 & ns & nc & w2 & path & s & c & Hreply & Hmm & Hsave & Es & Ec & ->).
  assert (Hm1 : lists wa !! messages st = Some msgs) by by eapply prefix_lookup_Some.
  cbn [apply_delta apply_update] in E.
  unfold mbind, M_bind, read_list, new_list, mret, M_ret in E. rewrite Hm1 in E.
  inversion E; subst st1 w1. clear E.
  exists reply, w0, ns, nc, w2, s, c, (length (lists wa)).
  split; [exact Hreply|]. split; [exact Hmm|]. split; [exact Es|]. split; [exact Ec|].
  split; [reflexivity|]. split.
  - cbn [lists set_lists]. by rewrite lookup_app_r, Nat.sub_diag.
  - cbn [lists set_lists]. etrans; [exact Hgrow|by apply prefix_app_r].
Qed.

(** Below the threshold the aggregator returns the cursor and the summary
    it read; it can return only if the state has a cursor whenever it has
    a summary key. *)
Lemma run_aggregator_idle (caps : capabilities) (P : prompt_table) (py : text_ops)
    (st : AgentState) (w : world) (msgs : list message) (st1 : AgentState) (w1 : world) :
  lists w !! messages st = Some msgs →
  Z.of_nat (length msgs) + 1 - get_cursor st < COMPRESSION_THRESHOLD →
  run_aggregator caps P py st w = (Ok st1, w1) →
  summarized_msg_count st1 = Some (get_cursor st) ∧
  conversation_summary st1 = Some (get_summary_or_empty st) ∧
  (conversation_summary st ≠ None → summarized_msg_count st ≠ None).
Proof.
  intros Hm Hlt E.
  destruct (run_aggregator_steps caps P py st w msgs st1 w1 Hm E)
    as (reply & w0 & ns & nc & w2 & s & c & r & Hreply & Hmm & Es & Ec & -> & _ & _).
  destruct (aggregator_reply_inv caps P st msgs w _ w0 Hreply) as (_ & _ & Hl0 & _).
  set (tmp := set_messages st (length (lists w))) in *.
  set (wm := set_lists w0 (lists w ++ [msgs ++ [AIMessage reply]])) in *.
  assert (Htmp : lists wm !! messages tmp = Some (msgs ++ [AIMessage reply])).
  { subst wm tmp. cbn [lists set_lists messages set_messages].
    by rewrite lookup_app_r, Nat.sub_diag. }
  assert (Hlt' : Z.of_nat (length (msgs ++ [AIMessage reply])) - get_cursor tmp
                 < COMPRESSION_THRESHOLD).
  { change (get_cursor tmp) with (get_cursor st). rewrite length_app. simpl. lia. }
  rewrite (manage_memory_idle caps tmp wm _ Htmp Hlt') in Hmm.
  inversion Hmm; subst ns nc. clear Hmm.
  change (get_summary_or_empty tmp) with (get_summary_or_empty st) in *.
  change (get_cursor tmp) with (get_cursor st) in *.
  destruct (state_to_save_cursor st tmp (get_summary_or_empty st) (get_cursor st))
    as [Hsame Hdiff].
  cbn [summarized_msg_count conversation_summary set_summarized_msg_count
       set_conversation_summary set_messages].
  destruct (conversation_summary st) as [v|] eqn:Hkey.
  - assert (Heq : get_summary_or_empty st = get_summary st).
    { unfold get_summary_or_empty, get_summary. by rewrite Hkey. }
    rewrite (Hsame Heq) in Es, Ec.
    change (conversation_summary tmp) with (conversation_summary st) in Es.
    change (summarized_msg_count tmp) with (summarized_msg_count st) in Ec.
    rewrite Hkey in Es. inversion Es; subst s.
    split; [unfold get_cursor; by rewrite Ec|].
    split; [unfold get_summary_or_empty; by rewrite Hkey|].
    intros _. by rewrite Ec.
  - assert (Hne : get_summary_or_empty st ≠ get_summary st).
    { unfold get_summary_or_empty, get_summary. by rewrite Hkey. }
    destruct (Hdiff Hne) as [Ec' Es']. rewrite Ec' in Ec. rewrite Es' in Es.
    inversion Ec; inversion Es. split; [done|]. split; [done|]. done.
Qed.

(** Appending the utterance, then running the graph. *)
Lemma turn_run (caps : capabilities) (P : prompt_table) (py : text_ops)
    (st : AgentState) (u : string) (w : world) (msgs : list message) :
  lists w !! messages st = Some msgs →
  turn caps P py st u w
  = graph_invoke caps P py st
      (set_lists w (<[messages st := msgs ++ [HumanMessage u]]> (lists w))) ∧
  lists (set_lists w (<[messages st := msgs ++ [HumanMessage u]]> (lists w)))
    !! messages st = Some (msgs ++ [HumanMessage u]).
Proof.
  intros Hm. split.
  - unfold turn.
    by rewrite (bind_Ok _ _ _ _ _ (list_append_run _ (HumanMessage u) _ _ Hm)).
  - cbn [lists set_lists]. apply list_lookup_insert_eq. by eapply lookup_lt_Some.
Qed.

(** The graph never changes the list object the utterance was appended to. *)
Lemma turn_keeps_utterance (caps : capabilities) (P : prompt_table) (py : text_ops)
    (st : AgentState) (u : string) (w : world) (msgs : list message) :
  lists w !! messages st = Some msgs →
  lists (turn caps P py st u w).2 !! messages st = Some (msgs ++ [HumanMessage u]).
Proof.
  intros Hm. destruct (turn_run caps P py st u w msgs Hm) as [-> Hm1].
  eapply prefix_lookup_Some; [exact Hm1|]. apply growing_graph_invoke.
Qed.

(** A returning turn: the plan, the state handed to the aggregator, and
    the aggregator's run on the transcript with the utterance. *)
Lemma turn_walk (caps : capabilities) (P : prompt_table) (py : text_ops)
    (st : AgentState) (u : string) (w : world) (msgs : list message)
    (st' : AgentState) (w' : world) :
  lists w !! messages st = Some msgs →
  turn caps P py st u w = (Ok st', w') →
  ∃ p sa wa,
    planner_invoke caps (trace w) (analyzer_inputs P st (msgs ++ [HumanMessage u])) = Ok p ∧
    cascade (route_from_analyzer (planned_state st p)) (planned_state st p) sa ∧
    lists wa !! messages sa = Some (msgs ++ [HumanMessage u]) ∧
    run_aggregator caps P py sa wa = (Ok st', w').
Proof.
  intros Hm E. destruct (turn_run caps P py st u w msgs Hm) as [Hrun Hm1].
  rewrite Hrun in E.
  assert (Hne : msgs ++ [HumanMessage u] ≠ []) by (by destruct msgs).
  destruct (graph_invoke_walk caps P py st _ _ st' w' Hm1 Hne E)
    as (p & sa & wa & Hp & Hcas & Hpre & Hagg).
  exists p, sa, wa. split; [exact Hp|]. split; [exact Hcas|]. split; [|exact Hagg].
  destruct (cascade_flags st p sa Hcas) as (_ & _ & _ & _ & _ & _ & (Hmsgs & _) & _).
  rewrite Hmsgs. by eapply prefix_lookup_Some.
Qed.

(** The scan finds the utterance when only assistant messages follow it. *)
Lemma last_human_idx_le (msgs : list message) (i : nat) :
  -1 ≤ last_human_idx msgs i < Z.of_nat i.
Proof.
  induction i as [|j IH]; cbn [last_human_idx]; [lia|].
  destruct (msgs !! j) as [m|]; [destruct (is_human m)|]; lia.
Qed.




(** That turn, evaluated: the three workers ran, and the reply of the
    synthesis call closes the transcript. *)
Example cascading_turn_run :
  ∃ st' w',
    turn cascading_caps sample_prompts ascii_text_ops fresh_state "why?"
      (new_session "s1" empty_world).2 = (Ok st', w') ∧
    tutor_output st' = Some "an answer" ∧
    judge_output st' = Some "an answer" ∧
    inquiry_output st' = Some "a reply" ∧
    lists w' !! messages st'
    = Some [HumanMessage "why?"; AIMessage (mk_ai "a reply" [])].
Proof. eexists _, _. split; [vm_compute; reflexivity|]. vm_compute. done. Qed.

(** X9.  A turn that returns follows the planner's answer on the
    transcript with the utterance.  The returned state carries that
    plan; each of the answer, review and question outputs is present
    exactly when its flag is set and the plan asks for no summary and no
    conclusion; the summary output is present exactly when the plan asks
    for one of those two, which then silence the three other workers;
    the exit flag is raised by a concluding plan and never lowered;
    outputs of the turn before do not survive; the session id and the
    topic stay; and both memory keys are present afterwards. *)
Theorem turn_follows_plan (caps : capabilities) (P : prompt_table) (py : text_ops)
    (st : AgentState) (u : string) (w : world) (msgs : list message)
    (st' : AgentState) (w' : world) :
  lists w !! messages st = Some msgs →
  turn caps P py st u w = (Ok st', w') →
  ∃ p,
    planner_invoke caps (trace w) (analyzer_inputs P st (msgs ++ [HumanMessage u])) = Ok p ∧
    plan st' = Some p ∧
    has_output (tutor_output st') = negb (summarizing p) && needs_tutor_answer p ∧
    has_output (judge_output st') = negb (summarizing p) && needs_judge p ∧
    has_output (inquiry_output st') = negb (summarizing p) && needs_inquiry p ∧
    has_output (summary_output st') = summarizing p ∧
    should_exit st' = should_exit st || is_concluding p ∧
    session_id st' = session_id st ∧ current_topic st' = current_topic st ∧
    conversation_summary st' ≠ None ∧ summarized_msg_count st' ≠ None.
Proof.
  intros Hm E.
  destruct (turn_walk caps P py st u w msgs st' w' Hm E)
    as (p & sa & wa & Hp & Hcas & Hma & Hagg).
  destruct (cascade_flags st p sa Hcas)
    as (Hplan & Ht & Hj & Hi & Hs & Hx & _ & Hsid & Htopic).
  destruct (run_aggregator_steps caps P py sa wa _ st' w' Hma Hagg)
    as (reply & w0 & ns & nc & w2 & s & c & r & _ & _ & _ & _ & -> & _ & _).
  exists p. split; [exact Hp|].
  cbn [plan tutor_output judge_output inquiry_output summary_output should_exit
       session_id current_topic conversation_summary summarized_msg_count
       set_summarized_msg_count set_conversation_summary set_messages].
  repeat (split; [done|]). done.
Qed.

Lemma turn_follows_plan_witness :
  ∃ st' w',
    turn concluding_caps sample_prompts ascii_text_ops fresh_state "bye"
      (new_session "s1" empty_world).2 = (Ok st', w') ∧
    plan st' = Some concluding_plan ∧
    has_output (tutor_output st') = false ∧
    has_output (summary_output st') = true ∧
    should_exit st' = true.
Proof.
  destruct (turn concluding_caps sample_prompts ascii_text_ops fresh_state "bye"
              (new_session "s1" empty_world).2) as [[st'|e] w'] eqn:Hrun;
    [|vm_compute in Hrun; discriminate].
  exists st', w'. split; [reflexivity|].
  destruct (turn_follows_plan concluding_caps sample_prompts ascii_text_ops fresh_state
              "bye" (new_session "s1" empty_world).2 [] st' w' eq_refl Hrun)
    as (p & Hp & Hplan & Ht & _ & _ & Hs & Hx & _).
  inversion Hp; subst p. done.
Defined.

(** X10.  The reply of a turn that returns.  Once the exit flag is up
    the reply is the closing note as the summary worker wrote it, with
    no tool request and no synthesis.  Otherwise, when no worker left a
    non-empty output, it is the fixed request to be more specific; and
    else it is what the synthesis model answered to exactly two
    messages: the instruction built from the four outputs, and the
    utterance. *)
Theorem turn_reply (caps : capabilities) (P : prompt_table) (py : text_ops)
    (st : AgentState) (u : string) (w : world) (msgs : list message)
    (st' : AgentState) (w' : world) :
  lists w !! messages st = Some msgs →
  turn caps P py st u w = (Ok st', w') →
  ∃ reply,
    lists w' !! messages st' = Some (msgs ++ [HumanMessage u; AIMessage reply]) ∧
    (should_exit st' = true →
       reply = mk_ai (or_default (summary_output st') EmptyString) []) ∧
    (should_exit st' = false → all_outputs_empty st' = true →
       reply = mk_ai clarification_text []) ∧
    (should_exit st' = false → all_outputs_empty st' = false →
       ∃ events,
         model_invoke caps events
           [SystemMessage
              (AGGREGATOR_SYSTEM_PROMPT P
                 (or_default (tutor_output st') EmptyString)
                 (or_default (judge_output st') EmptyString)
                 (or_default (inquiry_output st') EmptyString)
                 (or_default (summary_output st') EmptyString));
            HumanMessage u]
         = Ok reply).
Proof.
  intros Hm E.
  destruct (turn_walk caps P py st u w msgs st' w' Hm E)
    as (p & sa & wa & _ & _ & Hma & Hagg).
  destruct (run_aggregator_steps caps P py sa wa _ st' w' Hma Hagg)
    as (reply & w0 & ns & nc & w2 & s & c & r & Hreply & _ & _ & _ & -> & Hr & _).
  exists reply.
  cbn [messages should_exit tutor_output judge_output inquiry_output summary_output
       set_summarized_msg_count set_conversation_summary set_messages].
  change (all_outputs_empty (set_summarized_msg_count _ c)) with (all_outputs_empty sa).
  split; [by rewrite Hr, <- app_assoc|].
  rewrite aggregator_reply_run in Hreply.
  unfold aggregator_inputs in Hreply. rewrite last_snoc in Hreply.
  destruct (should_exit sa).
  { inversion Hreply. split; [done|]. split; intros; discriminate. }
  split; [intros; discriminate|].
  destruct (all_outputs_empty sa).
  { inversion Hreply. split; [done|]. intros; discriminate. }
  split; [intros; discriminate|]. intros _ _.
  exists (trace wa).
  destruct (model_invoke caps (trace wa) _) as [response|e]; inversion Hreply. done.
Qed.

Lemma turn_reply_witness :
  ∃ st' w',
    turn idle_caps sample_prompts ascii_text_ops fresh_state "hm"
      (new_session "s1" empty_world).2 = (Ok st', w') ∧
    lists w' !! messages st'
    = Some [HumanMessage "hm"; AIMessage (mk_ai clarification_text [])].
Proof.
  destruct (turn idle_caps sample_prompts ascii_text_ops fresh_state "hm"
              (new_session "s1" empty_world).2) as [[st'|e] w'] eqn:Hrun;
    [|vm_compute in Hrun; discriminate].
  exists st', w'. split; [reflexivity|].
  destruct (turn_reply idle_caps sample_prompts ascii_text_ops fresh_state
              "hm" (new_session "s1" empty_world).2 [] st' w' eq_refl Hrun)
    as (reply & Hr & _ & Hidle & _).
  rewrite Hr, Hidle; [reflexivity| |];
    vm_compute in Hrun; inversion Hrun; reflexivity.
Defined.

(** X11.  A turn that returns has saved the session: loading the
    session id afterwards gives the transcript and the summary the turn
    returned, under the same id, with the topic (or ["General"]), and
    without a cursor. *)
Theorem turn_saves_session (caps : capabilities) (P : prompt_table) (py : text_ops)
    (st : AgentState) (u : string) (w : world) (msgs : list message)
    (st' : AgentState) (w' : world) (sid : string) :
  lists w !! messages st = Some msgs →
  session_id st = Some sid → sid ≠ EmptyString →
  turn caps P py st u w = (Ok st', w') →
  ∃ st2 w2 final,
    load_session sid w' = (Ok (Some st2), w2) ∧
    lists w' !! messages st' = Some final ∧
    lists w2 !! messages st2 = Some final ∧
    conversation_summary st2 = conversation_summary st' ∧
    session_id st2 = session_id st' ∧
    current_topic st2 = Some (default "General" (current_topic st')) ∧
    summarized_msg_count st2 = None.
Proof.
  intros Hm Hsid Hne E.
  destruct (turn_walk caps P py st u w msgs st' w' Hm E)
    as (p & sa & wa & _ & Hcas & Hma & Hagg).
  destruct (cascade_flags st p sa Hcas) as (_ & _ & _ & _ & _ & _ & _ & Hsid' & Htopic).
  destruct (run_aggregator_inv caps P py sa wa _ st' w' Hma Hagg)
    as (reply & w0 & r & s & c & _ & -> & Hr & _ & _ & Hsess).
  rewrite Hsid in Hsid'. destruct (Hsess sid Hsid' Hne) as [stamp Hfile].
  rewrite (load_session_run sid w' Hne), Hfile.
  cbn [sd_messages sd_topic sd_session_id sd_conversation_summary].
  rewrite messages_from_to_dict.
  eexists _, _, _. split; [reflexivity|].
  cbn [messages conversation_summary session_id current_topic summarized_msg_count
       set_summarized_msg_count set_conversation_summary set_messages lists set_lists].
  split; [exact Hr|]. split; [by rewrite lookup_app_r, Nat.sub_diag|].
  split; [done|]. split; [done|]. done.
Qed.

Lemma turn_saves_session_witness :
  ∃ st' w' st2 w2 final,
    turn cascading_caps sample_prompts ascii_text_ops fresh_state "why?"
      (new_session "s1" empty_world).2 = (Ok st', w') ∧
    load_session "s1" w' = (Ok (Some st2), w2) ∧
    lists w' !! messages st' = Some final ∧
    lists w2 !! messages st2 = Some final.
Proof.
  destruct (turn cascading_caps sample_prompts ascii_text_ops fresh_state "why?"
              (new_session "s1" empty_world).2) as [[st'|e] w'] eqn:Hrun;
    [|vm_compute in Hrun; discriminate].
  destruct (turn_saves_session cascading_caps sample_prompts ascii_text_ops fresh_state
              "why?" (new_session "s1" empty_world).2 [] st' w' "s1" eq_refl eq_refl
              ltac:(discriminate) Hrun)
    as (st2 & w2 & final & Hload & Hfinal & Hfinal2 & _).
  by exists st', w', st2, w2, final.
Defined.

(** ** A run of turns *)

(** One step of the loop on a transcript [msgs]. *)
Lemma session_step_transcript (caps : capabilities) (P : prompt_table) (py : text_ops)
    (st : AgentState) (u : string) (w : world) (msgs : list message)
    (st' : AgentState) (w' : world) :
  lists w !! messages st = Some msgs →
  session_step caps P py st u w = (st', w') →
  ∃ tail,
    lists w' !! messages st' = Some (msgs ++ HumanMessage u :: tail) ∧
    (tail = [] ∨ ∃ reply, tail = [AIMessage reply]) ∧
    (Z.of_nat (length msgs) + 2 - get_cursor st < COMPRESSION_THRESHOLD →
       get_cursor st' = get_cursor st ∧
       get_summary_or_empty st' = get_summary_or_empty st).
Proof.
  intros Hm E. unfold session_step in E.
  pose proof (turn_keeps_utterance caps P py st u w msgs Hm) as Hkeep.
  destruct (turn caps P py st u w) as [[st1|e] w1] eqn:Et; inversion E; subst st' w'.
  - destruct (turn_walk caps P py st u w msgs st1 w1 Hm Et)
      as (p & sa & wa & _ & Hcas & Hma & Hagg).
    destruct (cascade_flags st p sa Hcas)
      as (_ & _ & _ & _ & _ & _ & (_ & Hcnt & Hsum) & _).
    destruct (run_aggregator_steps caps P py sa wa _ st1 w1 Hma Hagg)
      as (reply & w0 & ns & nc & w2 & s & c & r & _ & _ & _ & _ & Hst1 & Hr & _).
    exists [AIMessage reply]. split.
    { rewrite Hst1.
      cbn [messages set_summarized_msg_count set_conversation_summary set_messages].
      by rewrite Hr, <- app_assoc. }
    split; [right; by exists reply|]. intros Hlt.
    assert (Hcur : get_cursor sa = get_cursor st) by (unfold get_cursor; by rewrite Hcnt).
    assert (Hlt' : Z.of_nat (length (msgs ++ [HumanMessage u])) + 1 - get_cursor sa
                   < COMPRESSION_THRESHOLD).
    { rewrite Hcur, length_app. simpl. lia. }
    destruct (run_aggregator_idle caps P py sa wa _ st1 w1 Hma Hlt' Hagg)
      as (Hc1 & Hs1 & _).
    split.
    + unfold get_cursor at 1. by rewrite Hc1.
    + unfold get_summary_or_empty at 1. rewrite Hs1.
      unfold get_summary_or_empty. by rewrite Hsum.
  - exists []. cbn [snd] in Hkeep. split; [exact Hkeep|]. split; [by left|]. done.
Qed.

(** A run of the loop over [inputs], from a transcript [msgs]. *)
Lemma run_session_transcript (caps : capabilities) (P : prompt_table) (py : text_ops)
    (inputs : list string) (st : AgentState) (w : world) (msgs : list message) :
  lists w !! messages st = Some msgs →
  ∃ added,
    lists (run_session caps P py st inputs w).2
      !! messages (run_session caps P py st inputs w).1 = Some (msgs ++ added) ∧
    List.filter is_human added = map HumanMessage inputs ∧
    (length inputs ≤ length added ≤ 2 * length inputs)%nat ∧
    (Z.of_nat (length msgs) + 2 * Z.of_nat (length inputs) - get_cursor st
       < COMPRESSION_THRESHOLD →
     get_cursor (run_session caps P py st inputs w).1 = get_cursor st ∧
     get_summary_or_empty (run_session caps P py st inputs w).1
       = get_summary_or_empty st).
Proof.
  revert st w msgs. induction inputs as [|u inputs IH]; intros st w msgs Hm.
  { exists []. cbn [run_session fst snd]. rewrite app_nil_r.
    split; [done|]. split; [done|]. split; [simpl; lia|]. done. }
  cbn [run_session].
  destruct (session_step caps P py st u w) as [st1 w1] eqn:E.
  destruct (session_step_transcript caps P py st u w msgs st1 w1 Hm E)
    as (tail & Hm1 & Htail & Hidle).
  destruct (IH st1 w1 _ Hm1) as (added & Hfinal & Hhuman & Hlen & Hrest).
  exists (HumanMessage u :: tail ++ added).
  split; [by rewrite Hfinal, <- app_assoc|]. split; [|split].
  - cbn [List.filter is_human map]. f_equal. rewrite List.filter_app.
    destruct Htail as [->|[reply ->]]; exact Hhuman.
  - cbn [length]. rewrite length_app.
    destruct Htail as [->|[reply ->]]; simpl; lia.
  - intros Hlt. cbn [length] in Hlt.
    destruct Hidle as [Hc1 Hs1]; [lia|].
    destruct Hrest as [Hc2 Hs2].
    { rewrite Hc1, length_app.
      destruct Htail as [->|[reply ->]]; simpl; lia. }
    split; congruence.
Qed.

(** X12.  Over any run of turns the transcript only grows at its end:
    the final transcript is the initial one followed by new messages,
    whose user messages are exactly the utterances, in order; every
    utterance is kept even when its turn fails, and at most one reply
    follows each. *)
Theorem transcript_append_only (caps : capabilities) (P : prompt_table) (py : text_ops)
    (inputs : list string) (st : AgentState) (w : world) (msgs : list message) :
  lists w !! messages st = Some msgs →
  let run := run_session caps P py st inputs w in
  ∃ added,
    lists run.2 !! messages run.1 = Some (msgs ++ added) ∧
    List.filter is_human added = map HumanMessage inputs ∧
    (length inputs ≤ length added ≤ 2 * length inputs)%nat.
Proof.
  intros Hm run.
  destruct (run_session_transcript caps P py inputs st w msgs Hm)
    as (added & Hfinal & Hhuman & Hlen & _).
  by exists added.
Qed.

Lemma transcript_append_only_witness :
  let run := run_session summarizing_caps sample_prompts ascii_text_ops compressed_state
               ["one"; "two"] sixteen_world in
  ∃ added,
    lists run.2 !! messages run.1 = Some (sixteen_messages ++ added) ∧
    List.filter is_human added = [HumanMessage "one"; HumanMessage "two"] ∧
    (2 ≤ length added ≤ 4)%nat.
Proof.
  exact (transcript_append_only summarizing_caps sample_prompts ascii_text_ops
           ["one"; "two"] compressed_state sixteen_world sixteen_messages eq_refl).
Defined.

(** X13.  Compression is spaced out: over a run of turns that cannot
    bring the unsummarized part of the transcript to sixteen messages
    (two messages a turn at most), neither the cursor nor the summary
    changes.  In particular, after a compression has left five
    unsummarized messages, the next five turns leave the memory alone. *)
Theorem compression_spacing (caps : capabilities) (P : prompt_table) (py : text_ops)
    (inputs : list string) (st : AgentState) (w : world) (msgs : list message) :
  lists w !! messages st = Some msgs →
  Z.of_nat (length msgs) + 2 * Z.of_nat (length inputs) - get_cursor st
    < COMPRESSION_THRESHOLD →
  get_cursor (run_session caps P py st inputs w).1 = get_cursor st ∧
  get_summary_or_empty (run_session caps P py st inputs w).1 = get_summary_or_empty st.
Proof.
  intros Hm Hlt.
  destruct (run_session_transcript caps P py inputs st w msgs Hm)
    as (added & _ & _ & _ & Hidle).
  by apply Hidle.
Qed.

Lemma compression_spacing_witness :
  get_cursor
    (run_session summarizing_caps sample_prompts ascii_text_ops compressed_state
       (replicate 5 "why?") sixteen_world).1 = 11.
Proof.
  apply (compression_spacing summarizing_caps sample_prompts ascii_text_ops
           (replicate 5 "why?") compressed_state sixteen_world sixteen_messages eq_refl).
  vm_compute. reflexivity.
Defined.

(** The sixth turn after that compression brings the unsummarized part
    to seventeen messages and moves the cursor to 23. *)
Example sixth_turn_compresses :
  get_cursor
    (run_session summarizing_caps sample_prompts ascii_text_ops
       (set_conversation_summary compressed_state (Some "older"))
       (replicate 6 "why?") sixteen_world).1 = 23.
Proof. vm_compute. reflexivity. Qed.

(** X14.  A session taken from the store cannot take a turn while its
    transcript is short: the loaded state has a summary key and no
    cursor key, so with fewer than fourteen stored messages every turn
    raises, whatever the models answer, and leaves the utterance in the
    transcript. *)
Theorem resumed_turn_raises (caps : capabilities) (P : prompt_table) (py : text_ops)
    (sid : string) (w : world) (st : AgentState) (w1 : world) (msgs : list message)
    (u : string) :
  load_session sid w = (Ok (Some st), w1) →
  lists w1 !! messages st = Some msgs →
  Z.of_nat (length msgs) + 2 < COMPRESSION_THRESHOLD →
  ∃ e w2,
    turn caps P py st u w1 = (Raise e, w2) ∧
    lists w2 !! messages st = Some (msgs ++ [HumanMessage u]).
Proof.
  intros Hload Hm Hlt.
  assert (Hkeys : conversation_summary st ≠ None ∧ summarized_msg_count st = None).
  { destruct (decide (sid = EmptyString)) as [->|Hne]; [discriminate|].
    rewrite (load_session_run sid w Hne) in Hload.
    destruct (sessions w !! session_file sid) as [data|]; [|discriminate].
    destruct (messages_from_dict (sd_messages data)); [|discriminate].
    inversion Hload. done. }
  destruct Hkeys as [Hsum Hcnt].
  pose proof (turn_keeps_utterance caps P py st u w1 msgs Hm) as Hkeep.
  destruct (turn caps P py st u w1) as [[st'|e] w2] eqn:E.
  - exfalso.
    destruct (turn_walk caps P py st u w1 msgs st' w2 Hm E)
      as (p & sa & wa & _ & Hcas & Hma & Hagg).
    destruct (cascade_flags st p sa Hcas)
      as (_ & _ & _ & _ & _ & _ & (_ & Hcnt' & Hsum') & _).
    assert (Hlt' : Z.of_nat (length (msgs ++ [HumanMessage u])) + 1 - get_cursor sa
                   < COMPRESSION_THRESHOLD).
    { unfold get_cursor. rewrite Hcnt', Hcnt, length_app. simpl. lia. }
    destruct (run_aggregator_idle caps P py sa wa _ st' w2 Hma Hlt' Hagg)
      as (_ & _ & Hkey).
    apply Hkey; congruence.
  - exists e, w2. split; [reflexivity|exact Hkeep].
Qed.

Lemma resumed_turn_raises_witness :
  ∃ e w2,
    turn summarizing_caps sample_prompts ascii_text_ops resumed_state "next"
      (load_session "s1" stored_world).2 = (Raise e, w2) ∧
    lists w2 !! messages resumed_state
    = Some [HumanMessage "hello"; AIMessage (mk_ai "hi" []); HumanMessage "next"].
Proof.
  apply (resumed_turn_raises summarizing_caps sample_prompts ascii_text_ops "s1"
           stored_world resumed_state (load_session "s1" stored_world).2
           [HumanMessage "hello"; AIMessage (mk_ai "hi" [])] "next").
  - vm_compute. reflexivity.
  - vm_compute. reflexivity.
  - vm_compute. reflexivity.
Defined.

(** That turn, evaluated: the planner, the tutor and the synthesis call
    all answered and the session file was written again, and then the
    node failed on the missing key. *)
Example resumed_turn_run :
  let run := turn summarizing_caps sample_prompts ascii_text_ops resumed_state "next"
               (load_session "s1" stored_world).2 in
  run.1 = Raise (KeyError "summarized_msg_count") ∧
  length (trace run.2) = 3%nat ∧
  sd_messages <$> (sessions run.2 !! session_file "s1")
  = Some (messages_to_dict
            [HumanMessage "hello"; AIMessage (mk_ai "hi" []); HumanMessage "next";
             AIMessage (mk_ai "a reply" [])]).
Proof. vm_compute. done. Qed.
